(** * SnapNotes: a shallow embedding of [snapnotes.py] and its verified contract

    The development follows the layers of the program:

    - [Py]: the fragment of the Python runtime the program relies on
      (exceptions, [str] operations, [datetime.isoformat]);
    - [Json]: the values, the encoder ([json.dump] with
      [ensure_ascii=False, indent=2]) and the decoder ([json.load]) of
      the [json] module, on the integer fragment of JSON;
    - the program itself: the file system, [ensure_store], [load_store],
      [save_store], [add_note], [list_notes], [find_note], [delete_note],
      [search_notes], [export_notes] and the [add], [list], [view] and
      [delete] branches of [main];
    - the lemmas and the theorems about them, and the theorems applied
      to sample inputs.

    Text is modelled as [string], a sequence of bytes: the UTF-8 encoding
    of a Python [str].  Operations whose result depends on the Unicode
    tables ([str.strip], [str.lower]) are parameters of the development. *)

From Stdlib Require Import ZArith NArith Ascii String List Bool Lia.
From Stdlib Require Import DecimalString DecimalN DecimalPos.
From stdpp Require Import base option list gmap strings.

Local Open Scope Z_scope.

(* ===================================================================== *)
(** * Part I: definitions                                                 *)
(* ===================================================================== *)

(** ** The Python runtime fragment *)

Module Py.

(** The exceptions the modelled code can raise. *)
Inductive exn : Type :=
| KeyError | TypeError | AttributeError | JSONDecodeError
| FileNotFoundError.

(** Outcome of a computation: a value, a raised exception, or [Beyond]
    when execution leaves the modelled fragment (a float, a lone
    surrogate, a value whose type contradicts the annotations of
    [Note]).  No theorem concludes anything from [Beyond]. *)
Inductive result (A : Type) : Type :=
| Ok (a : A)
| Raise (e : exn)
| Beyond.
Arguments Ok {A} a.
Arguments Raise {A} e.
Arguments Beyond {A}.

Definition rbind {A B} (r : result A) (k : A -> result B) : result B :=
  match r with
  | Ok a => k a
  | Raise e => Raise e
  | Beyond => Beyond
  end.

(** Named characters (decimal code points). *)
Definition c_quote : ascii := "034"%char.
Definition c_bslash : ascii := "092"%char.
Definition c_nl : ascii := "010"%char.
Definition c_cr : ascii := "013"%char.
Definition c_tab : ascii := "009"%char.
Definition c_bs : ascii := "008"%char.
Definition c_ff : ascii := "012"%char.
Definition c_space : ascii := " "%char.

(** [prefix + s]: is [p] a prefix of [s]; on success the remainder. *)
Fixpoint strip_prefix (p s : string) : option string :=
  match p with
  | EmptyString => Some s
  | String a p' =>
      match s with
      | String b s' => if Ascii.eqb a b then strip_prefix p' s' else None
      | EmptyString => None
      end
  end.

Definition startswith (p s : string) : bool :=
  match strip_prefix p s with Some _ => true | None => false end.

(** [q in s] on [str]: [q] occurs in [s] as a contiguous substring. *)
Fixpoint str_in (q s : string) : bool :=
  startswith q s ||
  match s with
  | EmptyString => false
  | String _ s' => str_in q s'
  end.

(** [sep.join(l)]. *)
Fixpoint join (sep : string) (l : list string) : string :=
  match l with
  | [] => ""
  | [x] => x
  | x :: l' => x +:+ sep +:+ join sep l'
  end.

(** Decimal digits of a natural number, as [int.__repr__] prints them. *)
Definition dec_of_N (n : N) : string :=
  NilEmpty.string_of_uint (N.to_uint n).

(** [repr(z)] for an [int]. *)
Definition int_repr (z : Z) : string :=
  match z with
  | Zneg p => String "-" (dec_of_N (Npos p))
  | _ => dec_of_N (Z.to_N z)
  end.

(** Zero padding to a minimal width, as the [%02d]-style fields of
    [isoformat] do. *)
Definition zfill (width : nat) (s : string) : string :=
  String.string_of_list_ascii
    (replicate (width - String.length s) "0"%char) +:+ s.

(** A naive [datetime], as [datetime.utcnow()] returns it. *)
Record datetime : Type := {
  year : N; month : N; day : N;
  hour : N; minute : N; second : N; microsecond : N
}.

(** [datetime.isoformat()] for a naive value: [YYYY-MM-DDTHH:MM:SS],
    followed by [.ffffff] when the microsecond field is not zero. *)
Definition isoformat (d : datetime) : string :=
  zfill 4 (dec_of_N (year d)) +:+ "-" +:+
  zfill 2 (dec_of_N (month d)) +:+ "-" +:+
  zfill 2 (dec_of_N (day d)) +:+ "T" +:+
  zfill 2 (dec_of_N (hour d)) +:+ ":" +:+
  zfill 2 (dec_of_N (minute d)) +:+ ":" +:+
  zfill 2 (dec_of_N (second d)) +:+
  (if N.eqb (microsecond d) 0 then ""
   else "." +:+ zfill 6 (dec_of_N (microsecond d))).

(** ASCII instances of the two Unicode-dependent operations, used to
    run the program on concrete inputs. *)
Definition ascii_is_space (c : ascii) : bool :=
  let n := N_of_ascii c in
  ((9 <=? n) && (n <=? 13) || (28 <=? n) && (n <=? 32))%N.

Fixpoint lstrip (s : string) : string :=
  match s with
  | String c s' => if ascii_is_space c then lstrip s' else s
  | EmptyString => s
  end.

Definition ascii_strip (s : string) : string :=
  String.rev (lstrip (String.rev (lstrip s))).

Definition ascii_lower_char (c : ascii) : ascii :=
  let n := N_of_ascii c in
  if ((65 <=? n) && (n <=? 90))%N then ascii_of_N (n + 32) else c.

Fixpoint ascii_lower (s : string) : string :=
  match s with
  | EmptyString => EmptyString
  | String c s' => String (ascii_lower_char c) (ascii_lower s')
  end.

End Py.
Export Py.

(** Sequencing of fallible steps. *)
Notation "'let*' x ':=' r 'in' k" := (rbind r (fun x => k))
  (at level 10, x pattern, r at level 100, k at level 200).

(** ** The [json] module *)

Module Json.

(** JSON values as [json.load] builds them: [None], [bool], [int],
    [str], [list] and [dict].  A [dict] keeps its keys in insertion
    order, so it is an association list; [json.load] only ever builds
    string keys. *)
#[local] Unset Elimination Schemes.
Inductive json : Type :=
| JNull
| JBool (b : bool)
| JInt (z : Z)
| JStr (s : string)
| JArr (l : list json)
| JObj (m : list (string * json)).
#[local] Set Elimination Schemes.

(** *** Dictionaries *)

(** [d.get(k)], [None] standing for a missing key. *)
Fixpoint dict_get (k : string) (m : list (string * json)) : option json :=
  match m with
  | [] => None
  | (k', v) :: m' => if String.eqb k k' then Some v else dict_get k m'
  end.

(** [d[k] = v]: an existing key keeps its position, a new one goes
    last. *)
Fixpoint dict_set (k : string) (v : json) (m : list (string * json))
  : list (string * json) :=
  match m with
  | [] => [(k, v)]
  | (k', v') :: m' =>
      if String.eqb k k' then (k, v) :: m' else (k', v') :: dict_set k v m'
  end.

(** [dict(pairs)]: the pairs are inserted from left to right. *)
Definition dict_of_pairs (ps : list (string * json)) : list (string * json) :=
  fold_left (fun m kv => dict_set (fst kv) (snd kv) m) ps [].

(** *** Encoder: [json.dump(v, f, ensure_ascii=False, indent=2)] *)

Definition hex_digit (n : N) : ascii :=
  if (n <? 10)%N then ascii_of_N (48 + n) else ascii_of_N (87 + n).

(** The replacement of one character inside a string literal
    ([ESCAPE_DCT]): the quote, the backslash and the control characters
    below [0x20] are escaped, everything else is copied. *)
Definition escape_char (c : ascii) : string :=
  if Ascii.eqb c c_quote then String c_bslash (String c_quote "")
  else if Ascii.eqb c c_bslash then String c_bslash (String c_bslash "")
  else if Ascii.eqb c c_nl then String c_bslash "n"
  else if Ascii.eqb c c_cr then String c_bslash "r"
  else if Ascii.eqb c c_tab then String c_bslash "t"
  else if Ascii.eqb c c_bs then String c_bslash "b"
  else if Ascii.eqb c c_ff then String c_bslash "f"
  else if (N_of_ascii c <? 32)%N then
    String c_bslash
      ("u00" +:+ String (hex_digit (N_of_ascii c / 16))
                   (String (hex_digit (N_of_ascii c mod 16)) ""))
  else String c "".

Fixpoint escape (s : string) : string :=
  match s with
  | EmptyString => EmptyString
  | String c s' => escape_char c +:+ escape s'
  end.

(** [encode_basestring]: the escaped text between two quotes. *)
Definition encode_str (s : string) : string :=
  String c_quote (escape s +:+ String c_quote "").

(** A newline followed by the indentation of nesting level [lvl]. *)
Definition newline_indent (lvl : nat) : string :=
  String c_nl (String.string_of_list_ascii (replicate (2 * lvl) c_space)).

(** [_iterencode] at nesting level [lvl]: an empty container is [[]] or
    [{}]; a non-empty one puts each item on a line of its own at level
    [lvl + 1], items separated by [,], and closes on a line at level
    [lvl]; a key is separated from its value by [: ]. *)
Fixpoint encode (lvl : nat) (j : json) : string :=
  match j with
  | JNull => "null"
  | JBool true => "true"
  | JBool false => "false"
  | JInt z => int_repr z
  | JStr s => encode_str s
  | JArr [] => "[]"
  | JArr (x :: xs) =>
      "[" +:+ newline_indent (S lvl) +:+ encode (S lvl) x +:+
      (fix items (l : list json) : string :=
         match l with
         | [] => newline_indent lvl +:+ "]"
         | y :: l' =>
             "," +:+ newline_indent (S lvl) +:+ encode (S lvl) y +:+ items l'
         end) xs
  | JObj [] => "{}"
  | JObj ((k, v) :: ps) =>
      "{" +:+ newline_indent (S lvl) +:+
      encode_str k +:+ ": " +:+ encode (S lvl) v +:+
      (fix members (l : list (string * json)) : string :=
         match l with
         | [] => newline_indent lvl +:+ "}"
         | (k', v') :: l' =>
             "," +:+ newline_indent (S lvl) +:+
             encode_str k' +:+ ": " +:+ encode (S lvl) v' +:+ members l'
         end) ps
  end.

(** [json.dumps(v, ensure_ascii=False, indent=2)]: the text [json.dump]
    writes. *)
Definition dumps (j : json) : string := encode 0 j.

(** *** Decoder: [json.load(f)] *)

(** The whitespace of JSON: space, tab, newline, carriage return. *)
Definition is_ws (c : ascii) : bool :=
  Ascii.eqb c c_space || Ascii.eqb c c_tab ||
  Ascii.eqb c c_nl || Ascii.eqb c c_cr.

Fixpoint skip_ws (s : string) : string :=
  match s with
  | String c s' => if is_ws c then skip_ws s' else s
  | EmptyString => s
  end.

(** The value of a hexadecimal digit, in either case. *)
Definition hex_val (c : ascii) : option N :=
  let n := N_of_ascii c in
  if ((48 <=? n) && (n <=? 57))%N then Some (n - 48)%N
  else if ((97 <=? n) && (n <=? 102))%N then Some (n - 87)%N
  else if ((65 <=? n) && (n <=? 70))%N then Some (n - 55)%N
  else None.

(** The four digits of a [\uXXXX] escape. *)
Definition hex4 (a b c d : ascii) : option N :=
  match hex_val a, hex_val b, hex_val c, hex_val d with
  | Some x, Some y, Some z, Some w =>
      Some (((x * 16 + y) * 16 + z) * 16 + w)%N
  | _, _, _, _ => None
  end.

Definition is_high_surrogate (n : N) : bool :=
  ((55296 <=? n) && (n <=? 56319))%N.
Definition is_low_surrogate (n : N) : bool :=
  ((56320 <=? n) && (n <=? 57343))%N.
Definition join_surrogates (hi lo : N) : N :=
  (65536 + ((hi - 55296) * 1024 + (lo - 56320)))%N.

(** The UTF-8 bytes of a code point. *)
Definition utf8 (n : N) : string :=
  let cont (k : N) := ascii_of_N (128 + k mod 64)%N in
  if (n <? 128)%N then String (ascii_of_N n) ""
  else if (n <? 2048)%N then
    String (ascii_of_N (192 + n / 64)%N) (String (cont n) "")
  else if (n <? 65536)%N then
    String (ascii_of_N (224 + n / 4096)%N)
      (String (cont (n / 64)%N) (String (cont n) ""))
  else
    String (ascii_of_N (240 + n / 262144)%N)
      (String (cont (n / 4096)%N)
         (String (cont (n / 64)%N) (String (cont n) ""))).

(** The character a one-letter escape stands for. *)
Definition unescape (c : ascii) : option ascii :=
  if Ascii.eqb c c_quote then Some c_quote
  else if Ascii.eqb c c_bslash then Some c_bslash
  else if Ascii.eqb c "/" then Some "/"%char
  else if Ascii.eqb c "b" then Some c_bs
  else if Ascii.eqb c "f" then Some c_ff
  else if Ascii.eqb c "n" then Some c_nl
  else if Ascii.eqb c "r" then Some c_cr
  else if Ascii.eqb c "t" then Some c_tab
  else None.

(** [scanstring] in strict mode, started after the opening quote: the
    decoded text and the input after the closing quote.  A raw control
    character, an unknown escape and a missing closing quote are
    errors.  A surrogate escape that is not part of a pair would put a
    lone surrogate into the [str]: the outcome is [Beyond]. *)
Fixpoint scanstring (s : string) : result (string * string) :=
  match s with
  | EmptyString => Raise JSONDecodeError
  | String c r =>
      if Ascii.eqb c c_quote then Ok (EmptyString, r)
      else if Ascii.eqb c c_bslash then
        match r with
        | EmptyString => Raise JSONDecodeError
        | String e r1 =>
            if Ascii.eqb e "u" then
              match r1 with
              | String h1 (String h2 (String h3 (String h4 r5))) =>
                  match hex4 h1 h2 h3 h4 with
                  | None => Raise JSONDecodeError
                  | Some n =>
                      if is_high_surrogate n then
                        match r5 with
                        | String b (String u (String l1 (String l2
                            (String l3 (String l4 r11))))) =>
                            if Ascii.eqb b c_bslash && Ascii.eqb u "u" then
                              match hex4 l1 l2 l3 l4 with
                              | None => Raise JSONDecodeError
                              | Some m =>
                                  if is_low_surrogate m then
                                    let* (t, r') := scanstring r11 in
                                    Ok (utf8 (join_surrogates n m) +:+ t, r')
                                  else Beyond
                              end
                            else Beyond
                        | _ => Beyond
                        end
                      else if is_low_surrogate n then Beyond
                      else
                        let* (t, r') := scanstring r5 in
                        Ok (utf8 n +:+ t, r')
                  end
              | _ => Raise JSONDecodeError
              end
            else
              match unescape e with
              | None => Raise JSONDecodeError
              | Some x =>
                  let* (t, r') := scanstring r1 in Ok (String x t, r')
              end
        end
      else if (N_of_ascii c <? 32)%N then Raise JSONDecodeError
      else let* (t, r') := scanstring r in Ok (String c t, r')
  end.

(** A decimal digit as a constructor of [Decimal.uint]. *)
Definition digit_of_char (c : ascii)
  : option (Decimal.uint -> Decimal.uint) :=
  if Ascii.eqb c "0" then Some Decimal.D0
  else if Ascii.eqb c "1" then Some Decimal.D1
  else if Ascii.eqb c "2" then Some Decimal.D2
  else if Ascii.eqb c "3" then Some Decimal.D3
  else if Ascii.eqb c "4" then Some Decimal.D4
  else if Ascii.eqb c "5" then Some Decimal.D5
  else if Ascii.eqb c "6" then Some Decimal.D6
  else if Ascii.eqb c "7" then Some Decimal.D7
  else if Ascii.eqb c "8" then Some Decimal.D8
  else if Ascii.eqb c "9" then Some Decimal.D9
  else None.

Definition is_digit (c : ascii) : bool :=
  match digit_of_char c with Some _ => true | None => false end.

(** The longest run of digits at the head of the input. *)
Fixpoint scan_uint (s : string) : Decimal.uint * string :=
  match s with
  | EmptyString => (Decimal.Nil, s)
  | String c s' =>
      match digit_of_char c with
      | Some D => let (d, r) := scan_uint s' in (D d, r)
      | None => (Decimal.Nil, s)
      end
  end.

Definition starts_with_digit (s : string) : bool :=
  match s with
  | String c _ => is_digit c
  | EmptyString => false
  end.

(** Does a fraction [\.\d+] or an exponent [[eE][-+]?\d+] follow the
    integer part: the literal is then a float. *)
Definition float_tail (s : string) : bool :=
  match s with
  | String c r =>
      if Ascii.eqb c "." then starts_with_digit r
      else if Ascii.eqb c "e" || Ascii.eqb c "E" then
        match r with
        | String c2 r2 =>
            if Ascii.eqb c2 "+" || Ascii.eqb c2 "-"
            then starts_with_digit r2
            else is_digit c2
        | EmptyString => false
        end
      else false
  | EmptyString => false
  end.

(** An integer part [0|[1-9]\d*] never starts with a superfluous
    zero: after the digit [0] the literal has ended, and a digit that
    follows is rejected by whoever reads on. *)
Definition leading_zero (d : Decimal.uint) : bool :=
  match d with
  | Decimal.D0 Decimal.Nil => false
  | Decimal.D0 _ => true
  | _ => false
  end.

(** [match_number] and the constants after it.  Floats ([NaN],
    [Infinity], a fraction, an exponent) are [Beyond]. *)
Definition scan_number (s : string) : result (json * string) :=
  let (neg, s1) :=
    match s with
    | String c r => if Ascii.eqb c "-" then (true, r) else (false, s)
    | EmptyString => (false, s)
    end in
  match scan_uint s1 with
  | (Decimal.Nil, _) =>
      if startswith "NaN" s || startswith "Infinity" s
         || startswith "-Infinity" s
      then Beyond else Raise JSONDecodeError
  | (d, r) =>
      if leading_zero d then Raise JSONDecodeError
      else if float_tail r then Beyond
      else
        let n := Z.of_N (N.of_uint d) in
        Ok (JInt (if neg then - n else n), r)
  end.

(** The constants [null], [true], [false], then numbers. *)
Definition scan_atom (s : string) : result (json * string) :=
  match strip_prefix "null" s with
  | Some r => Ok (JNull, r)
  | None =>
  match strip_prefix "true" s with
  | Some r => Ok (JBool true, r)
  | None =>
  match strip_prefix "false" s with
  | Some r => Ok (JBool false, r)
  | None => scan_number s
  end end end.

(** [scan_once], [JSONArray] and [JSONObject].  The input of
    [scan_once] starts at the value; [scan_items] starts at the first
    remaining item of an array; [scan_members] starts after the
    opening quote of the next key.  [fuel] bounds the number of nested
    calls. *)
Fixpoint scan_once (fuel : nat) (s : string) {struct fuel}
  : result (json * string) :=
  match fuel with
  | O => Beyond
  | S n =>
      match s with
      | EmptyString => Raise JSONDecodeError
      | String c r =>
          if Ascii.eqb c c_quote then
            let* (t, r1) := scanstring r in Ok (JStr t, r1)
          else if Ascii.eqb c "{" then
            match skip_ws r with
            | EmptyString => Raise JSONDecodeError
            | String c1 r1 =>
                if Ascii.eqb c1 "}" then Ok (JObj [], r1)
                else if Ascii.eqb c1 c_quote then
                  let* (ps, r2) := scan_members n r1 in
                  Ok (JObj (dict_of_pairs ps), r2)
                else Raise JSONDecodeError
            end
          else if Ascii.eqb c "[" then
            match skip_ws r with
            | EmptyString => Raise JSONDecodeError
            | String c1 r1 =>
                if Ascii.eqb c1 "]" then Ok (JArr [], r1)
                else
                  let* (vs, r2) := scan_items n (String c1 r1) in
                  Ok (JArr vs, r2)
            end
          else scan_atom s
      end
  end
with scan_items (fuel : nat) (s : string) {struct fuel}
  : result (list json * string) :=
  match fuel with
  | O => Beyond
  | S n =>
      let* (v, r) := scan_once n s in
      match skip_ws r with
      | EmptyString => Raise JSONDecodeError
      | String c r1 =>
          if Ascii.eqb c "]" then Ok ([v], r1)
          else if Ascii.eqb c "," then
            let* (vs, r2) := scan_items n (skip_ws r1) in
            Ok (v :: vs, r2)
          else Raise JSONDecodeError
      end
  end
with scan_members (fuel : nat) (s : string) {struct fuel}
  : result (list (string * json) * string) :=
  match fuel with
  | O => Beyond
  | S n =>
      let* (k, r) := scanstring s in
      match skip_ws r with
      | EmptyString => Raise JSONDecodeError
      | String c r1 =>
          if Ascii.eqb c ":" then
            let* (v, r2) := scan_once n (skip_ws r1) in
            match skip_ws r2 with
            | EmptyString => Raise JSONDecodeError
            | String c2 r3 =>
                if Ascii.eqb c2 "}" then Ok ([(k, v)], r3)
                else if Ascii.eqb c2 "," then
                  match skip_ws r3 with
                  | EmptyString => Raise JSONDecodeError
                  | String c3 r4 =>
                      if Ascii.eqb c3 c_quote then
                        let* (ps, r5) := scan_members n r4 in
                        Ok ((k, v) :: ps, r5)
                      else Raise JSONDecodeError
                  end
                else Raise JSONDecodeError
            end
          else Raise JSONDecodeError
      end
  end.

(** [json.loads]: leading whitespace, one value, trailing whitespace,
    and nothing else.  The fuel is enough for any text: a nested call
    costs at most two units for each character it consumes. *)
Definition loads (s : string) : result json :=
  let* (v, r) := scan_once (2 * String.length s + 1) (skip_ws s) in
  match skip_ws r with
  | EmptyString => Ok v
  | String _ _ => Raise JSONDecodeError
  end.

(** *** Vocabulary of the round-trip proofs *)

(** A value [json.load] can return or [json.dump] can be given: the keys
    of every dictionary are distinct. *)
#[local] Unset Elimination Schemes.
Inductive wf_json : json -> Prop :=
| wf_null : wf_json JNull
| wf_bool b : wf_json (JBool b)
| wf_int z : wf_json (JInt z)
| wf_str s : wf_json (JStr s)
| wf_arr l : Forall wf_json l -> wf_json (JArr l)
| wf_obj m :
    NoDup (map fst m) -> Forall (fun kv => wf_json (snd kv)) m ->
    wf_json (JObj m).
#[local] Set Elimination Schemes.

(** The number of nested calls the decoder needs for a value. *)
Fixpoint json_size (j : json) : nat :=
  match j with
  | JArr l => S (list_sum (map (fun x => S (json_size x)) l))
  | JObj m => S (list_sum (map (fun kv => S (json_size (snd kv))) m))
  | _ => 1
  end.

(** The text after the first item of a non-empty array, and after the
    first member of a non-empty object, as [encode] lays it out. *)
Definition encode_items (lvl : nat) : list json -> string :=
  fix items (l : list json) : string :=
    match l with
    | [] => newline_indent lvl +:+ "]"
    | y :: l' =>
        "," +:+ newline_indent (S lvl) +:+ encode (S lvl) y +:+ items l'
    end.

Definition encode_members (lvl : nat) : list (string * json) -> string :=
  fix members (l : list (string * json)) : string :=
    match l with
    | [] => newline_indent lvl +:+ "}"
    | (k', v') :: l' =>
        "," +:+ newline_indent (S lvl) +:+
        encode_str k' +:+ ": " +:+ encode (S lvl) v' +:+ members l'
    end.

(** The characters that follow a value in the output of the encoder. *)
Definition terminated (rest : string) : Prop :=
  match rest with
  | EmptyString => True
  | String c _ => c = ","%char \/ c = c_nl
  end.

End Json.
Export Json.

(** ** The program *)

(** *** Files *)

(** A [pathlib.Path] is the list of its components.  The file system
    maps the paths of regular files to their text; directories carry no
    content and are not represented, so [mkdir] has no effect here. *)
Abbreviation path := (list string).

(** The observable steps on files: [open(p, 'w')] creates or truncates
    [p]; a write appends one character (a reader may see the file after
    any of them); a successful [os.rename] puts the file under the new
    name in one step, replacing what was there; [os.unlink] removes a
    file. *)
Inductive fs_op : Type :=
| Create (p : path)
| Append (p : path) (c : ascii)
| Rename (src dst : path)
| Unlink (p : path).

Definition apply_op (f : gmap path string) (o : fs_op) : gmap path string :=
  match o with
  | Create p => <[p := EmptyString]> f
  | Append p c =>
      match f !! p with
      | Some t => <[p := t +:+ String c ""]> f
      | None => f
      end
  | Rename src dst =>
      match f !! src with
      | Some t => <[dst := t]> (delete src f)
      | None => f
      end
  | Unlink p => delete p f
  end.

Definition run_ops (ops : list fs_op) (f : gmap path string)
  : gmap path string :=
  foldl apply_op f ops.

(** [with p.open('w') as f: f.write(text)], also when the text is
    written in several chunks. *)
Definition write_text (p : path) (text : string) : list fs_op :=
  Create p :: map (Append p) (String.list_ascii_of_string text).

(** Computations over the file system that may raise. *)
Definition M (A : Type) : Type :=
  gmap path string -> result A * gmap path string.

Definition ret {A} (a : A) : M A := fun f => (Ok a, f).

Definition bind {A B} (m : M A) (k : A -> M B) : M B :=
  fun f =>
    match m f with
    | (Ok a, f') => k a f'
    | (Raise e, f') => (Raise e, f')
    | (Beyond, f') => (Beyond, f')
    end.

Definition lift {A} (r : result A) : M A := fun f => (r, f).

Definition exec (ops : list fs_op) : M unit :=
  fun f => (Ok tt, run_ops ops f).

(** [p.exists()]. *)
Definition path_exists (p : path) : M bool :=
  fun f => (Ok (bool_decide (is_Some (f !! p))), f).

(** [with p.open('r') as f: f.read()]. *)
Definition read_text (p : path) : M string :=
  fun f =>
    (match f !! p with
     | Some t => Ok t
     | None => Raise FileNotFoundError
     end, f).

Notation "'let!' x ':=' m 'in' k" := (bind m (fun x => k))
  (at level 10, x pattern, m at level 100, k at level 200).

(** [Path.with_suffix]: the suffix of a name starts at its last dot,
    unless that dot is the first or the last character. *)
Fixpoint rfind_dot (s : string) : option nat :=
  match s with
  | EmptyString => None
  | String c s' =>
      match rfind_dot s' with
      | Some i => Some (S i)
      | None => if Ascii.eqb c "." then Some O else None
      end
  end.

Definition stem (name : string) : string :=
  match rfind_dot name with
  | Some i =>
      if (0 <? i)%nat && (i <? String.length name - 1)%nat
      then String.substring 0 i name else name
  | None => name
  end.

Definition with_suffix (suffix : string) (p : path) : path :=
  match reverse p with
  | name :: parents => reverse parents ++ [stem name +:+ suffix]
  | [] => p
  end.

(** The parent directory of a path. *)
Definition parent (p : path) : path :=
  match reverse p with
  | _ :: parents => reverse parents
  | [] => p
  end.

(** [Path.home()], kept symbolic. *)
Definition home : path := ["~"].
Definition APP_DIR : path := home ++ [".snapnotes"].
Definition NOTES_FILE : path := APP_DIR ++ ["notes.json"].

(** *** The data model *)

Record Note : Type := {
  id : Z;
  title : string;
  body : string;
  tags : list string;
  created_at : string
}.

(** [dataclasses.asdict]: the fields in declaration order. *)
Definition asdict (n : Note) : json :=
  JObj [("id", JInt (id n)); ("title", JStr (title n));
        ("body", JStr (body n)); ("tags", JArr (map JStr (tags n)));
        ("created_at", JStr (created_at n))].

Definition field_names : list string :=
  ["id"; "title"; "body"; "tags"; "created_at"].

Definition as_int (v : json) : result Z :=
  match v with JInt z => Ok z | _ => Beyond end.

Definition as_str (v : json) : result string :=
  match v with JStr s => Ok s | _ => Beyond end.

Fixpoint as_str_list (l : list json) : result (list string) :=
  match l with
  | [] => Ok []
  | v :: l' =>
      let* s := as_str v in
      let* ss := as_str_list l' in
      Ok (s :: ss)
  end.

Definition as_tags (v : json) : result (list string) :=
  match v with JArr l => as_str_list l | _ => Beyond end.

Definition field (k : string) (m : list (string * json)) : result json :=
  match dict_get k m with Some v => Ok v | None => Raise TypeError end.

(** The constructor call of [list_notes], which unpacks the dict [n]
    into keyword arguments: [n] must be a mapping whose keys are exactly
    the five field names, in any order.  Python stores the values unchecked; here
    a value that contradicts the annotation of its field is [Beyond]. *)
Definition note_of_json (n : json) : result Note :=
  match n with
  | JObj m =>
      if (length m =? 5)%nat
         && forallb (fun k => bool_decide (is_Some (dict_get k m))) field_names
      then
        let* vid := field "id" m in
        let* vtitle := field "title" m in
        let* vbody := field "body" m in
        let* vtags := field "tags" m in
        let* vcreated := field "created_at" m in
        let* i := as_int vid in
        let* t := as_str vtitle in
        let* b := as_str vbody in
        let* g := as_tags vtags in
        let* c := as_str vcreated in
        Ok {| id := i; title := t; body := b; tags := g; created_at := c |}
      else Raise TypeError
  | _ => Raise TypeError
  end.

(** [data.get(...)] needs a [dict]. *)
Definition as_dict (data : json) : result (list (string * json)) :=
  match data with
  | JObj m => Ok m
  | _ => Raise AttributeError
  end.

(** The items a [for] loop draws from a value.  A non-empty [str] would
    yield its characters: [Beyond]. *)
Definition iter_json (v : json) : result (list json) :=
  match v with
  | JArr l => Ok l
  | JObj m => Ok (map (fun kv => JStr (fst kv)) m)
  | JStr EmptyString => Ok []
  | JStr _ => Beyond
  | _ => Raise TypeError
  end.

(** [v != z] for the result [v] of [n.get("id")] and an [int] [z];
    [bool] is a subtype of [int]. *)
Definition py_ne_int (v : option json) (z : Z) : bool :=
  match v with
  | Some (JInt x) => negb (x =? z)
  | Some (JBool b) => negb (Z.b2z b =? z)
  | _ => true
  end.

(** *** Store persistence *)

Definition initial_store : json :=
  JObj [("next_id", JInt 1); ("notes", JArr [])].

Definition ensure_store : M unit :=
  let! present := path_exists NOTES_FILE in
  if (present : bool) then ret tt
  else exec (write_text NOTES_FILE (dumps initial_store)).

Definition load_store : M json :=
  let! _ := ensure_store in
  let! text := read_text NOTES_FILE in
  lift (loads text).

Definition tmp_file : path := with_suffix ".tmp" NOTES_FILE.

(** [shutil.move(src, dst)] for a regular file [src] that holds [text]
    and a [dst] that is no directory.  It tries [os.rename(src, dst)]
    first.  When that raises [OSError], it calls [copy2(src, dst)],
    which opens [dst] for writing and copies [text] into it, and then
    [os.unlink(src)].  [renamed] tells whether [os.rename] succeeded:
    the operating system decides it.  On POSIX it succeeds for two paths
    of one directory unless [dst] is a mount point; on Windows it raises
    [FileExistsError] whenever [dst] exists. *)
Definition shutil_move (renamed : bool) (src dst : path) (text : string)
  : list fs_op :=
  if renamed then [Rename src dst]
  else write_text dst text ++ [Unlink src].

(** The steps of [save_store] as a reader of the files may see them:
    the temporary file is written, then moved onto the store file. *)
Definition save_store_steps (renamed : bool) (data : json) : list fs_op :=
  write_text tmp_file (dumps data)
  ++ shutil_move renamed tmp_file NOTES_FILE (dumps data).

(** The steps of [save_store] when [os.rename] succeeds. *)
Definition save_store_ops (data : json) : list fs_op :=
  write_text tmp_file (dumps data) ++ [Rename tmp_file NOTES_FILE].

(** [save_store] as a whole.  The files it leaves are the same for both
    outcomes of [os.rename] (lemma [save_store_any_outcome]), so the
    outcome is no parameter here. *)
Definition save_store (data : json) : M unit :=
  exec (save_store_ops data).

Section SnapNotes.

(** [str.strip] and [str.lower] follow the Unicode tables; the program
    is verified for any such functions. *)
Variable str_strip : string -> string.
Variable str_lower : string -> string.

(** *** Note repository *)

(** [[t.strip() for t in (tags or []) if t.strip()]]. *)
Fixpoint strip_tags (l : list string) : list string :=
  match l with
  | [] => []
  | t :: l' =>
      if String.eqb (str_strip t) "" then strip_tags l'
      else str_strip t :: strip_tags l'
  end.

(** [add_note]; [now] is the value of [datetime.utcnow()]. *)
Definition add_note (now : datetime) (title body : string)
    (tags : option (list string)) : M Note :=
  let! data := load_store in
  let! m := lift (as_dict data) in
  let nid := default (JInt 1) (dict_get "next_id" m) in
  let note (i : Z) :=
    {| id := i;
       title := str_strip title;
       body := str_strip body;
       tags := strip_tags (default [] tags);
       created_at := isoformat now +:+ "Z" |} in
  let! notes :=
    lift (match dict_get "notes" m with
          | None => Raise KeyError
          | Some (JArr l) => Ok l
          | Some _ => Raise AttributeError
          end) in
  let! i :=
    lift (match nid with
          | JInt z => Ok z
          | JBool _ => Beyond
          | _ => Raise TypeError
          end) in
  let m1 := dict_set "notes" (JArr (notes ++ [asdict (note i)])) m in
  let m2 := dict_set "next_id" (JInt (i + 1)) m1 in
  let! _ := save_store (JObj m2) in
  ret (note i).

Fixpoint notes_of_json (l : list json) : result (list Note) :=
  match l with
  | [] => Ok []
  | n :: l' =>
      let* x := note_of_json n in
      let* xs := notes_of_json l' in
      Ok (x :: xs)
  end.

Definition list_notes : M (list Note) :=
  let! data := load_store in
  let! m := lift (as_dict data) in
  let! items := lift (iter_json (default (JArr []) (dict_get "notes" m))) in
  lift (notes_of_json items).

Fixpoint find_loop (note_id : Z) (l : list Note) : option Note :=
  match l with
  | [] => None
  | n :: l' => if id n =? note_id then Some n else find_loop note_id l'
  end.

Definition find_note (note_id : Z) : M (option Note) :=
  let! notes := list_notes in
  ret (find_loop note_id notes).

(** [[n for n in notes if n.get("id") != note_id]]. *)
Fixpoint keep_other (note_id : Z) (l : list json) : result (list json) :=
  match l with
  | [] => Ok []
  | n :: l' =>
      let* m := as_dict n in
      let* rest := keep_other note_id l' in
      Ok (if py_ne_int (dict_get "id" m) note_id then n :: rest else rest)
  end.

Definition delete_note (note_id : Z) : M bool :=
  let! data := load_store in
  let! m := lift (as_dict data) in
  let! notes := lift (iter_json (default (JArr []) (dict_get "notes" m))) in
  let! new_notes := lift (keep_other note_id notes) in
  if (length new_notes =? length notes)%nat then ret false
  else
    let! _ := save_store (JObj (dict_set "notes" (JArr new_notes) m)) in
    ret true.

(** The test of the loop of [search_notes]; [or] and [any] stop at the
    first success. *)
Definition matches (q : string) (n : Note) : bool :=
  str_in q (str_lower (title n))
  || str_in q (str_lower (body n))
  || existsb (fun t => str_in q (str_lower t)) (tags n).

Fixpoint search_loop (q : string) (l : list Note) (result : list Note)
  : list Note :=
  match l with
  | [] => result
  | n :: l' =>
      search_loop q l' (if matches q n then result ++ [n] else result)
  end.

Definition search_notes (query : string) : M (list Note) :=
  let q := str_lower query in
  let! notes := list_notes in
  ret (search_loop q notes []).

(** *** Exporter *)

Definition md_section (n : Note) : string :=
  "# " +:+ title n +:+ " (id=" +:+ int_repr (id n) +:+ ")" +:+
  String c_nl "" +:+
  "_created: " +:+ created_at n +:+ "_" +:+ String c_nl (String c_nl "") +:+
  (match tags n with
   | [] => ""
   | _ => "**tags:** " +:+ join ", " (tags n) +:+
          String c_nl (String c_nl "")
   end) +:+
  body n +:+ String c_nl (String c_nl "") +:+ "---" +:+
  String c_nl (String c_nl "").

Fixpoint md_document (l : list Note) : string :=
  match l with
  | [] => ""
  | n :: l' => md_section n +:+ md_document l'
  end.

Definition export_notes (out : path) (fmt : string) : M path :=
  let! notes := list_notes in
  let text :=
    if String.eqb fmt "md" then md_document notes
    else dumps (JObj [("notes", JArr (map asdict notes))]) in
  let! _ := exec (write_text out text) in
  ret out.

(** *** Command interface: the [view] and [delete] sub-commands *)

Inductive args : Type :=
| NoCommand
| View (note_id : Z)
| Delete (note_id : Z).

(** [print(s)]. *)
Definition print (s : string) : string := s +:+ String c_nl "".

(** [main] returns the exit code together with the text printed. *)
Definition main (a : args) : M (Z * string) :=
  match a with
  | NoCommand => ret (1, print "No command provided. Use -h for help.")
  | View i =>
      let! n := find_note i in
      match n with
      | None => ret (1, print ("Note " +:+ int_repr i +:+ " not found"))
      | Some n =>
          ret (0, print (title n +:+ " (id=" +:+ int_repr (id n) +:+ ")" +:+
                         String c_nl "" +:+
                         "created: " +:+ created_at n +:+ String c_nl "" +:+
                         "tags: " +:+ join ", " (tags n) +:+
                         String c_nl (String c_nl "") +:+ body n))
      end
  | Delete i =>
      let! ok := delete_note i in
      ret (0, print (if (ok : bool) then "Deleted." else "Note not found."))
  end.

End SnapNotes.

(** *** Command interface: the [add] and [list] sub-commands *)

(** [s.split(',')]: the pieces between the commas, empty ones included. *)
Fixpoint split_comma (s : string) : list string :=
  match s with
  | EmptyString => [""]
  | String c r =>
      if Ascii.eqb c "," then "" :: split_comma r
      else
        match split_comma r with
        | x :: l => String c x :: l
        | [] => [String c ""]
        end
  end.

(** The branch [add] of [main].  [a_tags] is the value of the option
    [--tags], [None] when the option is absent; an absent or empty value
    gives no tag.  [a_body or ''] is [a_body], a [str] in every case. *)
Definition main_add (strip : string -> string) (now : datetime)
    (a_title a_body : string) (a_tags : option string) : M (Z * string) :=
  let tags :=
    match a_tags with
    | Some (String _ _ as s) => split_comma s
    | _ => []
    end in
  let! note := add_note strip now a_title
                 (match a_body with EmptyString => "" | _ => a_body end)
                 (Some tags) in
  ret (0, print ("Added note id=" +:+ int_repr (id note) +:+
                 " title=" +:+ title note)).

(** The lines the branch [list] prints, one call of [print] a note. *)
Fixpoint list_lines (l : list Note) : string :=
  match l with
  | [] => ""
  | n :: l' =>
      print ("[" +:+ int_repr (id n) +:+ "] " +:+ title n +:+
             " (" +:+ join ", " (tags n) +:+ ")") +:+ list_lines l'
  end.

(** The branch [list] of [main].  [tag] is the value of the option
    [--tags]; [tag in n.tags] compares the whole tag. *)
Definition main_list (tag : option string) : M (Z * string) :=
  let! notes := list_notes in
  let notes :=
    match tag with
    | Some (String _ _ as t) =>
        List.filter (fun n => existsb (String.eqb t) (tags n)) notes
    | _ => notes
    end in
  match notes with
  | [] => ret (0, print "No notes yet.")
  | _ => ret (0, list_lines notes)
  end.

(** ** Vocabulary of the specification *)

(** The state [save_store] leaves behind. *)
Definition saved (data : json) (f : gmap path string) : gmap path string :=
  <[NOTES_FILE := dumps data]> (delete tmp_file f).

(** The state [ensure_store] leaves behind. *)
Definition ensured (f : gmap path string) : gmap path string :=
  match f !! NOTES_FILE with
  | Some _ => f
  | None => <[NOTES_FILE := dumps initial_store]> f
  end.

(** The note [add_note] builds when the counter of the store is [i]. *)
Definition new_note (strip : string -> string) (now : datetime)
    (title body : string) (tags : option (list string)) (i : Z) : Note :=
  {| id := i;
     title := strip title;
     body := strip body;
     tags := strip_tags strip (default [] tags);
     created_at := isoformat now +:+ "Z" |}.

(** The dictionary [add_note] saves: the note at the end of ["notes"],
    the counter one above the id of the note. *)
Definition added (note : Note) (l : list json) (m : list (string * json))
  : list (string * json) :=
  dict_set "next_id" (JInt (id note + 1))
    (dict_set "notes" (JArr (l ++ [asdict note])) m).

(** An item the filter of [delete_note] keeps: a dictionary whose
    ["id"] differs from the id to delete. *)
Definition kept (i : Z) (j : json) : Prop :=
  exists m, j = JObj m /\ py_ne_int (dict_get "id" m) i = true.

(** [q] occurs in [s]: some text before it, some text after it. *)
Definition contains (q s : string) : Prop :=
  exists pre post, s = pre +:+ q +:+ post.

(** The matching rule of the search, in the words of the specification:
    the lowercased query occurs in the lowercased title, in the
    lowercased body, or in some lowercased tag. *)
Definition Matches (lower : string -> string) (query : string) (n : Note)
  : Prop :=
  contains (lower query) (lower (title n))
  \/ contains (lower query) (lower (body n))
  \/ exists t, t ∈ tags n /\ contains (lower query) (lower t).

(** A step that writes into the file [p] and touches nothing else. *)
Definition writes_to (p : path) (o : fs_op) : Prop :=
  match o with
  | Create q | Append q _ => q = p
  | Rename _ _ | Unlink _ => False
  end.

(** A text between two quotes. *)
Definition quoted (s : string) : string :=
  String c_quote (s +:+ String c_quote "").

(** A store file as somebody may write it by hand: the initial store on
    one line. *)
Definition compact_store : string :=
  "{" +:+ quoted "next_id" +:+ ": 1, " +:+ quoted "notes" +:+ ": []}".

(** The calls of a session, and their execution in order; the result is
    the list of the ids the calls of [add_note] returned. *)
Inductive call : Type :=
| Add (now : datetime) (title body : string) (tags : option (list string))
| Del (note_id : Z).

Fixpoint run (strip : string -> string) (calls : list call) : M (list Z) :=
  match calls with
  | [] => ret []
  | Add now t b g :: rest =>
      let! n := add_note strip now t b g in
      let! ids := run strip rest in
      ret (id n :: ids)
  | Del i :: rest =>
      let! _ := delete_note i in
      run strip rest
  end.

Fixpoint count_adds (calls : list call) : nat :=
  match calls with
  | [] => O
  | Add _ _ _ _ :: rest => S (count_adds rest)
  | Del _ :: rest => count_adds rest
  end.

(** The store holds well-typed notes with distinct ids between [1] and
    [k], and its counter is [k + 1]. *)
Definition store_inv (f : gmap path string) (k : Z) : Prop :=
  0 <= k /\
  exists m l ns,
    load_store f = (Ok (JObj m), f)
    /\ dict_get "next_id" m = Some (JInt (k + 1))
    /\ dict_get "notes" m = Some (JArr l)
    /\ notes_of_json l = Ok ns
    /\ Forall (fun n => 1 <= id n <= k) ns
    /\ NoDup (map id ns).

(** A value that is a dictionary. *)
Definition is_dict (j : json) : Prop := exists m, j = JObj m.

(** The character [c] occurs in [s]. *)
Definition has_char (c : ascii) (s : string) : Prop :=
  In c (list_ascii_of_string s).

(** The number of commas of a text. *)
Fixpoint count_commas (s : string) : nat :=
  match s with
  | EmptyString => O
  | String c r => if Ascii.eqb c "," then S (count_commas r)
                  else count_commas r
  end.

(** The notes the [list] sub-command shows for a value of [--tags]. *)
Definition shown (tag : option string) (ns : list Note) : list Note :=
  match tag with
  | None => ns
  | Some t => if decide (t = "") then ns
              else filter (fun n => t ∈ tags n) ns
  end.

(** The pieces the [add] sub-command hands to [add_note]. *)
Definition tag_pieces (a_tags : option string) : list string :=
  match a_tags with
  | None => []
  | Some s => if decide (s = "") then [] else split_comma s
  end.

(** ** Sample inputs *)

Definition sample_now : datetime :=
  {| year := 2024; month := 3; day := 7;
     hour := 9; minute := 5; second := 0; microsecond := 120 |}.

Definition milk : Note :=
  {| id := 1; title := "Buy milk"; body := "2%";
     tags := ["shopping"; "home"];
     created_at := "2024-03-07T09:05:00.000120Z" |}.

Definition dog : Note :=
  {| id := 2; title := "Walk dog"; body := ""; tags := [];
     created_at := "2024-03-07T09:05:00.000120Z" |}.

(** A note that reuses the id of [milk], as only an edit of the store
    file outside the program can produce. *)
Definition oat_milk : Note :=
  {| id := 1; title := "Buy oat milk"; body := ""; tags := ["shopping"];
     created_at := "2024-03-08T10:00:00Z" |}.

(** A file system that holds nothing but a store file with the given
    counter and notes, in the layout of [save_store]. *)
Definition store_file (next_id : Z) (notes : list Note) : gmap path string :=
  {[ NOTES_FILE :=
       dumps (JObj [("next_id", JInt next_id);
                    ("notes", JArr (map asdict notes))]) ]}.

Definition sample_fs : gmap path string := store_file 3 [milk; dog].

Definition duplicate_fs : gmap path string :=
  store_file 3 [milk; dog; oat_milk].

(** The sample store after the deletion of the note 1, as [delete_note]
    saves it. *)
Definition dog_store : json :=
  JObj [("next_id", JInt 3); ("notes", JArr [asdict dog])].

Definition sample_calls : list call :=
  [Add sample_now " Buy milk " "2%" (Some ["shopping"; " "; "home "]);
   Del 1;
   Add sample_now "Walk dog" "" None].

(** A file system whose store file holds the given text. *)
Definition raw_store (text : string) : gmap path string :=
  {[ NOTES_FILE := text ]}.

(** A store as an older or foreign tool may leave it: the notes without
    the counter. *)
Definition counterless : list (string * json) :=
  [("notes", JArr [asdict milk])].

Definition counterless_fs : gmap path string :=
  raw_store (dumps (JObj counterless)).

(** A store whose second record lacks four of the five fields. *)
Definition torn : list (string * json) :=
  [("next_id", JInt 3);
   ("notes", JArr [asdict milk; JObj [("id", JInt 2)]; asdict dog])].

Definition torn_fs : gmap path string := raw_store (dumps (JObj torn)).

(** A store whose list of notes holds a number. *)
Definition littered : list (string * json) :=
  [("next_id", JInt 3); ("notes", JArr [asdict milk; JInt 7])].

Definition littered_fs : gmap path string :=
  raw_store (dumps (JObj littered)).

(** The record of [dog], and the same record with its first two keys
    exchanged. *)
Definition dog_fields : list (string * json) :=
  [("id", JInt 2); ("title", JStr "Walk dog"); ("body", JStr "");
   ("tags", JArr []);
   ("created_at", JStr "2024-03-07T09:05:00.000120Z")].

Definition dog_fields_swapped : list (string * json) :=
  [("title", JStr "Walk dog"); ("id", JInt 2); ("body", JStr "");
   ("tags", JArr []);
   ("created_at", JStr "2024-03-07T09:05:00.000120Z")].

(* ===================================================================== *)
(** * Part II: lemmas and theorems                                        *)
(* ===================================================================== *)

(** ** Strings *)

Lemma app_cons_s (x : ascii) (a b : string) :
  String x a +:+ b = String x (a +:+ b).
Proof. reflexivity. Qed.

Lemma app_nil_l_s (b : string) : "" +:+ b = b.
Proof. reflexivity. Qed.

Lemma app_assoc_s (a b c : string) : (a +:+ b) +:+ c = a +:+ (b +:+ c).
Proof.
  induction a as [|x a IH]; [reflexivity|].
  rewrite !app_cons_s. now f_equal.
Qed.

Lemma app_nil_r_s (a : string) : a +:+ "" = a.
Proof.
  induction a as [|x a IH]; [reflexivity|].
  rewrite app_cons_s. now f_equal.
Qed.

Lemma length_app_s (a b : string) :
  String.length (a +:+ b) = (String.length a + String.length b)%nat.
Proof.
  induction a as [|x a IH]; [reflexivity|].
  rewrite app_cons_s. cbn. now f_equal.
Qed.

Ltac norm_str :=
  repeat (rewrite app_cons_s || rewrite app_nil_l_s || rewrite app_assoc_s).

(** ** The string literal round trip *)

Lemma scanstring_escape_char (c : ascii) (t : string) :
  scanstring (escape_char c +:+ t)
  = let* (x, r) := scanstring t in Ok (String c x, r).
Proof.
  destruct c as [[] [] [] [] [] [] [] []]; reflexivity.
Qed.

Lemma scanstring_escape (s rest : string) :
  scanstring (escape s +:+ String c_quote rest) = Ok (s, rest).
Proof.
  induction s as [|c s IH]; [reflexivity|].
  cbn [escape]. rewrite app_assoc_s, scanstring_escape_char, IH.
  reflexivity.
Qed.

Lemma scan_once_encode_str (n : nat) (s rest : string) :
  scan_once (S n) (encode_str s +:+ rest) = Ok (JStr s, rest).
Proof.
  unfold encode_str. rewrite app_cons_s, app_assoc_s, app_cons_s, app_nil_l_s.
  cbn [scan_once]. change (Ascii.eqb c_quote c_quote) with true. cbn match.
  rewrite scanstring_escape. reflexivity.
Qed.

(** ** Integers *)

Lemma scan_uint_digits (d : Decimal.uint) (rest : string) :
  starts_with_digit rest = false ->
  scan_uint (NilEmpty.string_of_uint d +:+ rest) = (d, rest).
Proof.
  intros Hrest.
  induction d as [|d IH|d IH|d IH|d IH|d IH|d IH|d IH|d IH|d IH|d IH];
    cbn [NilEmpty.string_of_uint];
    rewrite ?app_cons_s, ?app_nil_l_s;
    try (cbn [scan_uint]; cbn; rewrite IH; reflexivity).
  destruct rest as [|c r]; [reflexivity|].
  cbn in Hrest. unfold is_digit in Hrest. cbn [scan_uint].
  destruct (digit_of_char c); [discriminate | reflexivity].
Qed.

Lemma nzhead_not_D0 (d d' : Decimal.uint) : Decimal.nzhead d <> Decimal.D0 d'.
Proof. induction d; cbn; try discriminate; assumption. Qed.

Lemma to_uint_unorm (n : N) : Decimal.unorm (N.to_uint n) = N.to_uint n.
Proof.
  rewrite <- (DecimalN.Unsigned.of_to n) at 2.
  now rewrite DecimalN.Unsigned.to_of.
Qed.

Lemma leading_zero_to_uint (n : N) : leading_zero (N.to_uint n) = false.
Proof.
  pose proof (to_uint_unorm n) as H.
  destruct (N.to_uint n) as [|d| | | | | | | | |]; try reflexivity.
  destruct d; try reflexivity; exfalso;
    unfold Decimal.unorm in H; cbn [Decimal.nzhead] in H;
    match type of H with
    | context [Decimal.nzhead ?x] =>
        pose proof (nzhead_not_D0 x) as Hnz; destruct (Decimal.nzhead x);
        try discriminate H; eapply Hnz; reflexivity
    | _ => discriminate H
    end.
Qed.

Lemma to_uint_nonnil (n : N) : N.to_uint n <> Decimal.Nil.
Proof.
  destruct n as [|p]; [discriminate|].
  apply DecimalPos.Unsigned.to_uint_nonnil.
Qed.

(** The decimal text of a number starts with a digit. *)
Lemma dec_of_N_head (n : N) :
  exists c t, dec_of_N n = String c t /\ is_digit c = true.
Proof.
  unfold dec_of_N. pose proof (to_uint_nonnil n) as H.
  destruct (N.to_uint n); try congruence; cbn; eauto.
Qed.

Lemma terminated_no_number (rest : string) :
  terminated rest -> starts_with_digit rest = false /\ float_tail rest = false.
Proof.
  destruct rest as [|c r]; [now split|].
  intros [-> | ->]; now split.
Qed.

Lemma scan_atom_int (z : Z) (rest : string) :
  terminated rest ->
  scan_atom (int_repr z +:+ rest) = Ok (JInt z, rest).
Proof.
  intros Hrest.
  destruct (terminated_no_number _ Hrest) as [Hd Hf].
  assert (Hpos : forall n, scan_atom (dec_of_N n +:+ rest)
                           = Ok (JInt (Z.of_N n), rest)).
  { intros n. destruct (dec_of_N_head n) as (c & t & Hc & Hdig).
    pose proof (scan_uint_digits (N.to_uint n) rest Hd) as Hscan.
    fold (dec_of_N n) in Hscan.
    unfold scan_atom, scan_number. rewrite Hc in *. rewrite app_cons_s in *.
    unfold is_digit in Hdig.
    assert (Hnull : strip_prefix "null" (String c (t +:+ rest)) = None).
    { destruct c as [[] [] [] [] [] [] [] []]; try reflexivity; discriminate. }
    assert (Htrue : strip_prefix "true" (String c (t +:+ rest)) = None).
    { destruct c as [[] [] [] [] [] [] [] []]; try reflexivity; discriminate. }
    assert (Hfalse : strip_prefix "false" (String c (t +:+ rest)) = None).
    { destruct c as [[] [] [] [] [] [] [] []]; try reflexivity; discriminate. }
    rewrite Hnull, Htrue, Hfalse.
    assert (Hminus : Ascii.eqb c "-" = false).
    { destruct c as [[] [] [] [] [] [] [] []]; try reflexivity; discriminate. }
    rewrite Hminus, Hscan.
    pose proof (to_uint_nonnil n) as Hnn.
    pose proof (leading_zero_to_uint n) as Hlz.
    destruct (N.to_uint n) eqn:E; try congruence;
      rewrite Hlz, Hf; rewrite <- E, DecimalN.Unsigned.of_to; reflexivity. }
  destruct z as [|p|p].
  - apply (Hpos 0%N).
  - apply (Hpos (Npos p)).
  - cbn [int_repr]. rewrite app_cons_s.
    pose proof (scan_uint_digits (N.to_uint (Npos p)) rest Hd) as Hscan.
    fold (dec_of_N (Npos p)) in Hscan.
    unfold scan_atom, scan_number.
    change (strip_prefix "null" (String "-" ?x)) with (@None string).
    change (strip_prefix "true" (String "-" ?x)) with (@None string).
    change (strip_prefix "false" (String "-" ?x)) with (@None string).
    change (Ascii.eqb "-" "-") with true. cbn match. rewrite Hscan.
    pose proof (to_uint_nonnil (Npos p)) as Hnn.
    pose proof (leading_zero_to_uint (Npos p)) as Hlz.
    destruct (N.to_uint (Npos p)) eqn:E; try congruence;
      rewrite Hlz, Hf; rewrite <- E, DecimalN.Unsigned.of_to; reflexivity.
Qed.

(* lemmas *)
Lemma json_ind (P : json -> Prop) :
  P JNull -> (forall b, P (JBool b)) -> (forall z, P (JInt z)) ->
  (forall s, P (JStr s)) ->
  (forall l, Forall P l -> P (JArr l)) ->
  (forall m, Forall (fun kv => P (snd kv)) m -> P (JObj m)) ->
  forall j, P j.
Proof.
  intros Hn Hb Hi Hs Ha Ho.
  fix IH 1. intros [| b | z | s | l | m].
  - exact Hn.
  - apply Hb.
  - apply Hi.
  - apply Hs.
  - apply Ha. induction l as [|x l IHl]; constructor; [apply IH | exact IHl].
  - apply Ho. induction m as [|[k v] m IHm]; constructor;
      [apply IH | exact IHm].
Qed.

Lemma encode_arr_cons lvl x xs :
  encode lvl (JArr (x :: xs))
  = "[" +:+ newline_indent (S lvl) +:+ encode (S lvl) x +:+ encode_items lvl xs.
Proof. reflexivity. Qed.

Lemma encode_obj_cons lvl k v ps :
  encode lvl (JObj ((k, v) :: ps))
  = "{" +:+ newline_indent (S lvl) +:+ encode_str k +:+ ": " +:+
    encode (S lvl) v +:+ encode_members lvl ps.
Proof. reflexivity. Qed.

Lemma skip_ws_spaces (n : nat) (s : string) :
  skip_ws (String.string_of_list_ascii (replicate n c_space) +:+ s) = skip_ws s.
Proof. induction n as [|n IH]; [reflexivity | exact IH]. Qed.

Lemma skip_ws_newline_indent (lvl : nat) (s : string) :
  skip_ws (newline_indent lvl +:+ s) = skip_ws s.
Proof. unfold newline_indent. rewrite app_cons_s. apply skip_ws_spaces. Qed.

Lemma skip_ws_head (c : ascii) (s : string) :
  is_ws c = false -> skip_ws (String c s) = String c s.
Proof. intros H. cbn [skip_ws]. now rewrite H. Qed.

Lemma digit_head (c : ascii) :
  is_digit c = true ->
  is_ws c = false /\ Ascii.eqb c "]" = false /\ Ascii.eqb c c_quote = false
  /\ Ascii.eqb c "{" = false /\ Ascii.eqb c "[" = false.
Proof.
  unfold is_digit.
  destruct c as [[] [] [] [] [] [] [] []]; cbn; intros; try discriminate; auto.
Qed.

(** The first character of an encoded value is neither whitespace nor
    a closing bracket. *)
Lemma encode_head (lvl : nat) (j : json) :
  exists c t, encode lvl j = String c t
              /\ is_ws c = false /\ Ascii.eqb c "]" = false.
Proof.
  destruct j as [| [] | z | s | [|x xs] | [|[k v] ps]];
    try (do 2 eexists; split; [reflexivity | split; reflexivity]).
  destruct z as [|p|p]; cbn [encode int_repr Z.to_N].
  - destruct (dec_of_N_head 0) as (c & t & -> & Hd). exists c, t.
    split; [reflexivity|]. destruct (digit_head c Hd) as (?&?&?); auto.
  - destruct (dec_of_N_head (Npos p)) as (c & t & -> & Hd).
    exists c, t. split; [reflexivity|].
    destruct (digit_head c Hd) as (?&?&?); auto.
  - do 2 eexists; split; [reflexivity | split; reflexivity].
Qed.

Lemma skip_ws_encode (lvl : nat) (j : json) (s : string) :
  skip_ws (encode lvl j +:+ s) = encode lvl j +:+ s.
Proof.
  destruct (encode_head lvl j) as (c & t & -> & Hws & _).
  rewrite app_cons_s. now apply skip_ws_head.
Qed.

Lemma terminated_items lvl xs rest : terminated (encode_items lvl xs +:+ rest).
Proof.
  destruct xs; cbn [encode_items]; unfold newline_indent;
    rewrite !app_cons_s; cbn [terminated]; auto.
Qed.

Lemma terminated_members lvl ps rest :
  terminated (encode_members lvl ps +:+ rest).
Proof.
  destruct ps as [|[k v] ps]; cbn [encode_members]; unfold newline_indent;
    rewrite !app_cons_s; cbn [terminated]; auto.
Qed.

Lemma scan_once_atom (n : nat) (s : string) c t :
  s = String c t ->
  Ascii.eqb c c_quote = false -> Ascii.eqb c "{" = false ->
  Ascii.eqb c "[" = false ->
  scan_once (S n) s = scan_atom s.
Proof. intros -> H1 H2 H3. cbn [scan_once]. now rewrite H1, H2, H3. Qed.

Lemma scan_items_eq (n : nat) (s : string) :
  scan_items (S n) s =
  let* (v, r) := scan_once n s in
  match skip_ws r with
  | EmptyString => Raise JSONDecodeError
  | String c r1 =>
      if Ascii.eqb c "]" then Ok ([v], r1)
      else if Ascii.eqb c "," then
        let* (vs, r2) := scan_items n (skip_ws r1) in Ok (v :: vs, r2)
      else Raise JSONDecodeError
  end.
Proof. reflexivity. Qed.

Lemma scan_members_eq (n : nat) (s : string) :
  scan_members (S n) s =
  let* (k, r) := scanstring s in
  match skip_ws r with
  | EmptyString => Raise JSONDecodeError
  | String c r1 =>
      if Ascii.eqb c ":" then
        let* (v, r2) := scan_once n (skip_ws r1) in
        match skip_ws r2 with
        | EmptyString => Raise JSONDecodeError
        | String c2 r3 =>
            if Ascii.eqb c2 "}" then Ok ([(k, v)], r3)
            else if Ascii.eqb c2 "," then
              match skip_ws r3 with
              | EmptyString => Raise JSONDecodeError
              | String c3 r4 =>
                  if Ascii.eqb c3 c_quote then
                    let* (ps, r5) := scan_members n r4 in
                    Ok ((k, v) :: ps, r5)
                  else Raise JSONDecodeError
              end
            else Raise JSONDecodeError
        end
      else Raise JSONDecodeError
  end.
Proof. reflexivity. Qed.

Lemma scan_items_encode (lvl : nat) (xs : list json) :
  Forall (fun j => forall lvl rest fuel,
            (json_size j < fuel)%nat -> terminated rest ->
            scan_once fuel (encode lvl j +:+ rest) = Ok (j, rest)) xs ->
  forall x rest fuel,
    (forall lvl rest fuel,
        (json_size x < fuel)%nat -> terminated rest ->
        scan_once fuel (encode lvl x +:+ rest) = Ok (x, rest)) ->
    (list_sum (map (fun y => S (json_size y)) (x :: xs)) < fuel)%nat ->
    scan_items fuel (encode (S lvl) x +:+ encode_items lvl xs +:+ rest)
    = Ok (x :: xs, rest).
Proof.
  induction 1 as [|y ys Hy Hys IH]; intros x rest fuel Hx Hfuel;
    simpl in Hfuel.
  - destruct fuel as [|n]; [lia|]. rewrite scan_items_eq.
    rewrite Hx; [|lia|apply terminated_items]. cbn [rbind].
    cbn [encode_items]. rewrite app_assoc_s, skip_ws_newline_indent.
    reflexivity.
  - destruct fuel as [|n]; [lia|]. rewrite scan_items_eq.
    rewrite Hx; [|lia|apply terminated_items]. cbn [rbind].
    cbn [encode_items]. fold (encode_items lvl).
    rewrite !app_assoc_s, app_cons_s, app_nil_l_s.
    rewrite skip_ws_head by reflexivity.
    change (Ascii.eqb "," "]") with false.
    change (Ascii.eqb "," ",") with true. cbn match.
    rewrite skip_ws_newline_indent, skip_ws_encode.
    rewrite <- app_assoc_s. rewrite app_assoc_s.
    rewrite (IH y rest n Hy); [reflexivity|]. simpl. lia.
Qed.

Lemma scan_members_encode (lvl : nat) (ps : list (string * json)) :
  Forall (fun kv => forall lvl rest fuel,
            (json_size (snd kv) < fuel)%nat -> terminated rest ->
            scan_once fuel (encode lvl (snd kv) +:+ rest)
            = Ok (snd kv, rest)) ps ->
  forall k v rest fuel,
    (forall lvl rest fuel,
        (json_size v < fuel)%nat -> terminated rest ->
        scan_once fuel (encode lvl v +:+ rest) = Ok (v, rest)) ->
    (list_sum (map (fun kv => S (json_size (snd kv))) ((k, v) :: ps))
     < fuel)%nat ->
    scan_members fuel
      (escape k +:+
       String c_quote (String ":" (String " "
         (encode (S lvl) v +:+ encode_members lvl ps +:+ rest))))
    = Ok ((k, v) :: ps, rest).
Proof.
  induction 1 as [|[k' v'] ys Hy Hys IH]; intros k v rest fuel Hv Hfuel;
    simpl in Hfuel;
    (destruct fuel as [|n]; [lia|]); rewrite scan_members_eq;
    rewrite scanstring_escape; cbn [rbind];
    rewrite skip_ws_head by reflexivity;
    change (Ascii.eqb ":" ":") with true; cbn match;
    change (skip_ws (String " " ?s)) with (skip_ws s);
    rewrite skip_ws_encode;
    (rewrite Hv; [|lia|apply terminated_members]); cbn [rbind];
    cbn [encode_members].
  - rewrite app_assoc_s, skip_ws_newline_indent. reflexivity.
  - fold (encode_members lvl). unfold encode_str. norm_str.
    rewrite skip_ws_head by reflexivity.
    change (Ascii.eqb "," "}") with false.
    change (Ascii.eqb "," ",") with true. cbn match.
    rewrite skip_ws_newline_indent.
    rewrite skip_ws_head by reflexivity.
    change (Ascii.eqb c_quote c_quote) with true. cbn match.
    cbn [snd] in Hy.
    rewrite (IH k' v' rest n Hy); [reflexivity|]. simpl. lia.
Qed.

Lemma dict_set_fresh k v (m : list (string * json)) :
  k ∉ map fst m -> dict_set k v m = m ++ [(k, v)].
Proof.
  induction m as [|[k' v'] m IH]; intros Hk; [reflexivity|].
  cbn [dict_set]. cbn in Hk. apply not_elem_of_cons in Hk as [Hne Hk].
  destruct (String.eqb_spec k k') as [->|_]; [congruence|].
  cbn. now rewrite IH.
Qed.

Lemma dict_of_pairs_acc (ps acc : list (string * json)) :
  NoDup (map fst (acc ++ ps)) ->
  fold_left (fun m kv => dict_set (fst kv) (snd kv) m) ps acc = acc ++ ps.
Proof.
  revert acc. induction ps as [|[k v] ps IH]; intros acc Hnd.
  - now rewrite app_nil_r.
  - cbn [fold_left fst snd]. rewrite dict_set_fresh.
    + rewrite IH; rewrite <- app_assoc; [reflexivity | exact Hnd].
    + rewrite map_app in Hnd. apply NoDup_app in Hnd as (_ & Hd & _).
      intros Hin. apply (Hd k Hin). cbn. left.
Qed.

Lemma dict_of_pairs_nodup (ps : list (string * json)) :
  NoDup (map fst ps) -> dict_of_pairs ps = ps.
Proof. intros H. unfold dict_of_pairs. now rewrite dict_of_pairs_acc. Qed.

(** Decoding inverts encoding, at any nesting level and before any
    terminated remainder. *)
Lemma scan_once_encode (j : json) :
  wf_json j ->
  forall lvl rest fuel,
    (json_size j < fuel)%nat -> terminated rest ->
    scan_once fuel (encode lvl j +:+ rest) = Ok (j, rest).
Proof.
  induction j as [| b | z | s | l IH | m IH] using json_ind;
    intros Hwf lvl rest fuel Hfuel Hrest;
    (destruct fuel as [|n]; [cbn in Hfuel; lia|]).
  - reflexivity.
  - destruct b; reflexivity.
  - destruct (encode_head lvl (JInt z)) as (c & t & Hc & Hws & Hbr).
    cbn [encode] in *.
    assert (Hd : Ascii.eqb c c_quote = false /\ Ascii.eqb c "{" = false
                 /\ Ascii.eqb c "[" = false).
    { destruct z as [|p|p]; cbn [int_repr Z.to_N] in Hc.
      - destruct (dec_of_N_head 0) as (c' & t' & E & Hd). rewrite E in Hc.
        injection Hc as <- <-. destruct (digit_head c' Hd) as (?&?&?&?&?); auto.
      - destruct (dec_of_N_head (Npos p)) as (c' & t' & E & Hd).
        rewrite E in Hc.
        injection Hc as <- <-. destruct (digit_head c' Hd) as (?&?&?&?&?); auto.
      - injection Hc as <- <-. auto. }
    destruct Hd as (H1 & H2 & H3).
    rewrite (scan_once_atom n _ c (t +:+ rest)); auto.
    + now apply scan_atom_int.
    + now rewrite Hc.
  - apply scan_once_encode_str.
  - inversion Hwf as [| | | | l' Hl |]; subst.
    destruct l as [|x xs]; [reflexivity|].
    rewrite encode_arr_cons. norm_str.
    cbn [scan_once]. change (Ascii.eqb "[" c_quote) with false.
    change (Ascii.eqb "[" "{") with false.
    change (Ascii.eqb "[" "[") with true. cbn match.
    rewrite skip_ws_newline_indent, skip_ws_encode.
    destruct (encode_head (S lvl) x) as (c & t & Hc & Hws & Hbr).
    rewrite Hc, app_cons_s, Hbr. rewrite <- app_cons_s, <- Hc.
    inversion IH as [|? ? IHx IHxs]; subst.
    inversion Hl as [|? ? Hx Hxs]; subst.
    rewrite (scan_items_encode lvl xs).
    + reflexivity.
    + clear - IHxs Hxs. induction IHxs as [|y ys Hy Hys IH]; constructor.
      * inversion Hxs; subst. intros. now apply Hy.
      * inversion Hxs; subst. now apply IH.
    + intros. now apply IHx.
    + simpl in Hfuel. simpl. lia.
  - inversion Hwf as [| | | | | m' Hnd Hm]; subst.
    destruct m as [|[k v] ps]; [reflexivity|].
    rewrite encode_obj_cons. unfold encode_str. norm_str.
    cbn [scan_once]. change (Ascii.eqb "{" c_quote) with false.
    change (Ascii.eqb "{" "{") with true. cbn match.
    rewrite skip_ws_newline_indent.
    rewrite skip_ws_head by reflexivity.
    change (Ascii.eqb c_quote "}") with false.
    change (Ascii.eqb c_quote c_quote) with true. cbn match.
    inversion IH as [|? ? IHv IHps]; subst. cbn [snd] in IHv.
    inversion Hm as [|? ? Hv Hps]; subst. cbn [snd] in Hv.
    rewrite (scan_members_encode lvl ps).
    + cbn [rbind]. now rewrite dict_of_pairs_nodup.
    + clear - IHps Hps. induction IHps as [|y ys Hy Hys IH]; constructor.
      * inversion Hps; subst. intros. now apply Hy.
      * inversion Hps; subst. now apply IH.
    + intros. now apply IHv.
    + simpl in Hfuel. simpl. lia.
Qed.

Lemma dec_of_N_length (n : N) : (1 <= String.length (dec_of_N n))%nat.
Proof. destruct (dec_of_N_head n) as (c & t & -> & _). cbn. lia. Qed.

Lemma json_size_le_length (j : json) :
  forall lvl, (json_size j <= String.length (encode lvl j))%nat.
Proof.
  induction j as [| b | z | s | l IH | m IH] using json_ind; intros lvl.
  - cbn. lia.
  - destruct b; cbn; lia.
  - cbn [json_size encode]. destruct z; cbn [int_repr Z.to_N].
    + apply dec_of_N_length.
    + apply dec_of_N_length.
    + cbn [String.length]. pose proof (dec_of_N_length (Npos p)). lia.
  - cbn. lia.
  - destruct l as [|x xs]; [cbn; lia|].
    rewrite encode_arr_cons. inversion IH as [|? ? IHx IHxs]; subst.
    rewrite !length_app_s. cbn [String.length].
    assert (Hxs : (list_sum (map (fun y => S (json_size y)) xs)
                   <= String.length (encode_items lvl xs))%nat).
    { clear - IHxs. induction IHxs as [|y ys Hy Hys IH].
      - cbn. lia.
      - cbn [encode_items]. fold (encode_items lvl).
        rewrite !length_app_s. simpl. specialize (Hy (S lvl)). lia. }
    specialize (IHx (S lvl)). simpl. lia.
  - destruct m as [|[k v] ps]; [cbn; lia|].
    rewrite encode_obj_cons. inversion IH as [|? ? IHv IHps]; subst.
    rewrite !length_app_s. cbn [String.length].
    assert (Hps : (list_sum (map (fun kv => S (json_size (snd kv))) ps)
                   <= String.length (encode_members lvl ps))%nat).
    { clear - IHps. induction IHps as [|[k' v'] ys Hy Hys IH].
      - cbn. lia.
      - cbn [encode_members]. fold (encode_members lvl).
        rewrite !length_app_s. simpl. specialize (Hy (S lvl)). cbn in Hy. lia. }
    specialize (IHv (S lvl)). cbn in IHv. simpl. lia.
Qed.

(** [json.loads(json.dumps(v))] is [v]. *)
Lemma loads_dumps (j : json) : wf_json j -> loads (dumps j) = Ok j.
Proof.
  intros Hwf. unfold loads, dumps.
  rewrite <- (app_nil_r_s (encode 0 j)) at 2.
  rewrite skip_ws_encode, scan_once_encode; auto.
  - pose proof (json_size_le_length j 0). lia.
  - exact I.
Qed.

(** ** Decoded values are well formed *)

Lemma dict_set_keys k v (m : list (string * json)) :
  forall k', k' ∈ map fst (dict_set k v m) -> k' = k \/ k' ∈ map fst m.
Proof.
  induction m as [|[k1 v1] m IH]; intros k' Hin; cbn in *.
  - apply list_elem_of_singleton in Hin. auto.
  - destruct (String.eqb_spec k k1) as [->|Hne]; cbn in Hin.
    + apply elem_of_cons in Hin as [->|Hin]; [auto|].
      right. now apply elem_of_cons; right.
    + apply elem_of_cons in Hin as [->|Hin].
      * right. apply elem_of_cons; now left.
      * destruct (IH _ Hin) as [->|H]; [auto|].
        right. apply elem_of_cons; now right.
Qed.

Lemma dict_set_nodup k v (m : list (string * json)) :
  NoDup (map fst m) -> NoDup (map fst (dict_set k v m)).
Proof.
  induction m as [|[k1 v1] m IH]; intros Hnd; cbn in *.
  - constructor; [apply not_elem_of_nil | constructor].
  - apply NoDup_cons in Hnd as [Hk1 Hnd].
    destruct (String.eqb_spec k k1) as [->|Hne]; cbn.
    + now apply NoDup_cons.
    + apply NoDup_cons. split; [|now apply IH].
      intros Hin. destruct (dict_set_keys _ _ _ _ Hin) as [->|H]; auto.
Qed.

Lemma dict_set_forall (P : json -> Prop) k v (m : list (string * json)) :
  P v -> Forall (fun kv => P (snd kv)) m ->
  Forall (fun kv => P (snd kv)) (dict_set k v m).
Proof.
  intros Hv. induction 1 as [|[k1 v1] m H1 Hm IH]; cbn.
  - now repeat constructor.
  - destruct (String.eqb k k1); constructor; auto.
Qed.

Lemma dict_of_pairs_wf (P : json -> Prop) (ps : list (string * json)) :
  Forall (fun kv => P (snd kv)) ps ->
  NoDup (map fst (dict_of_pairs ps))
  /\ Forall (fun kv => P (snd kv)) (dict_of_pairs ps).
Proof.
  unfold dict_of_pairs.
  assert (H : forall acc,
             NoDup (map fst acc) -> Forall (fun kv => P (snd kv)) acc ->
             Forall (fun kv => P (snd kv)) ps ->
             NoDup (map fst (fold_left
                      (fun m kv => dict_set (fst kv) (snd kv) m) ps acc))
             /\ Forall (fun kv => P (snd kv))
                  (fold_left (fun m kv => dict_set (fst kv) (snd kv) m) ps acc)).
  { induction ps as [|[k v] ps IH]; intros acc Hnd Hacc Hps; [now split|].
    inversion Hps; subst. cbn [fold_left fst snd]. apply IH; auto.
    - now apply dict_set_nodup.
    - now apply dict_set_forall. }
  intros Hps. apply H; auto; constructor.
Qed.

Lemma rbind_ok {A B} (r : result A) (k : A -> result B) (b : B) :
  rbind r k = Ok b -> exists a, r = Ok a /\ k a = Ok b.
Proof. destruct r; cbn; intros H; try discriminate; eauto. Qed.

Lemma scan_atom_wf s v r : scan_atom s = Ok (v, r) -> wf_json v.
Proof.
  unfold scan_atom, scan_number.
  repeat match goal with
         | |- context [match ?x with _ => _ end] => destruct x
         end; intros H; inversion H; constructor.
Qed.

Lemma scan_wf (fuel : nat) :
  (forall s v r, scan_once fuel s = Ok (v, r) -> wf_json v)
  /\ (forall s vs r, scan_items fuel s = Ok (vs, r) -> Forall wf_json vs)
  /\ (forall s ps r, scan_members fuel s = Ok (ps, r) ->
                     Forall (fun kv => wf_json (snd kv)) ps).
Proof.
  induction fuel as [|n (IHo & IHi & IHm)];
    [repeat split; intros; discriminate|].
  repeat split.
  - intros s v r. cbn [scan_once]. destruct s as [|c s]; [discriminate|].
    destruct (Ascii.eqb c c_quote).
    { intros H. apply rbind_ok in H as ([t r1] & _ & H). inversion H.
      constructor. }
    destruct (Ascii.eqb c "{").
    { destruct (skip_ws s) as [|c1 r1]; [discriminate|].
      destruct (Ascii.eqb c1 "}").
      { intros H; inversion H. constructor; constructor. }
      destruct (Ascii.eqb c1 c_quote); [|discriminate].
      intros H. apply rbind_ok in H as ([ps r2] & Hps & H). inversion H; subst.
      apply IHm in Hps.
      destruct (dict_of_pairs_wf wf_json ps Hps). now constructor. }
    destruct (Ascii.eqb c "[").
    { destruct (skip_ws s) as [|c1 r1]; [discriminate|].
      destruct (Ascii.eqb c1 "]").
      { intros H; inversion H. constructor; constructor. }
      intros H. apply rbind_ok in H as ([vs r2] & Hvs & H). inversion H; subst.
      constructor. eapply IHi; eauto. }
    apply scan_atom_wf.
  - intros s vs r. rewrite scan_items_eq. intros H.
    apply rbind_ok in H as ([v r1] & Hv & H). apply IHo in Hv.
    destruct (skip_ws r1) as [|c r2]; [discriminate|].
    destruct (Ascii.eqb c "]"); [inversion H; subst; now repeat constructor|].
    destruct (Ascii.eqb c ","); [|discriminate].
    apply rbind_ok in H as ([vs' r3] & Hvs & H). inversion H; subst.
    constructor; [assumption | eapply IHi; eauto].
  - intros s ps r. rewrite scan_members_eq. intros H.
    apply rbind_ok in H as ([k r1] & _ & H).
    destruct (skip_ws r1) as [|c r2]; [discriminate|].
    destruct (Ascii.eqb c ":"); [|discriminate].
    apply rbind_ok in H as ([v r3] & Hv & H). apply IHo in Hv.
    destruct (skip_ws r3) as [|c2 r4]; [discriminate|].
    destruct (Ascii.eqb c2 "}"); [inversion H; subst; now repeat constructor|].
    destruct (Ascii.eqb c2 ","); [|discriminate].
    destruct (skip_ws r4) as [|c3 r5]; [discriminate|].
    destruct (Ascii.eqb c3 c_quote); [|discriminate].
    apply rbind_ok in H as ([ps' r6] & Hps & H). inversion H; subst.
    constructor; [assumption | eapply IHm; eauto].
Qed.

(** Whatever [json.loads] returns has dictionaries with distinct keys. *)
Lemma loads_wf (s : string) (j : json) : loads s = Ok j -> wf_json j.
Proof.
  unfold loads. intros H. apply rbind_ok in H as ([v r] & Hv & H).
  destruct (skip_ws r); [|discriminate]. inversion H; subst.
  eapply (proj1 (scan_wf _)); eauto.
Qed.

Section DecoderFuel.

Local Open Scope nat_scope.

(** ** The fuel of the decoder is never exhausted *)

Lemma skip_ws_length (s : string) :
  String.length (skip_ws s) <= String.length s.
Proof.
  induction s as [|c s IH]; cbn [skip_ws]; [lia|].
  destruct (is_ws c); cbn [String.length]; lia.
Qed.

Lemma skip_ws_cons_length (s r : string) (c : ascii) :
  skip_ws s = String c r -> String.length r < String.length s.
Proof.
  intros H. pose proof (skip_ws_length s) as Hle. rewrite H in Hle.
  cbn [String.length] in Hle. lia.
Qed.

Lemma scanstring_length_bounded (n : nat) :
  forall s t r,
    String.length s <= n -> scanstring s = Ok (t, r) ->
    String.length r < String.length s.
Proof.
  induction n as [|n IH]; intros s t r Hle;
    (destruct s as [|c s]; [discriminate|]); cbn [String.length] in Hle;
    [lia|].
  cbn [scanstring].
  assert (Hrec : forall s' k,
             String.length s' <= String.length s ->
             (let* (t0, r') := scanstring s' in Ok (k t0, r')) = Ok (t, r) ->
             String.length r < String.length (String c s)).
  { intros s' k Hs' H. apply rbind_ok in H as ([t0 r'] & Hs & H).
    injection H as _ <-. apply IH in Hs; cbn [String.length] in *; lia. }
  clear IH.
  destruct (Ascii.eqb c c_quote).
  { intros [= _ <-]. cbn. lia. }
  destruct (Ascii.eqb c c_bslash).
  - destruct s as [|e r1]; [discriminate|].
    destruct (Ascii.eqb e "u").
    + destruct r1 as [|h1 [|h2 [|h3 [|h4 r5]]]]; try discriminate.
      destruct (hex4 h1 h2 h3 h4) as [x|]; [|discriminate].
      destruct (is_high_surrogate x).
      * destruct r5 as [|b [|u [|l1 [|l2 [|l3 [|l4 r11]]]]]]; try discriminate.
        destruct (_ && _); [|discriminate].
        destruct (hex4 l1 l2 l3 l4) as [y|]; [|discriminate].
        destruct (is_low_surrogate y); [|discriminate].
        apply Hrec. cbn [String.length]. lia.
      * destruct (is_low_surrogate x); [discriminate|].
        apply Hrec. cbn [String.length]. lia.
    + destruct (unescape e); [|discriminate].
      apply Hrec. cbn [String.length]. lia.
  - destruct (_ <? _)%N; [discriminate|]. apply Hrec. lia.
Qed.

Lemma scanstring_length (s t r : string) :
  scanstring s = Ok (t, r) -> String.length r < String.length s.
Proof. now apply (scanstring_length_bounded (String.length s)). Qed.

Lemma strip_prefix_length (p s r : string) :
  strip_prefix p s = Some r ->
  String.length s = String.length p + String.length r.
Proof.
  revert s. induction p as [|a p IH]; intros s; cbn [strip_prefix].
  - now intros [= ->].
  - destruct s as [|b s]; [discriminate|].
    destruct (Ascii.eqb a b); [|discriminate].
    intros H. apply IH in H. cbn [String.length]. lia.
Qed.

Lemma scan_uint_length (s : string) :
  String.length (snd (scan_uint s)) <= String.length s
  /\ (fst (scan_uint s) <> Decimal.Nil ->
      String.length (snd (scan_uint s)) < String.length s).
Proof.
  induction s as [|c s [IH1 IH2]]; cbn [scan_uint]; [cbn; split; [lia|congruence]|].
  destruct (digit_of_char c) as [D|]; [|cbn; split; [lia | congruence]].
  destruct (scan_uint s) as [d r]. cbn [fst snd String.length] in *.
  split; [lia | intros _; lia].
Qed.

Lemma scan_atom_length (s : string) (v : json) (r : string) :
  scan_atom s = Ok (v, r) -> String.length r < String.length s.
Proof.
  unfold scan_atom.
  destruct (strip_prefix "null" s) eqn:E1.
  { intros [= _ <-]. apply strip_prefix_length in E1. cbn in E1. lia. }
  destruct (strip_prefix "true" s) eqn:E2.
  { intros [= _ <-]. apply strip_prefix_length in E2. cbn in E2. lia. }
  destruct (strip_prefix "false" s) eqn:E3.
  { intros [= _ <-]. apply strip_prefix_length in E3. cbn in E3. lia. }
  unfold scan_number.
  set (p := match s with
            | String c r0 => if Ascii.eqb c "-" then (true, r0) else (false, s)
            | EmptyString => (false, s)
            end).
  assert (Hp : String.length (snd p) <= String.length s).
  { subst p. destruct s as [|c r0]; [cbn; lia|].
    destruct (Ascii.eqb c "-"); cbn; lia. }
  destruct p as [neg s1]. cbn [snd] in Hp.
  pose proof (scan_uint_length s1) as [_ Hlt].
  destruct (scan_uint s1) as [d r']. cbn [fst snd] in Hlt.
  destruct d;
    try (destruct (_ || _); discriminate);
    (destruct (leading_zero _); [discriminate|]);
    (destruct (float_tail r'); [discriminate|]);
    intros [= _ <-]; (assert (String.length r' < String.length s1)
                       by (apply Hlt; discriminate)); lia.
Qed.

(** A successful scan consumes at least one character. *)
Lemma scan_length (n : nat) :
  (forall s v r, scan_once n s = Ok (v, r) ->
                 String.length r < String.length s)
  /\ (forall s vs r, scan_items n s = Ok (vs, r) ->
                     String.length r < String.length s)
  /\ (forall s ps r, scan_members n s = Ok (ps, r) ->
                     String.length r < String.length s).
Proof.
  induction n as [|n (IHo & IHi & IHm)];
    [repeat split; intros; discriminate|].
  repeat split.
  - intros s v r. cbn [scan_once]. destruct s as [|c s]; [discriminate|].
    destruct (Ascii.eqb c c_quote).
    { intros H. apply rbind_ok in H as ([t r1] & Hs & H). injection H as _ <-.
      apply scanstring_length in Hs. cbn [String.length]. lia. }
    destruct (Ascii.eqb c "{").
    { destruct (skip_ws s) as [|c1 r1] eqn:Ews; [discriminate|].
      apply skip_ws_cons_length in Ews.
      destruct (Ascii.eqb c1 "}").
      { intros [= _ <-]. cbn [String.length]. lia. }
      destruct (Ascii.eqb c1 c_quote); [|discriminate].
      intros H. apply rbind_ok in H as ([ps r2] & Hps & H). injection H as _ <-.
      apply IHm in Hps. cbn [String.length]. lia. }
    destruct (Ascii.eqb c "[").
    { destruct (skip_ws s) as [|c1 r1] eqn:Ews; [discriminate|].
      pose proof (skip_ws_length s) as Hle. rewrite Ews in Hle.
      destruct (Ascii.eqb c1 "]").
      { intros [= _ <-]. cbn [String.length] in *. lia. }
      intros H. apply rbind_ok in H as ([vs r2] & Hvs & H). injection H as _ <-.
      apply IHi in Hvs. cbn [String.length] in *. lia. }
    apply scan_atom_length.
  - intros s vs r. rewrite scan_items_eq. intros H.
    apply rbind_ok in H as ([v r1] & Hv & H). apply IHo in Hv.
    destruct (skip_ws r1) as [|c r2] eqn:Ews; [discriminate|].
    apply skip_ws_cons_length in Ews.
    destruct (Ascii.eqb c "]"); [injection H as _ <-; lia|].
    destruct (Ascii.eqb c ","); [|discriminate].
    apply rbind_ok in H as ([vs' r3] & Hvs & H). injection H as _ <-.
    apply IHi in Hvs. pose proof (skip_ws_length r2). lia.
  - intros s ps r. rewrite scan_members_eq. intros H.
    apply rbind_ok in H as ([k r1] & Hk & H). apply scanstring_length in Hk.
    destruct (skip_ws r1) as [|c r2] eqn:Ews; [discriminate|].
    apply skip_ws_cons_length in Ews.
    destruct (Ascii.eqb c ":"); [|discriminate].
    apply rbind_ok in H as ([v r3] & Hv & H). apply IHo in Hv.
    pose proof (skip_ws_length r2).
    destruct (skip_ws r3) as [|c2 r4] eqn:Ews2; [discriminate|].
    apply skip_ws_cons_length in Ews2.
    destruct (Ascii.eqb c2 "}"); [injection H as _ <-; lia|].
    destruct (Ascii.eqb c2 ","); [|discriminate].
    destruct (skip_ws r4) as [|c3 r5] eqn:Ews3; [discriminate|].
    apply skip_ws_cons_length in Ews3.
    destruct (Ascii.eqb c3 c_quote); [|discriminate].
    apply rbind_ok in H as ([ps' r6] & Hps & H). injection H as _ <-.
    apply IHm in Hps. lia.
Qed.

(** Above two units for each character of the input, more fuel does not
    change the result of the decoder. *)
Lemma scan_fuel (n : nat) :
  (forall m s, 2 * String.length s + 1 <= n -> n <= m ->
               scan_once n s = scan_once m s)
  /\ (forall m s, 2 * String.length s + 2 <= n -> n <= m ->
                  scan_items n s = scan_items m s)
  /\ (forall m s, 2 * String.length s + 2 <= n -> n <= m ->
                  scan_members n s = scan_members m s).
Proof.
  induction n as [|n (IHo & IHi & IHm)]; [repeat split; intros; lia|].
  repeat split; intros m s Hn Hm; (destruct m as [|m]; [lia|]).
  - cbn [scan_once]. destruct s as [|c s]; [reflexivity|].
    cbn [String.length] in Hn.
    destruct (Ascii.eqb c c_quote); [reflexivity|].
    destruct (Ascii.eqb c "{").
    { destruct (skip_ws s) as [|c1 r1] eqn:Ews; [reflexivity|].
      apply skip_ws_cons_length in Ews.
      destruct (Ascii.eqb c1 "}"); [reflexivity|].
      destruct (Ascii.eqb c1 c_quote); [|reflexivity].
      rewrite (IHm m r1) by lia. reflexivity. }
    destruct (Ascii.eqb c "["); [|reflexivity].
    destruct (skip_ws s) as [|c1 r1] eqn:Ews; [reflexivity|].
    pose proof (skip_ws_length s) as Hle. rewrite Ews in Hle.
    destruct (Ascii.eqb c1 "]"); [reflexivity|].
    rewrite (IHi m (String c1 r1)) by lia. reflexivity.
  - rewrite !scan_items_eq. rewrite (IHo m s) by lia.
    destruct (scan_once m s) as [[v r]| |] eqn:E; [|reflexivity..].
    apply (proj1 (scan_length m)) in E. cbn [rbind].
    destruct (skip_ws r) as [|c r1] eqn:Ews; [reflexivity|].
    apply skip_ws_cons_length in Ews.
    destruct (Ascii.eqb c "]"); [reflexivity|].
    destruct (Ascii.eqb c ","); [|reflexivity].
    pose proof (skip_ws_length r1).
    rewrite (IHi m (skip_ws r1)) by lia. reflexivity.
  - rewrite !scan_members_eq.
    destruct (scanstring s) as [[k r]| |] eqn:E; [|reflexivity..].
    apply scanstring_length in E. cbn [rbind].
    destruct (skip_ws r) as [|c r1] eqn:Ews; [reflexivity|].
    apply skip_ws_cons_length in Ews.
    destruct (Ascii.eqb c ":"); [|reflexivity].
    pose proof (skip_ws_length r1).
    rewrite (IHo m (skip_ws r1)) by lia.
    destruct (scan_once m (skip_ws r1)) as [[v r2]| |] eqn:E2; [|reflexivity..].
    apply (proj1 (scan_length m)) in E2. cbn [rbind].
    destruct (skip_ws r2) as [|c2 r3] eqn:Ews2; [reflexivity|].
    apply skip_ws_cons_length in Ews2.
    destruct (Ascii.eqb c2 "}"); [reflexivity|].
    destruct (Ascii.eqb c2 ","); [|reflexivity].
    destruct (skip_ws r3) as [|c3 r4] eqn:Ews3; [reflexivity|].
    apply skip_ws_cons_length in Ews3.
    destruct (Ascii.eqb c3 c_quote); [|reflexivity].
    rewrite (IHm m r4) by lia. reflexivity.
Qed.

(** [loads] computes what the decoder computes with any larger fuel:
    its result does not depend on the bound. *)
Lemma loads_fuel (s : string) (m : nat) :
  2 * String.length s + 1 <= m ->
  loads s
  = let* (v, r) := scan_once m (skip_ws s) in
    match skip_ws r with
    | EmptyString => Ok v
    | String _ _ => Raise JSONDecodeError
    end.
Proof.
  intros Hm. unfold loads. pose proof (skip_ws_length s).
  rewrite (proj1 (scan_fuel _) m (skip_ws s)) by lia. reflexivity.
Qed.

End DecoderFuel.

(** ** Files *)

Lemma string_of_list_ascii_app (a b : list ascii) :
  String.string_of_list_ascii (a ++ b)
  = String.string_of_list_ascii a +:+ String.string_of_list_ascii b.
Proof.
  induction a as [|x a IH]; [reflexivity|].
  cbn [app String.string_of_list_ascii]. rewrite app_cons_s. now f_equal.
Qed.

Lemma run_ops_app (o1 o2 : list fs_op) (f : gmap path string) :
  run_ops (o1 ++ o2) f = run_ops o2 (run_ops o1 f).
Proof. unfold run_ops. apply foldl_app. Qed.

Lemma run_ops_cons (o : fs_op) (os : list fs_op) (f : gmap path string) :
  run_ops (o :: os) f = run_ops os (apply_op f o).
Proof. reflexivity. Qed.

Lemma run_appends (p : path) (cs : list ascii) (t : string)
    (f : gmap path string) :
  run_ops (map (Append p) cs) (<[p := t]> f)
  = <[p := t +:+ String.string_of_list_ascii cs]> f.
Proof.
  revert t. induction cs as [|c cs IH]; intros t.
  - cbn. now rewrite app_nil_r_s.
  - cbn [map]. rewrite run_ops_cons. cbn [apply_op].
    rewrite lookup_insert_eq, insert_insert_eq, IH. cbn [String.string_of_list_ascii].
    now rewrite app_assoc_s, app_cons_s, app_nil_l_s.
Qed.

(** Writing a text leaves exactly that text in the file. *)
Lemma run_write_text (p : path) (text : string) (f : gmap path string) :
  run_ops (write_text p text) f = <[p := text]> f.
Proof.
  unfold write_text. rewrite run_ops_cons. cbn [apply_op]. rewrite run_appends, app_nil_l_s.
  now rewrite String.string_of_list_ascii_of_string.
Qed.

Lemma tmp_file_eq : tmp_file = ["~"; ".snapnotes"; "notes.tmp"].
Proof. reflexivity. Qed.

Lemma tmp_file_ne : tmp_file <> NOTES_FILE.
Proof. discriminate. Qed.

Lemma save_store_eq (data : json) (f : gmap path string) :
  save_store data f = (Ok tt, saved data f).
Proof.
  unfold save_store, exec, save_store_ops, saved.
  rewrite run_ops_app, run_write_text, run_ops_cons.
  cbn [apply_op]. rewrite lookup_insert_eq. cbn [run_ops foldl].
  now rewrite delete_insert_eq.
Qed.

Lemma saved_lookup (data : json) (f : gmap path string) :
  saved data f !! NOTES_FILE = Some (dumps data).
Proof. unfold saved. apply lookup_insert_eq. Qed.

Lemma ensure_store_eq (f : gmap path string) :
  ensure_store f = (Ok tt, ensured f).
Proof.
  unfold ensure_store, bind, path_exists, ensured.
  destruct (f !! NOTES_FILE) as [t|] eqn:E.
  - rewrite bool_decide_true by eauto. reflexivity.
  - rewrite bool_decide_false by (intros [? ?]; discriminate).
    unfold exec. now rewrite run_write_text.
Qed.

Lemma ensured_present (f : gmap path string) (t : string) :
  f !! NOTES_FILE = Some t -> ensured f = f.
Proof. unfold ensured. now intros ->. Qed.

Lemma ensured_lookup (f : gmap path string) :
  ensured f !! NOTES_FILE
  = Some (default (dumps initial_store) (f !! NOTES_FILE)).
Proof.
  unfold ensured. destruct (f !! NOTES_FILE) eqn:E; cbn.
  - exact E.
  - apply lookup_insert_eq.
Qed.

Lemma ensured_idem (f : gmap path string) : ensured (ensured f) = ensured f.
Proof. eapply ensured_present, ensured_lookup. Qed.

Lemma load_store_eq (f : gmap path string) :
  load_store f
  = (loads (default (dumps initial_store) (f !! NOTES_FILE)), ensured f).
Proof.
  unfold load_store, bind. rewrite ensure_store_eq.
  unfold read_text. rewrite ensured_lookup. reflexivity.
Qed.

Lemma load_store_ensured (f : gmap path string) :
  load_store (ensured f) = load_store f.
Proof. rewrite !load_store_eq. now rewrite ensured_idem, ensured_lookup. Qed.

Lemma load_store_fs (f f1 : gmap path string) (r : result json) :
  load_store f = (r, f1) -> f1 = ensured f.
Proof. rewrite load_store_eq. now intros [= _ <-]. Qed.

(** Loading what was saved returns it, and touches no file. *)
Lemma load_store_saved (data : json) (f : gmap path string) :
  wf_json data -> load_store (saved data f) = (Ok data, saved data f).
Proof.
  intros Hwf. rewrite load_store_eq, saved_lookup. cbn [from_option].
  unfold Datatypes.id. rewrite loads_dumps by assumption.
  now rewrite (ensured_present _ _ (saved_lookup data f)).
Qed.

Lemma load_store_wf (f f1 : gmap path string) (data : json) :
  load_store f = (Ok data, f1) -> wf_json data.
Proof. rewrite load_store_eq. intros [= H _]. eapply loads_wf, H. Qed.

Lemma load_store_again (f f1 : gmap path string) (r : result json) :
  load_store f = (r, f1) -> load_store f1 = (r, f1).
Proof.
  rewrite load_store_eq. intros [= <- <-]. rewrite load_store_eq.
  now rewrite ensured_idem, ensured_lookup.
Qed.

(** ** The monad *)

Lemma bind_ok {A B} (m : M A) (k : A -> M B) f b f' :
  bind m k f = (Ok b, f') ->
  exists a f1, m f = (Ok a, f1) /\ k a f1 = (Ok b, f').
Proof.
  unfold bind. destruct (m f) as [[a| |] f1]; intros H; try discriminate.
  eauto.
Qed.

Lemma bind_eq {A B} (m : M A) (k : A -> M B) f a f1 :
  m f = (Ok a, f1) -> bind m k f = k a f1.
Proof. unfold bind. now intros ->. Qed.

Lemma lift_ok {A} (r : result A) f a f' :
  lift r f = (Ok a, f') -> r = Ok a /\ f' = f.
Proof. unfold lift. now intros [= -> ->]. Qed.

(** ** Dictionaries *)

Lemma dict_get_set_eq k v (m : list (string * json)) :
  dict_get k (dict_set k v m) = Some v.
Proof.
  induction m as [|[k1 v1] m IH]; cbn.
  - now rewrite String.eqb_refl.
  - destruct (String.eqb_spec k k1) as [->|Hne]; cbn.
    + now rewrite String.eqb_refl.
    + destruct (String.eqb_spec k k1); [congruence | exact IH].
Qed.

Lemma dict_get_set_ne k k' v (m : list (string * json)) :
  k' <> k -> dict_get k' (dict_set k v m) = dict_get k' m.
Proof.
  intros Hne. induction m as [|[k1 v1] m IH]; cbn.
  - destruct (String.eqb_spec k' k); [congruence | reflexivity].
  - destruct (String.eqb_spec k k1) as [->|Hk]; cbn.
    + destruct (String.eqb_spec k' k1); [congruence | reflexivity].
    + destruct (String.eqb_spec k' k1); [reflexivity | exact IH].
Qed.

Lemma dict_get_forall (P : json -> Prop) k v (m : list (string * json)) :
  Forall (fun kv => P (snd kv)) m -> dict_get k m = Some v -> P v.
Proof.
  induction 1 as [|[k1 v1] m H1 Hm IH]; cbn; [discriminate|].
  destruct (String.eqb k k1); [now intros [= <-] | exact IH].
Qed.

Lemma wf_dict_set k v (m : list (string * json)) :
  wf_json (JObj m) -> wf_json v -> wf_json (JObj (dict_set k v m)).
Proof.
  intros Hm Hv. inversion Hm; subst. constructor.
  - now apply dict_set_nodup.
  - now apply dict_set_forall.
Qed.

(** ** Notes and their dictionaries *)

Lemma as_str_list_map (l : list string) : as_str_list (map JStr l) = Ok l.
Proof. induction l as [|s l IH]; cbn; [reflexivity | now rewrite IH]. Qed.

Lemma note_of_json_asdict (n : Note) : note_of_json (asdict n) = Ok n.
Proof.
  destruct n as [i t b g c]. unfold asdict, note_of_json. cbn.
  rewrite as_str_list_map. reflexivity.
Qed.

Lemma wf_asdict (n : Note) : wf_json (asdict n).
Proof.
  unfold asdict. constructor.
  - cbn. compute_done.
  - repeat constructor. cbn.
    induction (tags n); constructor; [constructor | assumption].
Qed.

Lemma note_of_json_inv (j : json) (n : Note) :
  note_of_json j = Ok n ->
  exists m, j = JObj m /\ dict_get "id" m = Some (JInt (id n)).
Proof.
  destruct j as [| | | | |m]; try discriminate. cbn [note_of_json].
  destruct (_ && _); [|discriminate]. unfold field.
  destruct (dict_get "id" m) as [vi|] eqn:Eid; [|discriminate].
  destruct (dict_get "title" m) as [vt|]; [|discriminate].
  destruct (dict_get "body" m) as [vb|]; [|discriminate].
  destruct (dict_get "tags" m) as [vg|]; [|discriminate].
  destruct (dict_get "created_at" m) as [vc|]; [|discriminate].
  cbn [rbind].
  destruct vi; try discriminate. cbn [as_int rbind].
  destruct (as_str vt); try discriminate. cbn [rbind].
  destruct (as_str vb); try discriminate. cbn [rbind].
  destruct (as_tags vg); try discriminate. cbn [rbind].
  destruct (as_str vc); try discriminate. cbn [rbind].
  intros [= <-]. eauto.
Qed.

Lemma notes_of_json_app (l1 l2 : list json) (n1 n2 : list Note) :
  notes_of_json l1 = Ok n1 -> notes_of_json l2 = Ok n2 ->
  notes_of_json (l1 ++ l2) = Ok (n1 ++ n2).
Proof.
  revert n1. induction l1 as [|j l1 IH]; intros n1 H1 H2; cbn in *.
  - now injection H1 as <-.
  - apply rbind_ok in H1 as (x & Hx & H1).
    apply rbind_ok in H1 as (xs & Hxs & H1). injection H1 as <-.
    rewrite Hx. cbn. now rewrite (IH xs).
Qed.

Lemma notes_of_json_asdict (ns : list Note) :
  notes_of_json (map asdict ns) = Ok ns.
Proof.
  induction ns as [|n ns IH]; [reflexivity|].
  cbn [map notes_of_json]. rewrite note_of_json_asdict, IH. reflexivity.
Qed.

(** On a list of well-typed notes the filter of [delete_note] keeps the
    notes with another id. *)
Lemma keep_other_typed (i : Z) (l : list json) (ns : list Note) :
  notes_of_json l = Ok ns ->
  exists l',
    keep_other i l = Ok l'
    /\ notes_of_json l' = Ok (filter (fun n => id n <> i) ns)
    /\ length l' = length (filter (fun n => id n <> i) ns)
    /\ length l = length ns
    /\ (Forall wf_json l -> Forall wf_json l').
Proof.
  revert ns. induction l as [|j l IH]; intros ns H; cbn in H.
  - injection H as <-. exists []. repeat split; auto.
  - apply rbind_ok in H as (x & Hx & H).
    apply rbind_ok in H as (xs & Hxs & H). injection H as <-.
    destruct (IH xs Hxs) as (l' & Hk & Hn & Hlen & Hlen' & Hwf).
    destruct (note_of_json_inv j x Hx) as (m & -> & Hid).
    cbn [keep_other as_dict rbind]. rewrite Hk. cbn [rbind]. rewrite Hid.
    cbn [py_ne_int].
    destruct (Z.eqb_spec (id x) i) as [E|E]; cbn [negb].
    + exists l'. rewrite filter_cons_False by (intros ?; congruence).
      split; [reflexivity|]. split; [assumption|]. split; [assumption|].
      split; [cbn [length]; lia|].
      intros Hall. inversion Hall; auto.
    + exists (JObj m :: l'). rewrite filter_cons_True by assumption.
      split; [reflexivity|]. split; [|split; [|split]].
      * cbn [notes_of_json]. rewrite Hx, Hn. reflexivity.
      * cbn [length]. lia.
      * cbn [length]. lia.
      * intros Hall. inversion Hall; subst. constructor; auto.
Qed.

Lemma filter_length_all {A} (P : A -> Prop) `{Hdec : !forall x, Decision (P x)}
    (l : list A) :
  length (filter P l) = length l <-> Forall P l.
Proof.
  induction l as [|x l IH]; [split; [constructor | reflexivity]|].
  pose proof (length_filter P l) as Hle.
  destruct (decide (P x)) as [Hx|Hx].
  - rewrite filter_cons_True by assumption. cbn [length]. split.
    + intros Hl. constructor; [assumption|]. apply IH. lia.
    + intros Hl. inversion Hl; subst. f_equal. now apply IH.
  - rewrite filter_cons_False by assumption. cbn [length]. split.
    + intros Hl. lia.
    + intros Hl. inversion Hl; subst. contradiction.
Qed.

(** ** [list_notes] *)

Lemma list_notes_eq (f : gmap path string) :
  list_notes f =
  (let* data := loads (default (dumps initial_store) (f !! NOTES_FILE)) in
   let* m := as_dict data in
   let* items := iter_json (default (JArr []) (dict_get "notes" m)) in
   notes_of_json items,
   ensured f).
Proof.
  unfold list_notes, bind, lift. rewrite load_store_eq.
  destruct (loads _) as [data| |]; try reflexivity. cbn [rbind].
  destruct (as_dict data) as [m| |]; try reflexivity. cbn [rbind].
  destruct (iter_json _) as [items| |]; reflexivity.
Qed.

Lemma list_notes_inv (f f1 : gmap path string) (ns : list Note) :
  list_notes f = (Ok ns, f1) ->
  exists m items,
    load_store f = (Ok (JObj m), f1)
    /\ iter_json (default (JArr []) (dict_get "notes" m)) = Ok items
    /\ notes_of_json items = Ok ns.
Proof.
  rewrite list_notes_eq, load_store_eq. intros [= H <-].
  apply rbind_ok in H as (data & Hd & H).
  apply rbind_ok in H as (m & Hm & H).
  apply rbind_ok in H as (items & Hi & H).
  destruct data; try discriminate. injection Hm as ->.
  rewrite Hd. eauto.
Qed.

Lemma list_notes_intro (f f1 : gmap path string) m items ns :
  load_store f = (Ok (JObj m), f1) ->
  iter_json (default (JArr []) (dict_get "notes" m)) = Ok items ->
  notes_of_json items = Ok ns ->
  list_notes f = (Ok ns, f1).
Proof.
  intros Hl Hi Hn. unfold list_notes.
  rewrite (bind_eq _ _ _ _ _ Hl). unfold bind, lift. cbn [as_dict].
  rewrite Hi, Hn. reflexivity.
Qed.

Lemma list_notes_again (f f1 : gmap path string) (r : result (list Note)) :
  list_notes f = (r, f1) -> list_notes f1 = (r, f1).
Proof.
  rewrite !list_notes_eq. intros [= <- <-].
  now rewrite ensured_idem, ensured_lookup.
Qed.

Lemma load_store_fst (f : gmap path string) (data : json) :
  (load_store f).1 = Ok data -> load_store f = (Ok data, ensured f).
Proof. rewrite load_store_eq. cbn [fst]. now intros ->. Qed.

Lemma list_notes_fst (f : gmap path string) (ns : list Note) :
  (list_notes f).1 = Ok ns -> list_notes f = (Ok ns, ensured f).
Proof. rewrite list_notes_eq. cbn [fst]. now intros ->. Qed.

Lemma iter_json_wf (v : json) (items : list json) :
  wf_json v -> iter_json v = Ok items -> Forall wf_json items.
Proof.
  destruct v as [| | |s|l|m]; try discriminate; cbn.
  - destruct s; [|discriminate]. intros _ [= <-]. constructor.
  - intros H [= <-]. now inversion H.
  - intros _ [= <-]. induction m; constructor; [constructor | assumption].
Qed.

Lemma store_items_wf (m : list (string * json)) (items : list json) :
  wf_json (JObj m) ->
  iter_json (default (JArr []) (dict_get "notes" m)) = Ok items ->
  Forall wf_json items.
Proof.
  intros Hm Hi. eapply iter_json_wf; [|exact Hi].
  destruct (dict_get "notes" m) as [v|] eqn:E; cbn.
  - inversion Hm; subst. eapply (dict_get_forall wf_json); eauto.
  - repeat constructor.
Qed.

(** ** [add_note] *)

Lemma strip_tags_spec (strip : string -> string) (l : list string) :
  strip_tags strip l = filter (fun t => t <> "") (map strip l).
Proof.
  induction l as [|t l IH]; [reflexivity|]. cbn [strip_tags map].
  destruct (String.eqb_spec (strip t) "") as [E|E].
  - now rewrite filter_cons_False by (intros ?; congruence).
  - rewrite filter_cons_True by assumption. now f_equal.
Qed.

Lemma add_note_ok strip now title body tags f f1 m n l :
  load_store f = (Ok (JObj m), f1) ->
  dict_get "next_id" m = Some (JInt n) ->
  dict_get "notes" m = Some (JArr l) ->
  let note := new_note strip now title body tags n in
  add_note strip now title body tags f
  = (Ok note, saved (JObj (added note l m)) f1).
Proof.
  intros Hl Hn Hnotes note. unfold add_note.
  rewrite (bind_eq _ _ _ _ _ Hl). unfold bind, lift. cbn [as_dict].
  rewrite Hn, Hnotes. cbn [from_option]. unfold Datatypes.id.
  rewrite save_store_eq. reflexivity.
Qed.

Lemma wf_added note l m :
  wf_json (JObj m) -> Forall wf_json l -> wf_json (JObj (added note l m)).
Proof.
  intros Hm Hl. unfold added. apply wf_dict_set; [|constructor].
  apply wf_dict_set; [assumption|]. constructor.
  apply Forall_app. split; [assumption|].
  constructor; [apply wf_asdict | constructor].
Qed.

Lemma added_notes note l m :
  dict_get "notes" (added note l m) = Some (JArr (l ++ [asdict note])).
Proof.
  unfold added. rewrite dict_get_set_ne by discriminate.
  apply dict_get_set_eq.
Qed.

Lemma added_next_id note l m :
  dict_get "next_id" (added note l m) = Some (JInt (id note + 1)).
Proof. unfold added. apply dict_get_set_eq. Qed.

Lemma added_other note l m k :
  k <> "notes" -> k <> "next_id" ->
  dict_get k (added note l m) = dict_get k m.
Proof.
  intros H1 H2. unfold added. now rewrite !dict_get_set_ne by assumption.
Qed.

(** ** [delete_note] *)

Lemma delete_note_ok i f f1 m items l' :
  load_store f = (Ok (JObj m), f1) ->
  iter_json (default (JArr []) (dict_get "notes" m)) = Ok items ->
  keep_other i items = Ok l' ->
  delete_note i f
  = if (length l' =? length items)%nat then (Ok false, f1)
    else (Ok true, saved (JObj (dict_set "notes" (JArr l') m)) f1).
Proof.
  intros Hl Hi Hk. unfold delete_note.
  rewrite (bind_eq _ _ _ _ _ Hl). unfold bind, lift. cbn [as_dict].
  rewrite Hi, Hk.
  destruct (length l' =? length items)%nat; [reflexivity|].
  rewrite save_store_eq. reflexivity.
Qed.

(** Listing the notes of a store that was just saved. *)
Lemma list_notes_saved (m : list (string * json)) (l : list json)
    (ns : list Note) (g : gmap path string) :
  wf_json (JObj m) ->
  dict_get "notes" m = Some (JArr l) ->
  notes_of_json l = Ok ns ->
  list_notes (saved (JObj m) g) = (Ok ns, saved (JObj m) g).
Proof.
  intros Hwf Hl Hn.
  eapply list_notes_intro; [now apply load_store_saved | | exact Hn].
  now rewrite Hl.
Qed.

(** [delete_note] on a store of well-typed notes: nothing happens when
    no note has the id; otherwise the store is saved with the list of
    the other notes under ["notes"]. *)
Lemma delete_note_typed i f f1 ns :
  list_notes f = (Ok ns, f1) ->
  let kept := filter (fun n => id n <> i) ns in
  exists m,
    load_store f = (Ok (JObj m), f1)
    /\ ((Forall (fun n => id n <> i) ns /\ delete_note i f = (Ok false, f1))
        \/ (~ Forall (fun n => id n <> i) ns
            /\ exists l',
                let m' := dict_set "notes" (JArr l') m in
                delete_note i f = (Ok true, saved (JObj m') f1)
                /\ wf_json (JObj m')
                /\ notes_of_json l' = Ok kept
                /\ list_notes (saved (JObj m') f1)
                   = (Ok kept, saved (JObj m') f1))).
Proof.
  intros Hln kept.
  destruct (list_notes_inv _ _ _ Hln) as (m & items & Hl & Hi & Hn).
  exists m. split; [assumption|].
  destruct (keep_other_typed i items ns Hn)
    as (l' & Hk & Hn' & Hlen & Hlen' & Hwf).
  rewrite (delete_note_ok i f f1 m items l' Hl Hi Hk).
  pose proof (filter_length_all (fun n => id n <> i) ns) as Hall.
  destruct (Nat.eqb_spec (length l') (length items)) as [E|E].
  - left. split; [|reflexivity]. apply Hall. congruence.
  - right. split; [intros H; apply Hall in H; congruence|].
    exists l'. cbn zeta. split; [reflexivity|].
    pose proof (load_store_wf _ _ _ Hl) as Hm.
    assert (Hwf' : wf_json (JObj (dict_set "notes" (JArr l') m))).
    { apply wf_dict_set; [assumption|]. constructor. apply Hwf.
      eapply store_items_wf; eauto. }
    split; [assumption|]. split; [assumption|].
    eapply list_notes_saved; eauto. apply dict_get_set_eq.
Qed.

(** ** [find_note] *)

Lemma find_note_eq i f f1 ns :
  list_notes f = (Ok ns, f1) -> find_note i f = (Ok (find_loop i ns), f1).
Proof. intros H. unfold find_note. now rewrite (bind_eq _ _ _ _ _ H). Qed.

Lemma find_loop_none i ns :
  Forall (fun n => id n <> i) ns -> find_loop i ns = None.
Proof.
  induction 1 as [|n ns Hn Hns IH]; [reflexivity|]. cbn [find_loop].
  destruct (Z.eqb_spec (id n) i); [contradiction | exact IH].
Qed.

Lemma find_loop_first i ns n :
  find_loop i ns = Some n <->
  exists pre post,
    ns = pre ++ n :: post /\ id n = i /\ Forall (fun x => id x <> i) pre.
Proof.
  induction ns as [|x ns IH]; cbn [find_loop].
  - split; [discriminate|]. intros (pre & post & H & _). now destruct pre.
  - destruct (Z.eqb_spec (id x) i) as [E|E].
    + split.
      * intros [= <-]. exists [], ns. auto.
      * intros (pre & post & H & Hid & Hpre). destruct pre as [|y pre].
        -- now injection H as <-.
        -- injection H as <- _. inversion Hpre; subst. contradiction.
    + rewrite IH. split.
      * intros (pre & post & -> & Hid & Hpre). exists (x :: pre), post.
        auto.
      * intros (pre & post & H & Hid & Hpre). destruct pre as [|y pre].
        -- injection H as <- _. contradiction.
        -- injection H as <- ->. inversion Hpre; subst. eauto.
Qed.

Lemma filter_other_forall i (ns : list Note) :
  Forall (fun n => id n <> i) (filter (fun n => id n <> i) ns).
Proof. apply Forall_forall. intros n Hn. now apply list_elem_of_filter in Hn. Qed.

(** What [delete_note] did when it returned. *)
Lemma delete_note_inv (i : Z) (f f2 : gmap path string) (b : bool) :
  delete_note i f = (Ok b, f2) ->
  exists m items l',
    load_store f = (Ok (JObj m), ensured f)
    /\ iter_json (default (JArr []) (dict_get "notes" m)) = Ok items
    /\ keep_other i items = Ok l'
    /\ ((b = false /\ length l' = length items /\ f2 = ensured f)
        \/ (b = true
            /\ f2 = saved (JObj (dict_set "notes" (JArr l') m)) (ensured f))).
Proof.
  unfold delete_note. intros H.
  apply bind_ok in H as (data & f1 & Hl & H).
  pose proof (load_store_fs _ _ _ Hl) as ->.
  apply bind_ok in H as (m & f1 & Hm & H). apply lift_ok in Hm as [Hm ->].
  apply bind_ok in H as (items & f1 & Hi & H). apply lift_ok in Hi as [Hi ->].
  apply bind_ok in H as (l' & f1 & Hk & H). apply lift_ok in Hk as [Hk ->].
  destruct data; try discriminate. injection Hm as ->.
  exists m, items, l'. repeat (split; [assumption|]).
  destruct (Nat.eqb_spec (length l') (length items)) as [E|E].
  - injection H as <- <-. left. auto.
  - rewrite (bind_eq _ _ _ tt _ (save_store_eq _ _)) in H.
    injection H as <- <-. right. auto.
Qed.

Lemma keep_other_kept (i : Z) (l l' : list json) :
  keep_other i l = Ok l' ->
  Forall (kept i) l' /\ (Forall wf_json l -> Forall wf_json l').
Proof.
  revert l'. induction l as [|j l IH]; intros l' H; cbn [keep_other] in H.
  - injection H as <-. split; [constructor | auto].
  - apply rbind_ok in H as (m & Hm & H).
    apply rbind_ok in H as (rest & Hrest & H).
    destruct j; try discriminate. injection Hm as ->.
    destruct (IH rest Hrest) as [Hk Hwf].
    destruct (py_ne_int (dict_get "id" m) i) eqn:E; injection H as <-.
    + split.
      * constructor; [now exists m | assumption].
      * intros Hall. inversion Hall; subst. constructor; auto.
    + split; [assumption|]. intros Hall. inversion Hall; auto.
Qed.

Lemma notes_of_kept (i : Z) (l : list json) (ns : list Note) :
  Forall (kept i) l -> notes_of_json l = Ok ns ->
  Forall (fun n => id n <> i) ns.
Proof.
  intros Hl. revert ns. induction Hl as [|j l Hj Hl IH]; intros ns H;
    cbn [notes_of_json] in H.
  - injection H as <-. constructor.
  - apply rbind_ok in H as (x & Hx & H).
    apply rbind_ok in H as (xs & Hxs & H). injection H as <-.
    constructor; [|now apply IH].
    destruct Hj as (m & -> & Hne).
    destruct (note_of_json_inv _ _ Hx) as (m' & [= <-] & Hid).
    rewrite Hid in Hne. cbn [py_ne_int] in Hne.
    destruct (Z.eqb_spec (id x) i); [discriminate | assumption].
Qed.

(** Whenever [delete_note] and a following [find_note] both return,
    the note is absent. *)
Lemma delete_then_find_none (i : Z) (f f2 f3 : gmap path string)
    (b : bool) (r : option Note) :
  delete_note i f = (Ok b, f2) -> find_note i f2 = (Ok r, f3) -> r = None.
Proof.
  intros Hd Hf.
  destruct (delete_note_inv _ _ _ _ Hd)
    as (m & items & l' & Hl & Hi & Hk & Hcase).
  unfold find_note in Hf. apply bind_ok in Hf as (ns & f4 & Hln & Hf).
  injection Hf as <- <-.
  destruct (list_notes_inv _ _ _ Hln) as (m2 & items2 & Hl2 & Hi2 & Hn2).
  destruct (keep_other_kept _ _ _ Hk) as [Hkept Hwf].
  destruct Hcase as [(-> & Hlen & ->) | (-> & ->)].
  - rewrite load_store_ensured, Hl in Hl2. injection Hl2 as <- _.
    rewrite Hi in Hi2. injection Hi2 as <-.
    destruct (keep_other_typed i items ns Hn2)
      as (l'' & Hk' & _ & Hlen1 & Hlen2 & _).
    rewrite Hk in Hk'. injection Hk' as <-.
    apply find_loop_none.
    apply (proj1 (filter_length_all (fun n => id n <> i) ns)). lia.
  - assert (Hwf' : wf_json (JObj (dict_set "notes" (JArr l') m))).
    { pose proof (load_store_wf _ _ _ Hl) as Hm.
      apply wf_dict_set; [exact Hm|]. constructor.
      apply Hwf. eapply store_items_wf; [exact Hm | exact Hi]. }
    rewrite (load_store_saved _ _ Hwf') in Hl2. injection Hl2 as <- _.
    rewrite dict_get_set_eq in Hi2. injection Hi2 as <-.
    apply find_loop_none. eapply notes_of_kept; eauto.
Qed.

(** ** Substrings *)

Lemma strip_prefix_spec (p s r : string) :
  strip_prefix p s = Some r <-> s = p +:+ r.
Proof.
  revert s. induction p as [|a p IH]; intros s; cbn [strip_prefix].
  - rewrite app_nil_l_s. split; congruence.
  - rewrite app_cons_s. destruct s as [|b s]; [split; discriminate|].
    destruct (Ascii.eqb_spec a b) as [->|Hne].
    + rewrite IH. split; congruence.
    + split; [discriminate | congruence].
Qed.

Lemma startswith_spec (q s : string) :
  startswith q s = true <-> exists post, s = q +:+ post.
Proof.
  unfold startswith. destruct (strip_prefix q s) as [r|] eqn:E.
  - apply strip_prefix_spec in E. split; eauto.
  - split; [discriminate|]. intros [post H].
    apply strip_prefix_spec in H. congruence.
Qed.

Lemma str_in_spec (q s : string) : str_in q s = true <-> contains q s.
Proof.
  unfold contains. induction s as [|c s IH]; cbn [str_in].
  - rewrite orb_false_r, startswith_spec. split.
    + intros [post H]. now exists "", post.
    + intros (pre & post & H). destruct pre; [|discriminate].
      rewrite app_nil_l_s in H. eauto.
  - rewrite orb_true_iff, startswith_spec, IH. split.
    + intros [[post H] | (pre & post & H)].
      * now exists "", post.
      * exists (String c pre), post. rewrite app_cons_s. congruence.
    + intros (pre & post & H). destruct pre as [|a pre].
      * left. rewrite app_nil_l_s in H. eauto.
      * right. rewrite app_cons_s in H. injection H as _ H. eauto.
Qed.

Lemma contains_empty (s : string) : contains "" s.
Proof. exists "", s. reflexivity. Qed.

(** ** [search_notes] *)

Lemma matches_spec (lower : string -> string) (query : string) (n : Note) :
  matches lower (lower query) n = true <-> Matches lower query n.
Proof.
  unfold matches, Matches.
  rewrite !orb_true_iff, !str_in_spec, existsb_exists.
  setoid_rewrite str_in_spec. setoid_rewrite <- list_elem_of_In.
  tauto.
Qed.

#[export] Instance Matches_dec (lower : string -> string) (query : string)
    (n : Note) : Decision (Matches lower query n).
Proof.
  destruct (matches lower (lower query) n) eqn:E.
  - left. now apply matches_spec.
  - right. intros H. apply matches_spec in H. congruence.
Defined.

Lemma search_loop_spec lower query (ns acc : list Note) :
  search_loop lower (lower query) ns acc
  = acc ++ filter (Matches lower query) ns.
Proof.
  revert acc. induction ns as [|n ns IH]; intros acc; cbn [search_loop].
  - now rewrite app_nil_r.
  - rewrite IH. destruct (matches lower (lower query) n) eqn:E.
    + rewrite filter_cons_True by now apply matches_spec.
      now rewrite <- app_assoc.
    + rewrite filter_cons_False; [reflexivity|].
      intros H. apply matches_spec in H. congruence.
Qed.

Lemma search_notes_eq lower query f f1 ns :
  list_notes f = (Ok ns, f1) ->
  search_notes lower query f = (Ok (filter (Matches lower query) ns), f1).
Proof.
  intros H. unfold search_notes. rewrite (bind_eq _ _ _ _ _ H).
  unfold ret. now rewrite search_loop_spec.
Qed.

Lemma filter_all {A} (P : A -> Prop) `{Hdec : !forall x, Decision (P x)}
    (l : list A) :
  Forall P l -> filter P l = l.
Proof.
  induction 1 as [|x l Hx Hl IH]; [reflexivity|].
  rewrite filter_cons_True by assumption. now f_equal.
Qed.

(** C4. For every query and every store of well-typed notes,
    [search_notes] returns exactly the notes for which the lowercased
    query occurs in the lowercased title, body or one of the lowercased
    tags, in stored order; the result is a sub-list of [list_notes]; and
    the empty query returns every note. *)
Theorem search_notes_spec (lower : string -> string) (query : string)
    (f : gmap path string) (ns : list Note) :
  (list_notes f).1 = Ok ns ->
  search_notes lower query f
  = (Ok (filter (Matches lower query) ns), ensured f)
  /\ (forall n, n ∈ filter (Matches lower query) ns
                <-> n ∈ ns /\ Matches lower query n)
  /\ sublist (filter (Matches lower query) ns) ns
  /\ (lower "" = "" -> search_notes lower "" f = (Ok ns, ensured f)).
Proof.
  intros H. apply list_notes_fst in H. set (f1 := ensured f) in *.
  split; [now apply search_notes_eq|].
  split; [intros n; rewrite list_elem_of_filter; tauto|].
  split; [apply sublist_filter|].
  intros Hlow. rewrite (search_notes_eq lower "" f f1 ns H). do 2 f_equal.
  apply filter_all, Forall_forall. intros n _. left. rewrite Hlow.
  apply contains_empty.
Qed.

(** C1. [add_note] loads the store; the note it creates has the store's
    [next_id] as id, the trimmed title and body, the trimmed tags without
    the empty ones, and the ISO-8601 text of the current UTC instant
    followed by [Z]; the note is appended to the end of [notes],
    [next_id] grows by exactly one, every other key is kept, the store
    is saved, and the note is returned. *)
Theorem add_note_spec (strip : string -> string) (now : datetime)
    (title0 body0 : string) (tags0 : option (list string))
    (f : gmap path string) (m : list (string * json)) (n : Z)
    (l : list json) :
  (load_store f).1 = Ok (JObj m) ->
  dict_get "next_id" m = Some (JInt n) ->
  dict_get "notes" m = Some (JArr l) ->
  exists (note : Note) (f2 : gmap path string) (m2 : list (string * json)),
    add_note strip now title0 body0 tags0 f = (Ok note, f2)
    /\ id note = n
    /\ title note = strip title0
    /\ body note = strip body0
    /\ tags note = filter (fun t => t <> "") (map strip (default [] tags0))
    /\ created_at note = isoformat now +:+ "Z"
    /\ f2 !! NOTES_FILE = Some (dumps (JObj m2))
    /\ load_store f2 = (Ok (JObj m2), f2)
    /\ dict_get "notes" m2 = Some (JArr (l ++ [asdict note]))
    /\ dict_get "next_id" m2 = Some (JInt (n + 1))
    /\ (forall k, k <> "notes" -> k <> "next_id" ->
                  dict_get k m2 = dict_get k m)
    /\ (forall ns, notes_of_json l = Ok ns ->
                   list_notes f2 = (Ok (ns ++ [note]), f2)).
Proof.
  intros Hl Hn Hnotes. apply load_store_fst in Hl.
  set (f1 := ensured f) in *.
  set (note := new_note strip now title0 body0 tags0 n).
  pose proof (load_store_wf _ _ _ Hl) as Hwf.
  assert (Hwl : Forall wf_json l).
  { inversion Hwf as [| | | | |m' Hnd Hvals]; subst.
    pose proof (dict_get_forall wf_json _ _ _ Hvals Hnotes) as Hv.
    now inversion Hv. }
  pose proof (wf_added note l m Hwf Hwl) as Hwf2.
  exists note, (saved (JObj (added note l m)) f1), (added note l m).
  split; [now apply add_note_ok|].
  split; [reflexivity|]. split; [reflexivity|]. split; [reflexivity|].
  split; [apply strip_tags_spec|]. split; [reflexivity|].
  split; [apply saved_lookup|].
  split; [now apply load_store_saved|].
  split; [apply added_notes|].
  split; [apply added_next_id|].
  split; [intros k H1 H2; now apply added_other|].
  intros ns Hns. eapply list_notes_saved; [assumption | apply added_notes|].
  apply notes_of_json_app; [assumption|].
  cbn [notes_of_json]. now rewrite note_of_json_asdict.
Qed.

Lemma not_forall_other i (ns : list Note) :
  ~ Forall (fun n => id n <> i) ns <-> exists n, n ∈ ns /\ id n = i.
Proof.
  rewrite <- Exists_exists. split.
  - intros H. apply not_Forall_Exists in H; [|intros x; apply _].
    eapply Exists_impl; [exact H|]. cbn. intros x Hx.
    destruct (decide (id x = i)); [assumption | contradiction].
  - intros H Hall. apply Exists_exists in H as (n & Hn & Hid).
    rewrite Forall_forall in Hall. now apply (Hall n).
Qed.

(** C3. [delete_note] returns [True] exactly when some note has the id;
    it then saves the store without the notes of that id and with every
    other key kept.  Otherwise it returns [False] and writes nothing:
    the files are those [load_store] left, and when the store file
    existed no file has changed at all. *)
Theorem delete_note_spec (i : Z) (f : gmap path string) (ns : list Note) :
  (list_notes f).1 = Ok ns ->
  exists (b : bool) (f2 : gmap path string) (m : list (string * json)),
    delete_note i f = (Ok b, f2)
    /\ load_store f = (Ok (JObj m), ensured f)
    /\ (b = true <-> exists n, n ∈ ns /\ id n = i)
    /\ (b = true ->
        exists m2,
          f2 !! NOTES_FILE = Some (dumps (JObj m2))
          /\ load_store f2 = (Ok (JObj m2), f2)
          /\ list_notes f2 = (Ok (filter (fun n => id n <> i) ns), f2)
          /\ (forall k, k <> "notes" -> dict_get k m2 = dict_get k m))
    /\ (b = false ->
        f2 = ensured f
        /\ f2 !! NOTES_FILE
           = Some (default (dumps initial_store) (f !! NOTES_FILE))
        /\ (forall t, f !! NOTES_FILE = Some t -> f2 = f)).
Proof.
  intros Hln. apply list_notes_fst in Hln.
  destruct (delete_note_typed i f _ ns Hln) as (m & Hl & Hcase).
  set (f1 := ensured f) in *.
  destruct Hcase as [[Hall Hd] | [Hex (l' & Hd & Hwf & Hn & Hln2)]].
  - exists false, f1, m. split; [assumption|]. split; [assumption|].
    split; [|split; [discriminate|]].
    + split; [discriminate|]. intros H. apply not_forall_other in H.
      contradiction.
    + intros _. split; [reflexivity|].
      split; [apply ensured_lookup|]. intros t Ht.
      eapply ensured_present; eauto.
  - exists true, (saved (JObj (dict_set "notes" (JArr l') m)) f1), m.
    split; [assumption|]. split; [assumption|].
    split; [|split; [|discriminate]].
    + split; [intros _; now apply not_forall_other | reflexivity].
    + intros _. exists (dict_set "notes" (JArr l') m).
      split; [apply saved_lookup|].
      split; [now apply load_store_saved|].
      split; [assumption|].
      intros k Hk. now apply dict_get_set_ne.
Qed.

(** C5. [delete_note] followed by [find_note] for the same id finds
    nothing: on any files, whenever the two calls return; and on every
    store of well-typed notes both calls do return. *)
Theorem delete_then_find_absent (i : Z) (f : gmap path string) :
  (forall (b : bool) (f2 f3 : gmap path string) (r : option Note),
      delete_note i f = (Ok b, f2) -> find_note i f2 = (Ok r, f3) ->
      r = None)
  /\ (forall ns : list Note,
        (list_notes f).1 = Ok ns ->
        exists (b : bool) (f2 f3 : gmap path string),
          delete_note i f = (Ok b, f2) /\ find_note i f2 = (Ok None, f3)).
Proof.
  split; [intros b f2 f3 r; apply delete_then_find_none|].
  intros ns Hln. apply list_notes_fst in Hln. set (f1 := ensured f) in *.
  destruct (delete_note_typed i f f1 ns Hln) as (m & Hl & Hcase).
  destruct Hcase as [[Hall Hd] | [Hex (l' & Hd & Hwf & Hn & Hln2)]].
  - exists false, f1, f1. split; [assumption|].
    rewrite (find_note_eq i f1 f1 ns (list_notes_again _ _ _ Hln)).
    now rewrite find_loop_none.
  - eexists true, _, _. split; [exact Hd|].
    rewrite (find_note_eq _ _ _ _ Hln2).
    now rewrite find_loop_none by apply filter_other_forall.
Qed.

(** C10. [delete_note] removes every note with the given id, however
    many there are, keeps the others in order, and returns [True]
    exactly when at least one was removed; [find_note] returns the first
    note with the id in stored order. *)
Theorem delete_all_find_first (i : Z) (f : gmap path string)
    (ns : list Note) :
  (list_notes f).1 = Ok ns ->
  (exists (b : bool) (f2 : gmap path string),
      delete_note i f = (Ok b, f2)
      /\ list_notes f2 = (Ok (filter (fun n => id n <> i) ns), f2)
      /\ Forall (fun n => id n <> i) (filter (fun n => id n <> i) ns)
      /\ (forall n, n ∈ ns -> id n <> i ->
                    n ∈ filter (fun n => id n <> i) ns)
      /\ (b = true <-> Exists (fun n => id n = i) ns))
  /\ exists r : option Note,
      find_note i f = (Ok r, ensured f)
      /\ match r with
         | None => Forall (fun n => id n <> i) ns
         | Some n =>
             exists pre post,
               ns = pre ++ n :: post /\ id n = i
               /\ Forall (fun x => id x <> i) pre
         end.
Proof.
  intros Hln. apply list_notes_fst in Hln. set (f1 := ensured f) in *.
  split.
  - destruct (delete_note_typed i f f1 ns Hln) as (m & Hl & Hcase).
    assert (Hkeep : forall n, n ∈ ns -> id n <> i ->
                              n ∈ filter (fun n => id n <> i) ns).
    { intros n Hn Hid. now apply list_elem_of_filter. }
    destruct Hcase as [[Hall Hd] | [Hex (l' & Hd & Hwf & Hn & Hln2)]].
    + exists false, f1. split; [assumption|].
      rewrite filter_all by assumption.
      split; [eapply list_notes_again; eauto|]. split; [assumption|].
      split; [auto|]. split; [discriminate|].
      intros H. apply Exists_exists in H as (n & Hn & Hid).
      rewrite Forall_forall in Hall. now destruct (Hall n Hn).
    + eexists true, _. split; [exact Hd|]. split; [exact Hln2|].
      split; [apply filter_other_forall|]. split; [assumption|].
      split; [intros _ | reflexivity].
      apply Exists_exists. now apply not_forall_other.
  - exists (find_loop i ns). split; [now apply find_note_eq|].
    destruct (find_loop i ns) as [n|] eqn:E.
    + now apply find_loop_first.
    + apply Forall_forall. intros n Hn Hid.
      apply list_elem_of_split in Hn as (pre & post & ->).
      clear - E Hid. induction pre as [|x pre IH]; cbn in E.
      * rewrite <- Hid, Z.eqb_refl in E. discriminate.
      * destruct (id x =? i); [discriminate | auto].
Qed.

(** ** Export *)

Lemma export_notes_json (out : path) (fmt : string) f f1 ns :
  list_notes f = (Ok ns, f1) -> fmt <> "md" ->
  export_notes out fmt f
  = (Ok out, <[out := dumps (JObj [("notes", JArr (map asdict ns))])]> f1).
Proof.
  intros Hln Hfmt. unfold export_notes. rewrite (bind_eq _ _ _ _ _ Hln).
  destruct (String.eqb_spec fmt "md"); [contradiction|].
  unfold bind, exec, ret. now rewrite run_write_text.
Qed.

(** C7. Exporting with format [json] writes one JSON document whose
    single key [notes] holds the full note records in stored order, and
    reading that document back gives the notes [list_notes] returned at
    export time, in the same order. *)
Theorem export_json_roundtrip (out : path) (f : gmap path string)
    (ns : list Note) :
  (list_notes f).1 = Ok ns ->
  exists (f2 : gmap path string) (text : string) (l : list json),
    export_notes out "json" f = (Ok out, f2)
    /\ f2 !! out = Some text
    /\ loads text = Ok (JObj [("notes", JArr l)])
    /\ l = map asdict ns
    /\ notes_of_json l = Ok ns.
Proof.
  intros Hln. apply list_notes_fst in Hln. set (f1 := ensured f) in *.
  exists (<[out := dumps (JObj [("notes", JArr (map asdict ns))])]> f1),
    (dumps (JObj [("notes", JArr (map asdict ns))])), (map asdict ns).
  split; [now apply export_notes_json|].
  split; [apply lookup_insert_eq|].
  split; [|split; [reflexivity | apply notes_of_json_asdict]].
  apply loads_dumps. constructor.
  - cbn. apply NoDup_singleton.
  - constructor; [|constructor]. cbn [snd]. constructor. clear Hln.
    induction ns as [|x ns IH]; cbn [map]; constructor;
      [apply wf_asdict | exact IH].
Qed.

(** ** Replacement of the store file *)

Lemma run_ops_writes_to (p q : path) (ops : list fs_op)
    (f : gmap path string) :
  Forall (writes_to p) ops -> q <> p -> run_ops ops f !! q = f !! q.
Proof.
  intros Hops Hq. revert f.
  induction Hops as [|o ops Ho Hops IH]; intros f; [reflexivity|].
  rewrite run_ops_cons, IH.
  destruct o as [p'|p' c|s d|p']; cbn in Ho; subst; cbn [apply_op].
  - now apply lookup_insert_ne.
  - destruct (f !! p); [now apply lookup_insert_ne | reflexivity].
  - contradiction.
  - contradiction.
Qed.

Lemma write_text_writes_to (p : path) (text : string) :
  Forall (writes_to p) (write_text p text).
Proof.
  unfold write_text. constructor; [reflexivity|].
  apply Forall_forall. intros o Ho.
  apply list_elem_of_fmap in Ho as (c & -> & _). reflexivity.
Qed.

(** Both outcomes of [os.rename] leave the same files: the store file
    holds the new text and the temporary file is gone. *)
Lemma save_store_steps_final (renamed : bool) (data : json)
    (f : gmap path string) :
  run_ops (save_store_steps renamed data) f = saved data f.
Proof.
  unfold save_store_steps, shutil_move, saved.
  rewrite run_ops_app, run_write_text.
  destruct renamed.
  - rewrite run_ops_cons. cbn [apply_op]. rewrite lookup_insert_eq.
    cbn [run_ops foldl]. now rewrite delete_insert_eq.
  - rewrite run_ops_app, run_write_text, run_ops_cons. cbn [apply_op run_ops foldl].
    rewrite delete_insert_ne by (intros H; now apply tmp_file_ne).
    now rewrite delete_insert_eq.
Qed.

Lemma save_store_any_outcome (renamed : bool) (data : json)
    (f : gmap path string) :
  save_store data f = (Ok tt, run_ops (save_store_steps renamed data) f).
Proof. now rewrite save_store_eq, save_store_steps_final. Qed.

(** Whatever [os.rename] does afterwards: while the temporary file is
    written the store file is not touched, and the temporary file holds
    the whole text before [shutil.move] starts. *)
Lemma save_store_writes_tmp_first (renamed : bool) (data : json)
    (f : gmap path string) :
  let n := length (write_text tmp_file (dumps data)) in
  (forall k, (k <= n)%nat ->
     run_ops (take k (save_store_steps renamed data)) f !! NOTES_FILE
     = f !! NOTES_FILE)
  /\ run_ops (take n (save_store_steps renamed data)) f !! tmp_file
     = Some (dumps data).
Proof.
  intros n. unfold save_store_steps. split.
  - intros k Hk. rewrite take_app_le by exact Hk.
    apply (run_ops_writes_to tmp_file).
    + apply Forall_take, write_text_writes_to.
    + intros H. now apply tmp_file_ne.
  - subst n. rewrite take_app_length, run_write_text.
    apply lookup_insert_eq.
Qed.

(** When [os.rename] succeeds, the store file holds the old or the new
    complete text after every step. *)
Lemma save_store_rename_atomic (data : json) (f : gmap path string)
    (k : nat) :
  run_ops (take k (save_store_steps true data)) f !! NOTES_FILE
  = f !! NOTES_FILE
  \/ run_ops (take k (save_store_steps true data)) f !! NOTES_FILE
     = Some (dumps data).
Proof.
  destruct (decide (k <= length (write_text tmp_file (dumps data)))%nat)
    as [Hk|Hk].
  - left. now apply save_store_writes_tmp_first.
  - right. rewrite firstn_all2.
    + rewrite save_store_steps_final. apply saved_lookup.
    + unfold save_store_steps, shutil_move. rewrite length_app.
      cbn [length]. lia.
Qed.

(** When [os.rename] raises, the first step of the copy empties the
    store file, and the steps that follow fill it character by
    character. *)
Lemma save_store_copy_truncates (data : json) (f : gmap path string) :
  let n := length (write_text tmp_file (dumps data)) in
  run_ops (take (S n) (save_store_steps false data)) f !! NOTES_FILE
  = Some "".
Proof.
  intros n. unfold save_store_steps, shutil_move.
  rewrite take_app_ge by (subst n; lia).
  replace (S n - length (write_text tmp_file (dumps data)))%nat with 1%nat
    by (subst n; lia).
  rewrite run_ops_app. unfold write_text at 2. cbn [app take].
  rewrite run_ops_cons. cbn [apply_op run_ops foldl].
  apply lookup_insert_eq.
Qed.

(** C8. [save_store] of [dog_store] over the sample store, when
    [os.rename] raises [OSError]: the temporary file is complete and the
    store file untouched when [shutil.move] starts, but its copy then
    passes through a state in which the store file is empty, neither the
    old nor the new text; [load_store] raises [JSONDecodeError] there.
    The call still ends with the new text in the store file. *)
Theorem save_store_copy_exposes_truncated_store :
  let steps := save_store_steps false dog_store in
  let n := length (write_text tmp_file (dumps dog_store)) in
  let seen := run_ops (take (S n) steps) sample_fs in
  (S n < length steps)%nat
  /\ run_ops (take n steps) sample_fs !! tmp_file = Some (dumps dog_store)
  /\ run_ops (take n steps) sample_fs !! NOTES_FILE = sample_fs !! NOTES_FILE
  /\ seen !! NOTES_FILE = Some ""
  /\ seen !! NOTES_FILE <> sample_fs !! NOTES_FILE
  /\ seen !! NOTES_FILE <> Some (dumps dog_store)
  /\ (load_store seen).1 = Raise JSONDecodeError
  /\ run_ops steps sample_fs !! NOTES_FILE = Some (dumps dog_store).
Proof.
  intros steps n seen.
  assert (Hseen : seen !! NOTES_FILE = Some "")
    by apply save_store_copy_truncates.
  destruct (save_store_writes_tmp_first false dog_store sample_fs)
    as [Hkeep Htmp].
  split.
  { subst steps n. unfold save_store_steps, shutil_move, write_text.
    rewrite !length_app. cbn [length]. lia. }
  split; [exact Htmp|].
  split; [apply Hkeep; lia|]. split; [exact Hseen|].
  split.
  { rewrite Hseen. unfold sample_fs, store_file.
    rewrite lookup_singleton_eq. discriminate. }
  split; [rewrite Hseen; discriminate|].
  split.
  { rewrite load_store_eq, Hseen. reflexivity. }
  subst steps. rewrite save_store_steps_final. apply saved_lookup.
Qed.

(** ** Command interface *)

Lemma main_view_eq i f f1 ns :
  list_notes f = (Ok ns, f1) ->
  main (View i) f
  = (Ok match find_loop i ns with
        | None => (1, print ("Note " +:+ int_repr i +:+ " not found"))
        | Some n =>
            (0, print (title n +:+ " (id=" +:+ int_repr (id n) +:+ ")" +:+
                       String c_nl "" +:+
                       "created: " +:+ created_at n +:+ String c_nl "" +:+
                       "tags: " +:+ join ", " (tags n) +:+
                       String c_nl (String c_nl "") +:+ body n))
        end, f1).
Proof.
  intros Hln. cbn [main]. rewrite (bind_eq _ _ _ _ _ (find_note_eq i _ _ _ Hln)).
  now destruct (find_loop i ns).
Qed.

(** C9. [view] exits with code 1 and prints [Note <id> not found] when
    no note has the id and exits with code 0 when one has; [delete]
    exits with code 0 in both cases and prints [Deleted.] when a note
    was removed and [Note not found.] otherwise. *)
Theorem main_exit_codes (i : Z) (f : gmap path string) (ns : list Note) :
  (list_notes f).1 = Ok ns ->
  (Forall (fun n => id n <> i) ns ->
   main (View i) f
   = (Ok (1, "Note " +:+ int_repr i +:+ " not found" +:+ String c_nl ""),
      ensured f)
   /\ main (Delete i) f
      = (Ok (0, "Note not found." +:+ String c_nl ""), ensured f))
  /\ (Exists (fun n => id n = i) ns ->
      (exists out, main (View i) f = (Ok (0, out), ensured f))
      /\ exists f2, delete_note i f = (Ok true, f2)
                    /\ main (Delete i) f
                       = (Ok (0, "Deleted." +:+ String c_nl ""), f2)).
Proof.
  intros Hln. apply list_notes_fst in Hln. set (f1 := ensured f) in *.
  destruct (delete_note_typed i f f1 ns Hln) as (m & Hl & Hcase).
  split.
  - intros Hall. split.
    + rewrite (main_view_eq i f f1 ns Hln), find_loop_none by assumption.
      unfold print. now rewrite !app_assoc_s.
    + destruct Hcase as [[_ Hd] | [Hex _]]; [|contradiction].
      cbn [main]. now rewrite (bind_eq _ _ _ _ _ Hd).
  - intros Hex. split.
    + rewrite (main_view_eq i f f1 ns Hln).
      destruct (find_loop i ns) as [n|] eqn:E; [eauto|].
      exfalso. apply Exists_exists in Hex as (n & Hn & Hid).
      apply list_elem_of_split in Hn as (pre & post & ->).
      clear - E Hid. induction pre as [|x pre IH]; cbn in E.
      * rewrite <- Hid, Z.eqb_refl in E. discriminate.
      * destruct (id x =? i); [discriminate | auto].
    + destruct Hcase as [[Hall _] | [_ (l' & Hd & _)]].
      * exfalso. apply Exists_exists in Hex as (n & Hn & Hid).
        rewrite Forall_forall in Hall. now destruct (Hall n Hn).
      * eexists. split; [exact Hd|]. cbn [main].
        now rewrite (bind_eq _ _ _ _ _ Hd).
Qed.

(** ** The serialization round trip *)

Example loads_compact_store : loads compact_store = Ok initial_store.
Proof. reflexivity. Qed.

(** C6, counterexample.  A store file that holds the initial store on
    one line is well formed, yet [save_store(load_store())] rewrites it
    in the indented layout: the content of the file changes. *)
Lemma roundtrip_changes_compact_file :
  let f : gmap path string := {[ NOTES_FILE := compact_store ]} in
  exists data f1 f2,
    load_store f = (Ok data, f1)
    /\ data = initial_store
    /\ save_store data f1 = (Ok tt, f2)
    /\ f2 !! NOTES_FILE <> f !! NOTES_FILE.
Proof.
  intros f. exists initial_store, f, (saved initial_store f).
  split.
  { rewrite load_store_eq. unfold f at 1. rewrite lookup_singleton_eq.
    cbn [from_option]. unfold Datatypes.id. rewrite loads_compact_store.
    f_equal; eapply ensured_present; apply lookup_singleton_eq. }
  split; [reflexivity|]. split; [apply save_store_eq|].
  rewrite saved_lookup. unfold f. rewrite lookup_singleton_eq.
  intros H. vm_compute in H. discriminate H.
Qed.

(** C6, amended.  [save_store(load_store())] rewrites the store file
    into the serialization of the store it holds, which reads back as
    the same store; a file in that layout, as [ensure_store] and
    [save_store] write it, keeps its content byte for byte, and so does
    any file from the second round trip on. *)
Theorem save_load_roundtrip (f : gmap path string) (data : json) :
  (load_store f).1 = Ok data ->
  exists f2,
    save_store data (ensured f) = (Ok tt, f2)
    /\ f2 !! NOTES_FILE = Some (dumps data)
    /\ load_store f2 = (Ok data, f2)
    /\ (forall d, wf_json d -> f !! NOTES_FILE = Some (dumps d) ->
                  f2 !! NOTES_FILE = f !! NOTES_FILE)
    /\ (f !! NOTES_FILE = None ->
        f2 !! NOTES_FILE = ensured f !! NOTES_FILE)
    /\ exists f3, save_store data f2 = (Ok tt, f3)
                  /\ f3 !! NOTES_FILE = f2 !! NOTES_FILE.
Proof.
  intros Hl. apply load_store_fst in Hl.
  pose proof (load_store_wf _ _ _ Hl) as Hwf.
  exists (saved data (ensured f)). split; [apply save_store_eq|].
  split; [apply saved_lookup|]. split; [now apply load_store_saved|].
  rewrite load_store_eq in Hl. injection Hl as Hloads.
  split; [|split].
  - intros d Hd Hf. rewrite Hf in Hloads. cbn [from_option] in Hloads.
    unfold Datatypes.id in Hloads. rewrite loads_dumps in Hloads by assumption.
    injection Hloads as ->. now rewrite saved_lookup.
  - intros Hnone. rewrite Hnone in Hloads. cbn [from_option] in Hloads.
    unfold Datatypes.id in Hloads.
    rewrite loads_dumps in Hloads.
    + injection Hloads as <-.
      now rewrite saved_lookup, ensured_lookup, Hnone.
    + eapply loads_wf, loads_compact_store.
  - exists (saved data (saved data (ensured f))).
    split; [apply save_store_eq|].
    now rewrite !saved_lookup.
Qed.

(** ** Identifier assignment *)

Lemma store_inv_initial (f0 : gmap path string) :
  f0 !! NOTES_FILE = None \/ f0 !! NOTES_FILE = Some (dumps initial_store) ->
  store_inv (ensured f0) 0.
Proof.
  intros H. split; [lia|].
  exists [("next_id", JInt 1); ("notes", JArr [])], [], [].
  split; [|repeat split; constructor].
  rewrite load_store_ensured, load_store_eq.
  assert (E : default (dumps initial_store) (f0 !! NOTES_FILE)
              = dumps initial_store) by (destruct H as [-> | ->]; reflexivity).
  rewrite E. reflexivity.
Qed.

Lemma store_inv_ensured (f : gmap path string) (k : Z) :
  store_inv f k -> ensured f = f.
Proof.
  intros (_ & m & l & ns & Hl & _). symmetry. eapply load_store_fs, Hl.
Qed.

Lemma add_note_step (strip : string -> string) (now : datetime)
    (t b : string) (g : option (list string)) (f : gmap path string)
    (k : Z) :
  store_inv (ensured f) k ->
  exists note f2,
    add_note strip now t b g f = (Ok note, f2)
    /\ id note = k + 1
    /\ store_inv f2 (k + 1).
Proof.
  intros (Hk & m & l & ns & Hl & Hnext & Hnotes & Hns & Hrange & Hnd).
  rewrite load_store_ensured in Hl.
  set (note := new_note strip now t b g (k + 1)).
  pose proof (load_store_wf _ _ _ Hl) as Hwf.
  assert (Hwl : Forall wf_json l).
  { inversion Hwf as [| | | | |m' Hnd' Hvals]; subst.
    pose proof (dict_get_forall wf_json _ _ _ Hvals Hnotes) as Hv.
    now inversion Hv. }
  pose proof (wf_added note l m Hwf Hwl) as Hwf2.
  exists note, (saved (JObj (added note l m)) (ensured f)).
  split; [now apply add_note_ok|]. split; [reflexivity|].
  split; [lia|].
  exists (added note l m), (l ++ [asdict note]), (ns ++ [note]).
  split; [now apply load_store_saved|].
  split; [apply added_next_id|].
  split; [apply added_notes|].
  split.
  { apply notes_of_json_app; [assumption|].
    cbn [notes_of_json]. now rewrite note_of_json_asdict. }
  split.
  - apply Forall_app. split.
    + eapply Forall_impl; [exact Hrange|]. cbn. intros; lia.
    + constructor; [|constructor]. cbn. lia.
  - rewrite map_app. apply NoDup_app. split; [assumption|].
    split; [|apply NoDup_singleton].
    intros x Hx Hx'. cbn in Hx'. apply list_elem_of_singleton in Hx'. subst x.
    apply list_elem_of_fmap in Hx as (n & Hn & Hin).
    rewrite Forall_forall in Hrange. specialize (Hrange n Hin). lia.
Qed.

Lemma delete_note_step (i : Z) (f : gmap path string) (k : Z) :
  store_inv (ensured f) k ->
  exists b f2, delete_note i f = (Ok b, f2) /\ store_inv f2 k.
Proof.
  intros Hinv. pose proof Hinv as Hinv0.
  destruct Hinv as (Hk & m & l & ns & Hl & Hnext & Hnotes & Hns & Hrange & Hnd).
  rewrite load_store_ensured in Hl.
  assert (Hln : list_notes f = (Ok ns, ensured f)).
  { eapply list_notes_intro; [exact Hl | now rewrite Hnotes | exact Hns]. }
  destruct (delete_note_typed i f _ ns Hln) as (m' & Hl' & Hcase).
  rewrite Hl in Hl'. injection Hl' as <-.
  destruct Hcase as [[Hall Hd] | [Hex (l' & Hd & Hwf & Hn & Hln2)]].
  - exists false, (ensured f). split; assumption.
  - eexists true, _. split; [exact Hd|]. split; [assumption|].
    exists (dict_set "notes" (JArr l') m), l',
      (filter (fun n => id n <> i) ns).
    split; [now apply load_store_saved|].
    split; [now rewrite dict_get_set_ne by discriminate|].
    split; [apply dict_get_set_eq|]. split; [assumption|].
    split.
    + apply Forall_forall. intros n Hin.
      apply list_elem_of_filter in Hin as [_ Hin].
      rewrite Forall_forall in Hrange. now apply Hrange.
    + eapply sublist_NoDup; [exact Hnd|].
      apply (fmap_sublist id), sublist_filter.
Qed.

Lemma run_inv (strip : string -> string) (calls : list call) :
  forall (f : gmap path string) (k : Z),
    store_inv (ensured f) k ->
    exists f2,
      run strip calls f
      = (Ok (seqZ (k + 1) (Z.of_nat (count_adds calls))), f2)
      /\ store_inv (ensured f2) (k + Z.of_nat (count_adds calls)).
Proof.
  induction calls as [|[now t b g | i] calls IH]; intros f k Hinv.
  - exists f. split; [reflexivity|]. cbn [count_adds].
    now replace (k + Z.of_nat 0) with k by lia.
  - destruct (add_note_step strip now t b g f k Hinv)
      as (note & f2 & Hadd & Hid & Hinv2).
    rewrite <- (store_inv_ensured _ _ Hinv2) in Hinv2.
    destruct (IH f2 (k + 1) Hinv2) as (f3 & Hrun & Hinv3).
    exists f3. cbn [run count_adds].
    rewrite (bind_eq _ _ _ _ _ Hadd), (bind_eq _ _ _ _ _ Hrun).
    split.
    + unfold ret. rewrite Hid. f_equal. f_equal.
      rewrite (seqZ_cons (k + 1)) by lia. f_equal. f_equal; lia.
    + now replace (k + Z.of_nat (S (count_adds calls)))
        with (k + 1 + Z.of_nat (count_adds calls)) by lia.
  - destruct (delete_note_step i f k Hinv) as (b & f2 & Hdel & Hinv2).
    rewrite <- (store_inv_ensured _ _ Hinv2) in Hinv2.
    destruct (IH f2 k Hinv2) as (f3 & Hrun & Hinv3).
    exists f3. cbn [run count_adds].
    now rewrite (bind_eq _ _ _ _ _ Hdel).
Qed.

(** C2. Start from the initial store (no store file yet, or the file
    [ensure_store] writes) and make any calls of [add_note] and
    [delete_note].  After every call of the session, the ids that
    [add_note] has returned so far are [1, 2, ..., k] in this order,
    so each is the previous one plus one and none is used twice, whatever
    was deleted in between; the counter of the store is [k + 1]; every
    note of the store carries one of the ids that were assigned; and
    the counter is greater than all of them. *)
Theorem ids_increase_never_reused (strip : string -> string)
    (calls : list call) (f0 : gmap path string) (j : nat) :
  f0 !! NOTES_FILE = None \/ f0 !! NOTES_FILE = Some (dumps initial_store) ->
  let k := Z.of_nat (count_adds (take j calls)) in
  exists (f : gmap path string) (ids : list Z),
    run strip (take j calls) f0 = (Ok ids, f)
    /\ ids = seqZ 1 k
    /\ NoDup ids
    /\ (forall p a b, ids !! p = Some a -> ids !! S p = Some b -> b = a + 1)
    /\ exists (m : list (string * json)) (ns : list Note)
              (f' : gmap path string),
        load_store f = (Ok (JObj m), f')
        /\ dict_get "next_id" m = Some (JInt (k + 1))
        /\ list_notes f = (Ok ns, f')
        /\ NoDup (map id ns)
        /\ Forall (fun n => id n ∈ ids) ns
        /\ Forall (fun i => i < k + 1) ids.
Proof.
  intros Hinit k.
  destruct (run_inv strip (take j calls) f0 0 (store_inv_initial f0 Hinit))
    as (f & Hrun & Hinv).
  fold k in Hrun, Hinv. cbn [Z.add] in Hrun.
  exists f, (seqZ 1 k). split; [exact Hrun|]. split; [reflexivity|].
  split; [apply NoDup_seqZ|]. split.
  { intros p a b Ha Hb. apply lookup_seqZ in Ha as [-> _].
    apply lookup_seqZ in Hb as [-> _]. lia. }
  destruct Hinv as (Hk & m & l & ns & Hl & Hnext & Hnotes & Hns & Hrange & Hnd).
  rewrite load_store_ensured in Hl.
  exists m, ns, (ensured f). split; [exact Hl|].
  split; [now replace (k + 1) with (0 + k + 1) by lia|].
  split.
  { eapply list_notes_intro; [exact Hl | now rewrite Hnotes | exact Hns]. }
  split; [exact Hnd|]. split.
  - eapply Forall_impl; [exact Hrange|]. cbn. intros n Hn.
    apply elem_of_seqZ. lia.
  - apply Forall_forall. intros i Hi. apply elem_of_seqZ in Hi. lia.
Qed.

(** ** Store persistence, further properties *)

(** X2. [load_store] on a missing store file creates the file and
    returns the initial store.  On a store file that exists it returns
    what [json.load] makes of the text, an error included, and leaves
    every file as it was. *)
Theorem load_store_cases (f : gmap path string) :
  (f !! NOTES_FILE = None ->
   load_store f
   = (Ok initial_store, <[NOTES_FILE := dumps initial_store]> f))
  /\ (forall t, f !! NOTES_FILE = Some t -> load_store f = (loads t, f)).
Proof.
  split.
  - intros Hnone. rewrite load_store_eq, Hnone. unfold ensured.
    rewrite Hnone. reflexivity.
  - intros t Ht. rewrite load_store_eq, Ht.
    now rewrite (ensured_present _ _ Ht).
Qed.

Lemma loads_blank (t : string) :
  skip_ws t = "" -> loads t = Raise JSONDecodeError.
Proof. intros H. unfold loads. rewrite H. now rewrite Nat.add_comm. Qed.

Lemma bind_raise {A B} (m : M A) (k : A -> M B) f e f1 :
  m f = (Raise e, f1) -> bind m k f = (Raise e, f1).
Proof. intros Hm. unfold bind. now rewrite Hm. Qed.

(** X3. An exception of [load_store] is the exception of every
    operation: adding, listing, finding, deleting, searching, exporting
    and the [view] and [delete] commands raise the same exception, and
    none of them writes a file after the failed load. *)
Theorem unreadable_store_stops_everything (strip lower : string -> string)
    (f : gmap path string) (e : exn) :
  (load_store f).1 = Raise e ->
  forall (now : datetime) (title0 body0 query fmt : string)
         (tags0 : option (list string)) (i : Z) (out : path),
    add_note strip now title0 body0 tags0 f = (Raise e, ensured f)
    /\ list_notes f = (Raise e, ensured f)
    /\ find_note i f = (Raise e, ensured f)
    /\ delete_note i f = (Raise e, ensured f)
    /\ search_notes lower query f = (Raise e, ensured f)
    /\ export_notes out fmt f = (Raise e, ensured f)
    /\ main (View i) f = (Raise e, ensured f)
    /\ main (Delete i) f = (Raise e, ensured f).
Proof.
  intros Hl now title0 body0 query fmt tags0 i out.
  assert (Hl' : load_store f = (Raise e, ensured f)).
  { rewrite load_store_eq in *. cbn [fst] in Hl. now rewrite Hl. }
  assert (Hln : list_notes f = (Raise e, ensured f)).
  { unfold list_notes. now apply bind_raise. }
  assert (Hfind : find_note i f = (Raise e, ensured f)).
  { unfold find_note. now apply bind_raise. }
  assert (Hdel : delete_note i f = (Raise e, ensured f)).
  { unfold delete_note. now apply bind_raise. }
  repeat split; try assumption.
  - unfold add_note. now apply bind_raise.
  - unfold search_notes. now apply bind_raise.
  - unfold export_notes. now apply bind_raise.
  - cbn [main]. now apply bind_raise.
  - cbn [main]. now apply bind_raise.
Qed.

(** X4. A store file that is empty or holds nothing but white space
    makes [load_store] raise [JSONDecodeError]; the file is not
    repaired. *)
Theorem blank_store_file_raises (f : gmap path string) (t : string) :
  f !! NOTES_FILE = Some t -> skip_ws t = "" ->
  load_store f = (Raise JSONDecodeError, f).
Proof.
  intros Ht Hblank.
  rewrite load_store_eq, Ht, (ensured_present _ _ Ht). cbn [default from_option].
  now rewrite loads_blank.
Qed.

(** X5. [save_store] followed by [load_store] returns the saved value,
    for every JSON value whose dictionaries have distinct keys.  After
    the call the temporary file is gone, also when one was there before,
    and no file other than these two has changed. *)
Theorem save_then_load (data : json) (f : gmap path string) :
  wf_json data ->
  exists f1 : gmap path string,
    save_store data f = (Ok tt, f1)
    /\ load_store f1 = (Ok data, f1)
    /\ f1 !! NOTES_FILE = Some (dumps data)
    /\ f1 !! tmp_file = None
    /\ (forall p : path, p <> NOTES_FILE -> p <> tmp_file ->
                         f1 !! p = f !! p).
Proof.
  intros Hwf. exists (saved data f). split; [apply save_store_eq|].
  split; [now apply load_store_saved|]. split; [apply saved_lookup|].
  unfold saved. split.
  - rewrite lookup_insert_ne by (intros H; now apply tmp_file_ne).
    apply lookup_delete_eq.
  - intros p Hn Ht. rewrite lookup_insert_ne by congruence.
    now rewrite lookup_delete_ne by congruence.
Qed.

(** ** [add_note], further properties *)

(** What [add_note] did when it returned a note. *)
Lemma add_note_inv (strip : string -> string) (now : datetime)
    (title0 body0 : string) (tags0 : option (list string))
    (f f2 : gmap path string) (note : Note) :
  add_note strip now title0 body0 tags0 f = (Ok note, f2) ->
  exists m l i,
    load_store f = (Ok (JObj m), ensured f)
    /\ dict_get "notes" m = Some (JArr l)
    /\ default (JInt 1) (dict_get "next_id" m) = JInt i
    /\ note = new_note strip now title0 body0 tags0 i
    /\ f2 = saved (JObj (added note l m)) (ensured f).
Proof.
  unfold add_note. intros H.
  apply bind_ok in H as (data & f1 & Hl & H).
  pose proof (load_store_fs _ _ _ Hl) as ->.
  apply bind_ok in H as (m & f1 & Hm & H). apply lift_ok in Hm as [Hm ->].
  apply bind_ok in H as (l & f1 & Hnotes & H).
  apply lift_ok in Hnotes as [Hnotes ->].
  apply bind_ok in H as (i & f1 & Hi & H). apply lift_ok in Hi as [Hi ->].
  rewrite (bind_eq _ _ _ tt _ (save_store_eq _ _)) in H.
  injection H as <- <-.
  destruct data; try discriminate. injection Hm as ->.
  exists m, l, i. split; [assumption|].
  split.
  { destruct (dict_get "notes" m) as [[]|]; try discriminate.
    now injection Hnotes as ->. }
  split.
  { destruct (default (JInt 1) (dict_get "next_id" m)); try discriminate.
    now injection Hi as ->. }
  split; reflexivity.
Qed.

Lemma add_note_ok_default (strip : string -> string) (now : datetime)
    (title0 body0 : string) (tags0 : option (list string))
    (f f1 : gmap path string) (m : list (string * json)) (n : Z)
    (l : list json) :
  load_store f = (Ok (JObj m), f1) ->
  default (JInt 1) (dict_get "next_id" m) = JInt n ->
  dict_get "notes" m = Some (JArr l) ->
  let note := new_note strip now title0 body0 tags0 n in
  add_note strip now title0 body0 tags0 f
  = (Ok note, saved (JObj (added note l m)) f1).
Proof.
  intros Hl Hn Hnotes note. unfold add_note.
  rewrite (bind_eq _ _ _ _ _ Hl). unfold bind, lift. cbn [as_dict].
  rewrite Hn, Hnotes. rewrite save_store_eq. reflexivity.
Qed.

Lemma store_notes_wf (m : list (string * json)) (l : list json) :
  wf_json (JObj m) -> dict_get "notes" m = Some (JArr l) ->
  Forall wf_json l.
Proof.
  intros Hwf Hnotes. inversion Hwf as [| | | | |m' Hnd Hvals]; subst.
  pose proof (dict_get_forall wf_json _ _ _ Hvals Hnotes) as Hv.
  now inversion Hv.
Qed.

(** X7. The exceptions of [add_note] on a store file that is JSON but
    not a store: [AttributeError] when the document is not a dictionary
    or its ["notes"] is not a list, [KeyError] when ["notes"] is missing,
    [TypeError] when ["next_id"] is neither an integer nor a boolean.
    Nothing is saved in any of these cases. *)
Theorem add_note_errors (strip : string -> string) (now : datetime)
    (title0 body0 : string) (tags0 : option (list string))
    (f : gmap path string) (data : json) :
  (load_store f).1 = Ok data ->
  let r := add_note strip now title0 body0 tags0 f in
  ((forall m, data <> JObj m) -> r = (Raise AttributeError, ensured f))
  /\ forall m, data = JObj m ->
       (dict_get "notes" m = None -> r = (Raise KeyError, ensured f))
       /\ (forall v, dict_get "notes" m = Some v ->
                     (forall l, v <> JArr l) ->
                     r = (Raise AttributeError, ensured f))
       /\ (forall l v, dict_get "notes" m = Some (JArr l) ->
                       dict_get "next_id" m = Some v ->
                       (forall z, v <> JInt z) -> (forall b, v <> JBool b) ->
                       r = (Raise TypeError, ensured f)).
Proof.
  intros Hl r. apply load_store_fst in Hl.
  assert (Hr : r = bind (lift (as_dict data))
                 (fun m =>
                    let nid := default (JInt 1) (dict_get "next_id" m) in
                    let note i := new_note strip now title0 body0 tags0 i in
                    bind (lift (match dict_get "notes" m with
                                | None => Raise KeyError
                                | Some (JArr l) => Ok l
                                | Some _ => Raise AttributeError
                                end))
                      (fun notes =>
                         bind (lift (match nid with
                                     | JInt z => Ok z
                                     | JBool _ => Beyond
                                     | _ => Raise TypeError
                                     end))
                           (fun i =>
                              bind (save_store
                                      (JObj (added (note i) notes m)))
                                (fun _ => ret (note i))))) (ensured f)).
  { subst r. unfold add_note. now rewrite (bind_eq _ _ _ _ _ Hl). }
  split.
  - intros Hnd. rewrite Hr. unfold bind, lift.
    destruct data; try reflexivity. now destruct (Hnd m).
  - intros m ->. rewrite Hr. unfold bind, lift. cbn [as_dict].
    split; [now intros ->|]. split.
    + intros v -> Hv. destruct v; try reflexivity. now destruct (Hv l).
    + intros l v -> -> Hz Hb. cbn [from_option]. unfold Datatypes.id.
      destruct v; try reflexivity; [now destruct (Hb b) | now destruct (Hz z)].
Qed.

(** X8. On a store without ["next_id"] the note gets the id [1],
    whatever notes the store holds, and the saved store gains the key
    ["next_id"] with the value [2] after its other keys. *)
Theorem add_note_default_id (strip : string -> string) (now : datetime)
    (title0 body0 : string) (tags0 : option (list string))
    (f : gmap path string) (m : list (string * json)) (l : list json) :
  (load_store f).1 = Ok (JObj m) ->
  dict_get "next_id" m = None ->
  dict_get "notes" m = Some (JArr l) ->
  exists (note : Note) (f2 : gmap path string) (m2 : list (string * json)),
    add_note strip now title0 body0 tags0 f = (Ok note, f2)
    /\ id note = 1
    /\ load_store f2 = (Ok (JObj m2), f2)
    /\ m2 = dict_set "notes" (JArr (l ++ [asdict note])) m
            ++ [("next_id", JInt 2)].
Proof.
  intros Hl Hnext Hnotes. apply load_store_fst in Hl.
  pose proof (load_store_wf _ _ _ Hl) as Hwf.
  assert (Hwl : Forall wf_json l).
  { inversion Hwf as [| | | | |m' Hnd Hvals]; subst.
    pose proof (dict_get_forall wf_json _ _ _ Hvals Hnotes) as Hv.
    now inversion Hv. }
  set (note := new_note strip now title0 body0 tags0 1).
  exists note, (saved (JObj (added note l m)) (ensured f)), (added note l m).
  split; [apply add_note_ok_default; auto; now rewrite Hnext|].
  split; [reflexivity|].
  split; [apply load_store_saved; now apply wf_added|].
  unfold added. apply dict_set_fresh.
  intros Hin. apply list_elem_of_fmap in Hin as ([k v] & Hk & Hin).
  cbn in Hk. subst k.
  assert (Hsome : is_Some (dict_get "next_id"
            (dict_set "notes" (JArr (l ++ [asdict note])) m))).
  { clear - Hin. induction (dict_set "notes" _ m) as [|[k' v'] m' IH];
      [inversion Hin|]. cbn [dict_get].
    destruct (String.eqb_spec "next_id" k'); [eauto|].
    apply IH. apply elem_of_cons in Hin as [[= <- _]|Hin]; congruence. }
  rewrite dict_get_set_ne in Hsome by discriminate.
  rewrite Hnext in Hsome. now destruct Hsome.
Qed.

(** ** How the operations compose *)

Lemma wf_notes_doc (ns : list Note) :
  wf_json (JObj [("notes", JArr (map asdict ns))]).
Proof.
  constructor; [cbn; apply NoDup_singleton|].
  constructor; [|constructor]. cbn [snd]. constructor.
  induction ns as [|x ns IH]; cbn [map]; constructor;
    [apply wf_asdict | exact IH].
Qed.

(** X9. Exporting with the format [json] onto the store file itself
    leaves a store without counter: the notes are still listed, and the
    next note added gets the id [1], also when a listed note has it. *)
Theorem export_onto_store_resets_counter (strip : string -> string)
    (now : datetime) (title0 body0 : string) (tags0 : option (list string))
    (f : gmap path string) (ns : list Note) :
  (list_notes f).1 = Ok ns ->
  exists (f1 f2 : gmap path string) (note : Note),
    export_notes NOTES_FILE "json" f = (Ok NOTES_FILE, f1)
    /\ load_store f1 = (Ok (JObj [("notes", JArr (map asdict ns))]), f1)
    /\ add_note strip now title0 body0 tags0 f1 = (Ok note, f2)
    /\ id note = 1
    /\ list_notes f2 = (Ok (ns ++ [note]), f2).
Proof.
  intros Hln. apply list_notes_fst in Hln.
  set (doc := [("notes", JArr (map asdict ns))]).
  set (f1 := <[NOTES_FILE := dumps (JObj doc)]> (ensured f)).
  assert (Hl1 : load_store f1 = (Ok (JObj doc), f1)).
  { rewrite load_store_eq. unfold f1 at 1. rewrite lookup_insert_eq.
    cbn [from_option]. unfold Datatypes.id.
    rewrite loads_dumps by apply wf_notes_doc.
    f_equal. eapply ensured_present. apply lookup_insert_eq. }
  set (note := new_note strip now title0 body0 tags0 1).
  exists f1, (saved (JObj (added note (map asdict ns) doc)) f1), note.
  split; [now apply export_notes_json|]. split; [exact Hl1|].
  split; [now apply add_note_ok_default|]. split; [reflexivity|].
  eapply list_notes_saved.
  - apply wf_added; [apply wf_notes_doc|].
    clear. induction ns as [|x ns IH]; cbn [map]; constructor;
      [apply wf_asdict | exact IH].
  - apply added_notes.
  - apply notes_of_json_app; [apply notes_of_json_asdict|].
    cbn [notes_of_json]. now rewrite note_of_json_asdict.
Qed.

Lemma find_loop_app_new (i : Z) (ns : list Note) (n : Note) :
  Forall (fun x => id x <> i) ns -> id n = i ->
  find_loop i (ns ++ [n]) = Some n.
Proof.
  intros Hns Hn. induction Hns as [|x xs Hx Hxs IH]; cbn [app find_loop].
  - rewrite Hn, Z.eqb_refl. reflexivity.
  - destruct (Z.eqb_spec (id x) i); [contradiction | exact IH].
Qed.

(** X10. A note just added is found under the id [add_note] returned,
    when no older note has that id; deleting it returns [True] and
    brings the list of notes back to what it was, while the counter
    stays advanced, so that the id is not handed out again. *)
Theorem add_then_find_and_delete (strip : string -> string) (now : datetime)
    (title0 body0 : string) (tags0 : option (list string))
    (f : gmap path string) (m : list (string * json)) (n : Z)
    (l : list json) (ns : list Note) :
  (load_store f).1 = Ok (JObj m) ->
  dict_get "next_id" m = Some (JInt n) ->
  dict_get "notes" m = Some (JArr l) ->
  notes_of_json l = Ok ns ->
  Forall (fun x => id x <> n) ns ->
  exists (note : Note) (f2 f3 : gmap path string)
         (m3 : list (string * json)),
    add_note strip now title0 body0 tags0 f = (Ok note, f2)
    /\ find_note n f2 = (Ok (Some note), f2)
    /\ delete_note n f2 = (Ok true, f3)
    /\ list_notes f3 = (Ok ns, f3)
    /\ load_store f3 = (Ok (JObj m3), f3)
    /\ dict_get "next_id" m3 = Some (JInt (n + 1)).
Proof.
  intros Hl Hn Hnotes Hns Hfresh. apply load_store_fst in Hl.
  set (note := new_note strip now title0 body0 tags0 n).
  set (f2 := saved (JObj (added note l m)) (ensured f)).
  pose proof (load_store_wf _ _ _ Hl) as Hwf.
  pose proof (wf_added note l m Hwf (store_notes_wf _ _ Hwf Hnotes)) as Hwf2.
  assert (Hln : list_notes f2 = (Ok (ns ++ [note]), f2)).
  { eapply list_notes_saved; [exact Hwf2 | apply added_notes|].
    apply notes_of_json_app; [assumption|].
    cbn [notes_of_json]. now rewrite note_of_json_asdict. }
  destruct (delete_note_typed n f2 f2 (ns ++ [note]) Hln)
    as (m' & Hl' & Hcase).
  pose proof (load_store_saved _ (ensured f) Hwf2) as Hl2. fold f2 in Hl2.
  rewrite Hl2 in Hl'. injection Hl' as <-.
  assert (Hkept : filter (fun x => id x <> n) (ns ++ [note]) = ns).
  { rewrite filter_app, filter_all by exact Hfresh.
    rewrite filter_cons_False by (intros H; now apply H).
    apply app_nil_r. }
  rewrite Hkept in Hcase.
  destruct Hcase as [[Hall _] | [_ (l' & Hd & Hwf3 & Hn3 & Hln3)]].
  { exfalso. apply Forall_app in Hall as [_ Hall].
    inversion Hall as [|? ? Hne _]; subst. now apply Hne. }
  exists note, f2, (saved (JObj (dict_set "notes" (JArr l') (added note l m))) f2),
    (dict_set "notes" (JArr l') (added note l m)).
  split; [now apply add_note_ok|].
  split.
  { rewrite (find_note_eq n f2 f2 _ Hln).
    now rewrite (find_loop_app_new n ns note Hfresh eq_refl). }
  split; [exact Hd|]. split; [exact Hln3|].
  split; [now apply load_store_saved|].
  rewrite dict_get_set_ne by discriminate. apply added_next_id.
Qed.

(** X11. The tags of a note [add_note] returns: none is empty, each is
    the stripped form of a tag that was passed, and there are at most as
    many as were passed. *)
Theorem added_tags_nonempty (strip : string -> string) (now : datetime)
    (title0 body0 : string) (tags0 : option (list string))
    (f : gmap path string) (note : Note) :
  (add_note strip now title0 body0 tags0 f).1 = Ok note ->
  Forall (fun t => t <> "") (tags note)
  /\ (forall t, t ∈ tags note ->
                exists t0, t0 ∈ default [] tags0 /\ t = strip t0)
  /\ (length (tags note) <= length (default [] tags0))%nat.
Proof.
  intros H.
  destruct (add_note strip now title0 body0 tags0 f) as [r f2] eqn:E.
  cbn [fst] in H. subst r.
  destruct (add_note_inv _ _ _ _ _ _ _ _ E) as (m & l & i & _ & _ & _ & -> & _).
  cbn [tags new_note]. rewrite strip_tags_spec.
  split; [|split].
  - apply Forall_forall. intros t Ht.
    now apply list_elem_of_filter in Ht as [Ht _].
  - intros t Ht. apply list_elem_of_filter in Ht as [_ Ht].
    apply list_elem_of_fmap in Ht as (t0 & -> & Ht0). eauto.
  - etransitivity; [apply length_filter|]. now rewrite length_map.
Qed.

(** ** The readers, further properties *)

(** X12. On a store that is a dictionary without ["notes"], the readers
    take the list of notes to be empty: [list_notes] and [search_notes]
    return the empty list, [find_note] nothing, [delete_note] [False],
    all without writing; only [add_note] raises [KeyError]. *)
Theorem store_without_notes_is_empty (strip lower : string -> string)
    (f : gmap path string) (m : list (string * json)) :
  (load_store f).1 = Ok (JObj m) ->
  dict_get "notes" m = None ->
  forall (i : Z) (query : string) (now : datetime) (title0 body0 : string)
         (tags0 : option (list string)),
    list_notes f = (Ok [], ensured f)
    /\ find_note i f = (Ok None, ensured f)
    /\ delete_note i f = (Ok false, ensured f)
    /\ search_notes lower query f = (Ok [], ensured f)
    /\ add_note strip now title0 body0 tags0 f = (Raise KeyError, ensured f).
Proof.
  intros Hl Hnone i query now title0 body0 tags0. apply load_store_fst in Hl.
  assert (Hln : list_notes f = (Ok [], ensured f)).
  { eapply list_notes_intro; [exact Hl | now rewrite Hnone | reflexivity]. }
  split; [exact Hln|].
  split; [now rewrite (find_note_eq i _ _ _ Hln)|].
  split.
  { rewrite (delete_note_ok i f _ m [] [] Hl); [reflexivity | | reflexivity].
    now rewrite Hnone. }
  split; [now rewrite (search_notes_eq lower query _ _ _ Hln)|].
  unfold add_note. rewrite (bind_eq _ _ _ _ _ Hl). unfold bind, lift.
  cbn [as_dict]. now rewrite Hnone.
Qed.

Lemma dict_get_in (k : string) (v : json) (m : list (string * json)) :
  NoDup (map fst m) -> (k, v) ∈ m -> dict_get k m = Some v.
Proof.
  induction m as [|[k1 v1] m IH]; intros Hnd Hin; [inversion Hin|].
  cbn in Hnd. apply NoDup_cons in Hnd as [Hk1 Hnd]. cbn [dict_get].
  apply elem_of_cons in Hin as [[= -> ->]|Hin].
  - now rewrite String.eqb_refl.
  - destruct (String.eqb_spec k k1) as [->|_]; [|now apply IH].
    exfalso. apply Hk1. apply list_elem_of_fmap. now exists (k1, v).
Qed.

Lemma dict_get_some_in (k : string) (v : json) (m : list (string * json)) :
  dict_get k m = Some v -> (k, v) ∈ m.
Proof.
  induction m as [|[k1 v1] m IH]; cbn [dict_get]; [discriminate|].
  destruct (String.eqb_spec k k1) as [->|_].
  - intros [= ->]. left.
  - intros H. right. now apply IH.
Qed.

Lemma dict_get_perm (k : string) (m m' : list (string * json)) :
  NoDup (map fst m) -> m ≡ₚ m' -> dict_get k m' = dict_get k m.
Proof.
  intros Hnd Hp.
  assert (Hnd' : NoDup (map fst m')).
  { eapply NoDup_Permutation_proper; [|exact Hnd].
    symmetry. now apply fmap_Permutation. }
  destruct (dict_get k m) as [v|] eqn:E.
  - apply dict_get_in; [exact Hnd'|]. rewrite <- Hp.
    now apply dict_get_some_in.
  - destruct (dict_get k m') as [v|] eqn:E'; [|reflexivity].
    apply dict_get_some_in in E'. rewrite <- Hp in E'.
    apply (dict_get_in _ _ _ Hnd) in E'. congruence.
Qed.

(** X13. The constructor call of [list_notes] takes the fields by name:
    the order of the keys of a record in the store file does not
    matter. *)
Theorem note_of_json_any_key_order (m m' : list (string * json)) :
  NoDup (map fst m) -> m ≡ₚ m' ->
  note_of_json (JObj m') = note_of_json (JObj m).
Proof.
  intros Hnd Hp. unfold note_of_json, field, field_names.
  cbn [forallb]. rewrite (Permutation_length Hp).
  now rewrite !(dict_get_perm _ m m' Hnd Hp).
Qed.

(** X14. [asdict] followed by the constructor call of [list_notes]
    gives the note back, for one note and for a list of them; hence two
    notes with the same record are the same note. *)
Theorem note_record_roundtrip (ns : list Note) :
  notes_of_json (map asdict ns) = Ok ns
  /\ (forall n, note_of_json (asdict n) = Ok n)
  /\ (forall n n', asdict n = asdict n' -> n = n').
Proof.
  split; [apply notes_of_json_asdict|].
  split; [apply note_of_json_asdict|].
  intros n n' H. pose proof (note_of_json_asdict n) as Hn.
  rewrite H, note_of_json_asdict in Hn. now injection Hn.
Qed.

Lemma notes_of_json_bad (good : list json) (gs : list Note) (bad : json)
    (rest : list json) (e : exn) :
  notes_of_json good = Ok gs -> note_of_json bad = Raise e ->
  notes_of_json (good ++ bad :: rest) = Raise e.
Proof.
  revert gs. induction good as [|j good IH]; intros gs Hg Hb;
    cbn [app notes_of_json] in *.
  - now rewrite Hb.
  - apply rbind_ok in Hg as (x & Hx & Hg).
    apply rbind_ok in Hg as (xs & Hxs & _).
    rewrite Hx. cbn [rbind]. now rewrite (IH xs Hxs Hb).
Qed.

Lemma note_of_json_missing (m : list (string * json)) (k : string) :
  k ∈ field_names -> dict_get k m = None ->
  note_of_json (JObj m) = Raise TypeError.
Proof.
  intros Hk Hnone. cbn [note_of_json].
  destruct (forallb _ field_names) eqn:E;
    [|now rewrite andb_false_r].
  rewrite forallb_forall in E. apply list_elem_of_In in Hk.
  specialize (E k Hk). rewrite Hnone in E.
  apply bool_decide_eq_true in E. now destruct E.
Qed.

(** X15. A record of the store that is no dictionary, has a number of
    keys other than five, or lacks one of the five fields makes
    [list_notes] raise [TypeError], whichever well-formed records
    surround it; [find_note], [search_notes], [export_notes] and the
    [view] command raise it too, and the export writes no file. *)
Theorem malformed_record_raises_type_error (lower : string -> string)
    (f : gmap path string) (m : list (string * json))
    (good : list json) (gs : list Note) (bad : json) (rest : list json) :
  (load_store f).1 = Ok (JObj m) ->
  dict_get "notes" m = Some (JArr (good ++ bad :: rest)) ->
  notes_of_json good = Ok gs ->
  (forall mb, bad <> JObj mb)
  \/ (exists mb, bad = JObj mb
                 /\ (length mb <> 5%nat
                     \/ exists k, k ∈ field_names /\ dict_get k mb = None)) ->
  forall (i : Z) (query fmt : string) (out : path),
    list_notes f = (Raise TypeError, ensured f)
    /\ find_note i f = (Raise TypeError, ensured f)
    /\ search_notes lower query f = (Raise TypeError, ensured f)
    /\ export_notes out fmt f = (Raise TypeError, ensured f)
    /\ main (View i) f = (Raise TypeError, ensured f).
Proof.
  intros Hl Hnotes Hgood Hbad i query fmt out. apply load_store_fst in Hl.
  assert (Hb : note_of_json bad = Raise TypeError).
  { destruct Hbad as [Hnd | (mb & -> & [Hlen | (k & Hk & Hnone)])].
    - destruct bad; try reflexivity. now destruct (Hnd m0).
    - cbn [note_of_json].
      destruct (Nat.eqb_spec (length mb) 5); [contradiction | reflexivity].
    - eapply note_of_json_missing; eauto. }
  assert (Hln : list_notes f = (Raise TypeError, ensured f)).
  { unfold list_notes. rewrite (bind_eq _ _ _ _ _ Hl). unfold bind, lift.
    cbn [as_dict].
    assert (Hi : iter_json (default (JArr []) (dict_get "notes" m))
                 = Ok (good ++ bad :: rest)) by now rewrite Hnotes.
    now rewrite Hi, (notes_of_json_bad good gs bad rest TypeError Hgood Hb). }
  assert (Hfind : find_note i f = (Raise TypeError, ensured f)).
  { unfold find_note. now apply bind_raise. }
  repeat split; try assumption.
  - unfold search_notes. now apply bind_raise.
  - unfold export_notes. now apply bind_raise.
  - cbn [main]. now apply bind_raise.
Qed.

(** X16. The readers [load_store], [list_notes], [find_note] and
    [search_notes] never change or remove a file, whatever the store
    file holds and whether they succeed or not: the only change they can
    make is to create a missing store file with the initial store. *)
Theorem readers_never_write (lower : string -> string)
    (f : gmap path string) (i : Z) (query : string) :
  Forall (fun g : gmap path string =>
            (forall (p : path) (t : string),
                f !! p = Some t -> g !! p = Some t)
            /\ (forall p : path, p <> NOTES_FILE -> g !! p = f !! p)
            /\ (f !! NOTES_FILE = None ->
                g !! NOTES_FILE = Some (dumps initial_store)))
    [(load_store f).2; (list_notes f).2; (find_note i f).2;
     (search_notes lower query f).2].
Proof.
  assert (Hln : (list_notes f).2 = ensured f) by now rewrite list_notes_eq.
  assert (Hl : (load_store f).2 = ensured f) by now rewrite load_store_eq.
  assert (Hfind : (find_note i f).2 = ensured f).
  { unfold find_note, bind. destruct (list_notes f) as [[ns| |] f1];
      cbn [snd] in *; now subst. }
  assert (Hsearch : (search_notes lower query f).2 = ensured f).
  { unfold search_notes, bind. destruct (list_notes f) as [[ns| |] f1];
      cbn [snd] in *; now subst. }
  rewrite Hl, Hln, Hfind, Hsearch.
  assert (H : (forall (p : path) (t : string),
                  f !! p = Some t -> ensured f !! p = Some t)
              /\ (forall p : path, p <> NOTES_FILE ->
                                   ensured f !! p = f !! p)
              /\ (f !! NOTES_FILE = None ->
                  ensured f !! NOTES_FILE = Some (dumps initial_store))).
  { split; [|split].
    - intros p t Hp. unfold ensured.
      destruct (f !! NOTES_FILE) eqn:Hs; [exact Hp|].
      rewrite lookup_insert_ne; [exact Hp | congruence].
    - intros p Hp. unfold ensured.
      destruct (f !! NOTES_FILE); [reflexivity|].
      apply lookup_insert_ne. congruence.
    - intros Hnone. now rewrite ensured_lookup, Hnone. }
  repeat constructor; apply H.
Qed.

(** ** [delete_note], further properties *)

(** X17. Deleting the same id twice: the second call returns [False]
    and writes nothing, and the notes are those the first call left. *)
Theorem delete_note_twice (i : Z) (f : gmap path string) (ns : list Note) :
  (list_notes f).1 = Ok ns ->
  exists (b : bool) (f2 : gmap path string),
    delete_note i f = (Ok b, f2)
    /\ delete_note i f2 = (Ok false, f2)
    /\ list_notes f2 = (Ok (filter (fun n => id n <> i) ns), f2).
Proof.
  intros Hln. apply list_notes_fst in Hln.
  destruct (delete_note_typed i f _ ns Hln) as (m & Hl & Hcase).
  assert (Hstep : forall g ms, list_notes g = (Ok ms, g) ->
            Forall (fun n => id n <> i) ms ->
            delete_note i g = (Ok false, g)).
  { intros g ms Hg Hall.
    destruct (delete_note_typed i g g ms Hg) as (m' & _ & [[_ H]|[H _]]);
      [exact H | contradiction]. }
  destruct Hcase as [[Hall Hd] | [Hex (l' & Hd & Hwf & Hn & Hln2)]].
  - exists false, (ensured f). split; [exact Hd|].
    pose proof (list_notes_again _ _ _ Hln) as Hln'.
    split; [now apply (Hstep _ ns)|].
    now rewrite filter_all.
  - eexists true, _. split; [exact Hd|].
    split; [|exact Hln2].
    eapply Hstep; [exact Hln2 | apply filter_other_forall].
Qed.

Lemma keep_other_total (i : Z) (l : list json) :
  (Forall is_dict l -> exists l', keep_other i l = Ok l')
  /\ (~ Forall is_dict l -> keep_other i l = Raise AttributeError).
Proof.
  induction l as [|j l [IH1 IH2]]; cbn [keep_other].
  - split; [eauto|]. intros H. destruct H. constructor.
  - split.
    + intros H. inversion H as [|? ? (m & ->) Hl]; subst.
      destruct (IH1 Hl) as (l' & ->). cbn. eauto.
    + intros H. destruct j; try reflexivity. cbn [as_dict rbind].
      rewrite IH2; [reflexivity|].
      intros Hl. apply H. constructor; [now exists m | exact Hl].
Qed.

(** X18. [delete_note] asks less of the store than [list_notes]: it
    returns whenever every item of ["notes"] is a dictionary, whatever
    its keys, and raises [AttributeError], saving nothing, as soon as
    one item is not. *)
Theorem delete_note_needs_only_dicts (i : Z) (f : gmap path string)
    (m : list (string * json)) (l : list json) :
  (load_store f).1 = Ok (JObj m) ->
  dict_get "notes" m = Some (JArr l) ->
  (Forall is_dict l ->
   exists (b : bool) (f2 : gmap path string), delete_note i f = (Ok b, f2))
  /\ (~ Forall is_dict l ->
      delete_note i f = (Raise AttributeError, ensured f)).
Proof.
  intros Hl Hnotes. apply load_store_fst in Hl.
  destruct (keep_other_total i l) as [Hok Hbad].
  assert (Hi : iter_json (default (JArr []) (dict_get "notes" m)) = Ok l)
    by now rewrite Hnotes.
  split.
  - intros Hall. destruct (Hok Hall) as (l' & Hk).
    rewrite (delete_note_ok i f _ m l l' Hl Hi Hk).
    destruct (_ =? _)%nat; eauto.
  - intros Hall. unfold delete_note. rewrite (bind_eq _ _ _ _ _ Hl).
    unfold bind, lift. cbn [as_dict]. rewrite Hi, (Hbad Hall). reflexivity.
Qed.

(** ** [search_notes], further properties *)

Lemma contains_trans (a b c : string) :
  contains a b -> contains b c -> contains a c.
Proof.
  intros (p1 & s1 & ->) (p2 & s2 & ->).
  exists (p2 +:+ p1), (s1 +:+ s2). now rewrite !app_assoc_s.
Qed.

Lemma Matches_weaken (lower : string -> string) (q1 q2 : string) (n : Note) :
  contains (lower q1) (lower q2) -> Matches lower q2 n -> Matches lower q1 n.
Proof.
  intros Hc [H | [H | (t & Ht & H)]].
  - left. eauto using contains_trans.
  - right. left. eauto using contains_trans.
  - right. right. exists t. eauto using contains_trans.
Qed.

Lemma filter_sublist_impl {A} (P Q : A -> Prop)
    `{!forall x, Decision (P x)} `{!forall x, Decision (Q x)} (l : list A) :
  (forall x, P x -> Q x) -> sublist (filter P l) (filter Q l).
Proof.
  intros Himp. induction l as [|x l IH]; [constructor|].
  destruct (decide (P x)) as [Hp|Hp].
  - rewrite (filter_cons_True P) by exact Hp.
    rewrite (filter_cons_True Q) by auto. now constructor.
  - rewrite (filter_cons_False P) by exact Hp.
    destruct (decide (Q x)) as [Hq|Hq].
    + rewrite (filter_cons_True Q) by exact Hq. now constructor.
    + now rewrite (filter_cons_False Q) by exact Hq.
Qed.

(** X19. A query that contains another one, after lowercasing, finds a
    sub-list of what the other finds, in the same order; two queries
    that are equal after lowercasing find the same notes. *)
Theorem search_longer_query_finds_less (lower : string -> string)
    (q1 q2 : string) (f : gmap path string) (ns : list Note) :
  (list_notes f).1 = Ok ns ->
  contains (lower q1) (lower q2) ->
  exists r1 r2 : list Note,
    search_notes lower q1 f = (Ok r1, ensured f)
    /\ search_notes lower q2 f = (Ok r2, ensured f)
    /\ sublist r2 r1
    /\ (lower q1 = lower q2 -> r1 = r2).
Proof.
  intros Hln Hc. apply list_notes_fst in Hln.
  exists (filter (Matches lower q1) ns), (filter (Matches lower q2) ns).
  split; [now apply search_notes_eq|]. split; [now apply search_notes_eq|].
  split.
  - apply filter_sublist_impl. intros n. now apply Matches_weaken.
  - intros Heq. apply list_filter_iff. intros n. unfold Matches.
    now rewrite Heq.
Qed.

(** ** [export_notes], further properties *)

Lemma md_document_app (a b : list Note) :
  md_document (a ++ b) = md_document a +:+ md_document b.
Proof.
  induction a as [|n a IH]; cbn [app md_document]; [reflexivity|].
  now rewrite IH, app_assoc_s.
Qed.

Lemma md_section_head (n : Note) :
  exists r, md_section n = String "#" (String " " r).
Proof. unfold md_section. norm_str. eauto. Qed.

Lemma export_notes_eq (out : path) (fmt : string) (f f1 : gmap path string)
    (ns : list Note) :
  list_notes f = (Ok ns, f1) ->
  export_notes out fmt f
  = (Ok out,
     <[out := if String.eqb fmt "md" then md_document ns
              else dumps (JObj [("notes", JArr (map asdict ns))])]> f1).
Proof.
  intros Hln. unfold export_notes. rewrite (bind_eq _ _ _ _ _ Hln).
  unfold bind, exec, ret. now rewrite run_write_text.
Qed.




Lemma loads_md_document (ns : list Note) :
  loads (md_document ns) = Raise JSONDecodeError.
Proof.
  destruct ns as [|n ns]; [reflexivity|]. cbn [md_document].
  destruct (md_section_head n) as (r & ->). unfold loads. norm_str.
  rewrite Nat.add_comm. reflexivity.
Qed.

(** X21. An export with the format [md] onto the store file destroys
    the store: the Markdown text is no JSON document, whatever the
    notes, so every later [load_store], [list_notes] and [add_note]
    raises [JSONDecodeError]. *)
Theorem export_md_onto_store_breaks_it (strip lower : string -> string)
    (f : gmap path string) (ns : list Note) :
  (list_notes f).1 = Ok ns ->
  exists f2 : gmap path string,
    export_notes NOTES_FILE "md" f = (Ok NOTES_FILE, f2)
    /\ f2 !! NOTES_FILE = Some (md_document ns)
    /\ load_store f2 = (Raise JSONDecodeError, f2)
    /\ list_notes f2 = (Raise JSONDecodeError, f2)
    /\ forall (now : datetime) (title0 body0 : string)
              (tags0 : option (list string)),
        add_note strip now title0 body0 tags0 f2
        = (Raise JSONDecodeError, f2).
Proof.
  intros Hln. apply list_notes_fst in Hln.
  set (f2 := <[NOTES_FILE := md_document ns]> (ensured f)).
  assert (Hf2 : f2 !! NOTES_FILE = Some (md_document ns))
    by apply lookup_insert_eq.
  assert (Hl : load_store f2 = (Raise JSONDecodeError, f2)).
  { rewrite load_store_eq, Hf2, (ensured_present _ _ Hf2).
    cbn [default from_option]. unfold Datatypes.id.
    now rewrite loads_md_document. }
  exists f2. split; [now rewrite (export_notes_eq _ _ _ _ _ Hln)|].
  split; [exact Hf2|]. split; [exact Hl|].
  split; [unfold list_notes; now apply bind_raise|].
  intros now title0 body0 tags0. unfold add_note. now apply bind_raise.
Qed.

(** X22. The Markdown export is the concatenation of one section per
    note in stored order: after [add_note] the export is the previous
    export followed by the section of the new note, which starts with
    the heading line of its title and id. *)
Theorem export_md_after_add (strip : string -> string) (now : datetime)
    (title0 body0 : string) (tags0 : option (list string)) (out : path)
    (f : gmap path string) (m : list (string * json)) (n : Z)
    (l : list json) (ns : list Note) :
  (load_store f).1 = Ok (JObj m) ->
  dict_get "next_id" m = Some (JInt n) ->
  dict_get "notes" m = Some (JArr l) ->
  notes_of_json l = Ok ns ->
  exists (note : Note) (f2 f3 f4 : gmap path string),
    add_note strip now title0 body0 tags0 f = (Ok note, f2)
    /\ export_notes out "md" f = (Ok out, f3)
    /\ f3 !! out = Some (md_document ns)
    /\ export_notes out "md" f2 = (Ok out, f4)
    /\ f4 !! out = Some (md_document ns +:+ md_section note)
    /\ exists r, md_section note
                 = "# " +:+ strip title0 +:+ " (id=" +:+ int_repr n +:+ ")"
                   +:+ String c_nl "" +:+ r.
Proof.
  intros Hl Hn Hnotes Hns. apply load_store_fst in Hl.
  set (note := new_note strip now title0 body0 tags0 n).
  assert (Hwf : wf_json (JObj m)) by (eapply load_store_wf; eauto).
  assert (Hln : list_notes f = (Ok ns, ensured f)).
  { eapply list_notes_intro; [exact Hl | now rewrite Hnotes | exact Hns]. }
  assert (Hln2 : list_notes (saved (JObj (added note l m)) (ensured f))
                 = (Ok (ns ++ [note]),
                    saved (JObj (added note l m)) (ensured f))).
  { eapply list_notes_saved.
    - apply wf_added; [exact Hwf|]. eapply store_notes_wf; eauto.
    - apply added_notes.
    - apply notes_of_json_app; [exact Hns|].
      cbn [notes_of_json]. now rewrite note_of_json_asdict. }
  eexists note, _, _, _.
  split; [apply (add_note_ok strip now title0 body0 tags0 _ _ _ _ _ Hl Hn Hnotes)|].
  split; [apply (export_notes_eq _ _ _ _ _ Hln)|].
  split; [now rewrite lookup_insert_eq|].
  split; [apply (export_notes_eq _ _ _ _ _ Hln2)|].
  split.
  - rewrite lookup_insert_eq. cbn [String.eqb Ascii.eqb Bool.eqb].
    rewrite md_document_app. cbn [md_document]. now rewrite app_nil_r_s.
  - unfold md_section. cbn [title id note new_note]. norm_str. eauto.
Qed.

(** ** The first run *)

Lemma load_store_fresh (f : gmap path string) :
  f !! NOTES_FILE = None ->
  load_store f
  = (Ok initial_store, <[NOTES_FILE := dumps initial_store]> f).
Proof.
  intros Hnone. rewrite load_store_eq, Hnone. unfold ensured.
  rewrite Hnone. reflexivity.
Qed.

(** X23. The first run, without a store file: every reader creates the
    initial store and reports no note, the [view] command ends with the
    exit code [1] and the [delete] command with [0]; [add_note] returns
    the id [1] and leaves a store that lists just that note.  Files
    other than the store and the temporary file are not touched. *)
Theorem fresh_home_first_run (strip lower : string -> string)
    (f : gmap path string) :
  f !! NOTES_FILE = None ->
  let f1 := <[NOTES_FILE := dumps initial_store]> f in
  forall (i : Z) (query : string) (now : datetime) (title0 body0 : string)
         (tags0 : option (list string)),
    list_notes f = (Ok [], f1)
    /\ find_note i f = (Ok None, f1)
    /\ delete_note i f = (Ok false, f1)
    /\ search_notes lower query f = (Ok [], f1)
    /\ main (View i) f
       = (Ok (1, print ("Note " +:+ int_repr i +:+ " not found")), f1)
    /\ main (Delete i) f = (Ok (0, print "Note not found."), f1)
    /\ exists (note : Note) (f2 : gmap path string),
        add_note strip now title0 body0 tags0 f = (Ok note, f2)
        /\ id note = 1
        /\ list_notes f2 = (Ok [note], f2)
        /\ (forall p : path, p <> NOTES_FILE -> p <> tmp_file ->
                             f2 !! p = f !! p).
Proof.
  intros Hnone f1 i query now title0 body0 tags0.
  pose proof (load_store_fresh f Hnone) as Hl. fold f1 in Hl.
  assert (Hln : list_notes f = (Ok [], f1)).
  { eapply list_notes_intro; [exact Hl | reflexivity | reflexivity]. }
  assert (Hdel : delete_note i f = (Ok false, f1)).
  { now rewrite (delete_note_ok i f f1 _ [] [] Hl). }
  split; [exact Hln|].
  split; [now rewrite (find_note_eq i _ _ _ Hln)|].
  split; [exact Hdel|].
  split; [now rewrite (search_notes_eq lower query _ _ _ Hln)|].
  split; [now rewrite (main_view_eq i _ _ _ Hln)|].
  split; [cbn [main]; now rewrite (bind_eq _ _ _ _ _ Hdel)|].
  set (note := new_note strip now title0 body0 tags0 1).
  eexists note, _.
  split.
  { apply (add_note_ok strip now title0 body0 tags0 f f1 _ 1 [] Hl);
      reflexivity. }
  split; [reflexivity|].
  split.
  - eapply list_notes_saved.
    + apply wf_added; [|constructor].
      eapply load_store_wf. exact Hl.
    + apply added_notes.
    + cbn [app notes_of_json]. now rewrite note_of_json_asdict.
  - intros p Hp Ht. unfold saved, f1.
    rewrite lookup_insert_ne by congruence.
    rewrite lookup_delete_ne by congruence.
    now rewrite lookup_insert_ne by congruence.
Qed.

(** ** The [list] sub-command *)

Lemma existsb_eqb_elem (t : string) (l : list string) :
  existsb (String.eqb t) l = true <-> t ∈ l.
Proof.
  rewrite existsb_exists. setoid_rewrite <- list_elem_of_In. split.
  - intros (x & Hx & E). apply String.eqb_eq in E. now subst.
  - intros H. exists t. split; [exact H | apply String.eqb_refl].
Qed.

Lemma filter_tag_spec (t : string) (ns : list Note) :
  List.filter (fun n => existsb (String.eqb t) (tags n)) ns
  = filter (fun n => t ∈ tags n) ns.
Proof.
  induction ns as [|n ns IH]; [reflexivity|]. cbn [List.filter].
  destruct (existsb (String.eqb t) (tags n)) eqn:E.
  - rewrite filter_cons_True by now apply existsb_eqb_elem. now f_equal.
  - rewrite filter_cons_False; [exact IH|].
    intros H. apply existsb_eqb_elem in H. congruence.
Qed.

(** X24. The [list] command always ends with the exit code [0].  With a
    non-empty value of [--tags] it shows the notes that carry exactly
    that tag, in stored order; an empty value filters nothing.  It
    prints [No notes yet.] exactly when nothing is shown, also when the
    store holds notes that lack the tag. *)
Theorem main_list_spec (tag : option string) (f : gmap path string)
    (ns : list Note) :
  (list_notes f).1 = Ok ns ->
  main_list tag f
  = (Ok (0, if decide (shown tag ns = []) then print "No notes yet."
            else list_lines (shown tag ns)), ensured f)
  /\ sublist (shown tag ns) ns
  /\ (forall n, n ∈ shown tag ns ->
        n ∈ ns /\ forall t, tag = Some t -> t <> "" -> t ∈ tags n)
  /\ (shown tag ns <> [] -> list_lines (shown tag ns) <> print "No notes yet.").
Proof.
  intros Hln. apply list_notes_fst in Hln.
  split; [|split; [|split]].
  - unfold main_list. rewrite (bind_eq _ _ _ _ _ Hln).
    assert (E : match tag with
                | Some (String _ _ as t) =>
                    List.filter (fun n => existsb (String.eqb t) (tags n)) ns
                | _ => ns
                end = shown tag ns).
    { unfold shown. destruct tag as [[|c t]|]; try reflexivity.
      rewrite decide_False by discriminate. apply filter_tag_spec. }
    rewrite E. destruct (shown tag ns) as [|n l]; reflexivity.
  - unfold shown. destruct tag as [t|]; [|reflexivity].
    destruct (decide (t = "")); [reflexivity | apply sublist_filter].
  - intros n Hn. unfold shown in Hn. destruct tag as [t|].
    + destruct (decide (t = "")) as [->|Hne].
      * split; [exact Hn|]. now intros t [= <-].
      * apply list_elem_of_filter in Hn as [Ht Hn].
        split; [exact Hn|]. now intros t' [= <-].
    + split; [exact Hn | discriminate].
  - destruct (shown tag ns) as [|n l]; [congruence|]. intros _.
    cbn [list_lines]. unfold print. norm_str. discriminate.
Qed.

(** ** The [add] sub-command *)

Lemma split_comma_nonempty (s : string) : split_comma s <> [].
Proof.
  destruct s as [|c r]; cbn [split_comma]; [discriminate|].
  destruct (Ascii.eqb c ","); [discriminate|].
  destruct (split_comma r); discriminate.
Qed.

Lemma join_cons (sep x : string) (l : list string) :
  l <> [] -> join sep (x :: l) = x +:+ sep +:+ join sep l.
Proof. destruct l; [congruence | reflexivity]. Qed.

Lemma join_comma_head (c : ascii) (x : string) (l : list string) :
  join "," (String c x :: l) = String c (join "," (x :: l)).
Proof. destruct l; reflexivity. Qed.

Lemma join_split_comma (s : string) : join "," (split_comma s) = s.
Proof.
  induction s as [|c r IH]; [reflexivity|]. cbn [split_comma].
  destruct (Ascii.eqb_spec c ",") as [->|Hc].
  - rewrite join_cons by apply split_comma_nonempty.
    rewrite IH. reflexivity.
  - pose proof (split_comma_nonempty r) as Hne.
    destruct (split_comma r) as [|x l]; [congruence|].
    rewrite join_comma_head. now f_equal.
Qed.

Lemma split_comma_pieces (s : string) :
  Forall (fun p => ~ has_char "," p) (split_comma s).
Proof.
  induction s as [|c r IH]; cbn [split_comma].
  - constructor; [intros []|constructor].
  - destruct (Ascii.eqb_spec c ",") as [->|Hc].
    + constructor; [intros []|exact IH].
    + destruct (split_comma r) as [|x l].
      * constructor; [|constructor]. intros [H|[]]. congruence.
      * inversion IH as [|? ? Hx Hl]; subst. constructor; [|exact Hl].
        intros [H|H]; [congruence | now apply Hx].
Qed.

Lemma split_comma_length (s : string) :
  length (split_comma s) = S (count_commas s).
Proof.
  induction s as [|c r IH]; [reflexivity|]. cbn [split_comma count_commas].
  destruct (Ascii.eqb c ","); cbn [length]; [now f_equal|].
  pose proof (split_comma_nonempty r) as Hne.
  destruct (split_comma r) as [|x l]; [congruence|]. exact IH.
Qed.

Lemma split_comma_piece (p : string) (rest : list string) :
  ~ has_char "," p ->
  split_comma (p +:+ String "," "" +:+ join "," rest)
  = p :: split_comma (join "," rest).
Proof.
  intros Hp. induction p as [|c p IHp].
  - rewrite app_nil_l_s, app_cons_s, app_nil_l_s. cbn [split_comma].
    change (Ascii.eqb "," ",") with true. reflexivity.
  - rewrite app_cons_s. cbn [split_comma].
    destruct (Ascii.eqb_spec c ",") as [->|Hc].
    + exfalso. apply Hp. now left.
    + rewrite IHp; [reflexivity|]. intros H. apply Hp. now right.
Qed.

Lemma split_comma_single (p : string) :
  ~ has_char "," p -> split_comma p = [p].
Proof.
  intros Hp. induction p as [|c p IHp]; [reflexivity|]. cbn [split_comma].
  destruct (Ascii.eqb_spec c ",") as [->|Hc].
  - exfalso. apply Hp. now left.
  - rewrite IHp; [reflexivity|]. intros H. apply Hp. now right.
Qed.

Lemma split_comma_join (l : list string) :
  l <> [] -> Forall (fun p => ~ has_char "," p) l ->
  split_comma (join "," l) = l.
Proof.
  induction l as [|p l IH]; [congruence|]. intros _ Hall.
  inversion Hall as [|? ? Hp Hl]; subst.
  destruct l as [|q l].
  - now apply split_comma_single.
  - rewrite join_cons by discriminate.
    rewrite (split_comma_piece p (q :: l) Hp).
    now rewrite IH by (discriminate || assumption).
Qed.

(** X25. The splitting of the value of [--tags] at commas loses
    nothing: the pieces joined by commas are the text, no piece holds a
    comma, there is one piece more than commas, and a list of
    comma-free pieces is recovered from its joined text. *)
Theorem split_comma_spec (s : string) :
  join "," (split_comma s) = s
  /\ Forall (fun p => ~ has_char "," p) (split_comma s)
  /\ length (split_comma s) = S (count_commas s)
  /\ (forall l : list string,
        l <> [] -> Forall (fun p => ~ has_char "," p) l ->
        split_comma (join "," l) = l).
Proof.
  split; [apply join_split_comma|]. split; [apply split_comma_pieces|].
  split; [apply split_comma_length | apply split_comma_join].
Qed.

(** X26. The [add] command ends with the exit code [0] and prints the
    id and the stripped title of the note that [add_note] returned for
    the comma-separated pieces of [--tags]; the note has at most one tag
    more than the value has commas. *)
Theorem main_add_spec (strip : string -> string) (now : datetime)
    (a_title a_body : string) (a_tags : option string)
    (f : gmap path string) (m : list (string * json)) (n : Z)
    (l : list json) :
  (load_store f).1 = Ok (JObj m) ->
  dict_get "next_id" m = Some (JInt n) ->
  dict_get "notes" m = Some (JArr l) ->
  exists (note : Note) (f2 : gmap path string),
    add_note strip now a_title a_body (Some (tag_pieces a_tags)) f
    = (Ok note, f2)
    /\ main_add strip now a_title a_body a_tags f
       = (Ok (0, "Added note id=" +:+ int_repr n +:+ " title=" +:+
                 strip a_title +:+ String c_nl ""), f2)
    /\ tags note
       = filter (fun t => t <> "") (map strip (tag_pieces a_tags))
    /\ (length (tags note) <= S (count_commas (default "" a_tags)))%nat.
Proof.
  intros Hl Hn Hnotes. apply load_store_fst in Hl.
  set (note := new_note strip now a_title a_body (Some (tag_pieces a_tags)) n).
  pose proof (add_note_ok strip now a_title a_body (Some (tag_pieces a_tags))
                _ _ _ _ _ Hl Hn Hnotes) as Hadd.
  cbn zeta in Hadd. fold note in Hadd.
  assert (Htags : tags note
                  = filter (fun t => t <> "") (map strip (tag_pieces a_tags))).
  { apply strip_tags_spec. }
  eexists note, _. split; [exact Hadd|]. split; [|split].
  - unfold main_add.
    assert (E1 : match a_tags with
                 | Some (String _ _ as s) => split_comma s
                 | _ => []
                 end = tag_pieces a_tags).
    { unfold tag_pieces. now destruct a_tags as [[|c s]|]. }
    assert (E2 : match a_body with EmptyString => "" | _ => a_body end
                 = a_body) by now destruct a_body.
    rewrite E1, E2, (bind_eq _ _ _ _ _ Hadd). unfold ret, print.
    cbn [id title note new_note]. now rewrite !app_assoc_s.
  - exact Htags.
  - rewrite Htags. etransitivity; [apply length_filter|].
    rewrite length_map. unfold tag_pieces.
    destruct a_tags as [s|]; cbn [length default from_option]; [|lia].
    destruct (decide (s = "")); cbn [length]; [lia|].
    unfold Datatypes.id.
    now rewrite split_comma_length.
Qed.

(* ===================================================================== *)
(** * Part III: the theorems at work                                      *)
(* ===================================================================== *)

(** The scenario of the specification: two notes are added to an empty
    store and get the ids 1 and 2; both are listed in that order; the
    first is deleted, the list keeps the second, and a second deletion
    finds nothing; the search ignores the case of the query. *)
Example scenario_crud :
  let a1 := add_note ascii_strip sample_now "Buy milk" "2%"
              (Some ["shopping"; "home"]) ∅ in
  let a2 := add_note ascii_strip sample_now "Walk dog" "" None a1.2 in
  let s1 := search_notes ascii_lower "MILK" a2.2 in
  let d1 := delete_note 1 a2.2 in
  let d2 := delete_note 1 d1.2 in
  a1.1 = Ok milk /\ a2.1 = Ok dog
  /\ (list_notes a2.2).1 = Ok [milk; dog]
  /\ s1.1 = Ok [milk]
  /\ d1.1 = Ok true /\ (list_notes d1.2).1 = Ok [dog]
  /\ d2.1 = Ok false.
Proof. vm_compute. repeat split. Qed.

Example isoformat_sample :
  isoformat sample_now = "2024-03-07T09:05:00.000120".
Proof. reflexivity. Qed.

Example list_notes_sample : (list_notes sample_fs).1 = Ok [milk; dog].
Proof. vm_compute. reflexivity. Qed.

Example list_notes_duplicate :
  (list_notes duplicate_fs).1 = Ok [milk; dog; oat_milk].
Proof. vm_compute. reflexivity. Qed.

(** ** The theorems at sample inputs *)

(** C1 on a missing store file: the first note gets the id 1. *)
Lemma add_note_spec_witness :
  (load_store ∅).1 = Ok initial_store
  /\ exists (note : Note) (f2 : gmap path string),
      add_note ascii_strip sample_now " Buy milk " "2%"
        (Some ["shopping"; " "; "home "]) ∅ = (Ok note, f2)
      /\ id note = 1
      /\ title note = ascii_strip " Buy milk "
      /\ created_at note = isoformat sample_now +:+ "Z".
Proof.
  split; [vm_compute; reflexivity|].
  destruct (add_note_spec ascii_strip sample_now " Buy milk " "2%"
              (Some ["shopping"; " "; "home "]) ∅
              [("next_id", JInt 1); ("notes", JArr [])] 1 [])
    as (note & f2 & m2 & Hadd & Hid & Ht & Hb & Hg & Hc & _);
    [vm_compute; reflexivity | reflexivity | reflexivity |].
  exists note, f2. repeat split; assumption.
Defined.

(** C2 on a session that adds, deletes and adds again. *)
Lemma ids_increase_never_reused_witness :
  ((∅ : gmap path string) !! NOTES_FILE = None
   \/ (∅ : gmap path string) !! NOTES_FILE = Some (dumps initial_store))
  /\ exists f : gmap path string,
      run ascii_strip sample_calls ∅ = (Ok [1; 2], f).
Proof.
  split; [left; reflexivity|].
  destruct (ids_increase_never_reused ascii_strip sample_calls ∅ 3)
    as (f & ids & Hrun & -> & _); [left; reflexivity|].
  exists f. exact Hrun.
Defined.

(** C3 on the sample store: the note 1 is deleted and the store saved. *)
Lemma delete_note_spec_witness :
  (list_notes sample_fs).1 = Ok [milk; dog]
  /\ exists f2 : gmap path string,
      delete_note 1 sample_fs = (Ok true, f2)
      /\ list_notes f2 = (Ok [dog], f2).
Proof.
  split; [vm_compute; reflexivity|].
  destruct (delete_note_spec 1 sample_fs [milk; dog])
    as (b & f2 & m & Hd & _ & Hb & Htrue & _); [vm_compute; reflexivity|].
  assert (E : b = true).
  { apply Hb. exists milk. split; [left | reflexivity]. }
  subst b. destruct (Htrue eq_refl) as (m2 & _ & _ & Hln & _).
  exists f2. split; [exact Hd | exact Hln].
Defined.

(** C4 on the sample store, with a query in capitals. *)
Lemma search_notes_spec_witness :
  (list_notes sample_fs).1 = Ok [milk; dog]
  /\ search_notes ascii_lower "MILK" sample_fs
     = (Ok (filter (Matches ascii_lower "MILK") [milk; dog]),
        ensured sample_fs).
Proof.
  split; [vm_compute; reflexivity|].
  refine (proj1 (search_notes_spec ascii_lower "MILK" sample_fs
                   [milk; dog] _)).
  vm_compute; reflexivity.
Defined.

(** C5 on the sample store. *)
Lemma delete_then_find_absent_witness :
  (list_notes sample_fs).1 = Ok [milk; dog]
  /\ exists (b : bool) (f2 f3 : gmap path string),
      delete_note 2 sample_fs = (Ok b, f2)
      /\ find_note 2 f2 = (Ok None, f3).
Proof.
  split; [vm_compute; reflexivity|].
  apply (proj2 (delete_then_find_absent 2 sample_fs) [milk; dog]).
  vm_compute; reflexivity.
Defined.

(** C6 on the sample store, which is in the layout of [save_store]. *)
Lemma save_load_roundtrip_witness :
  (load_store sample_fs).1
  = Ok (JObj [("next_id", JInt 3); ("notes", JArr (map asdict [milk; dog]))])
  /\ exists f2 : gmap path string,
      save_store
        (JObj [("next_id", JInt 3); ("notes", JArr (map asdict [milk; dog]))])
        (ensured sample_fs) = (Ok tt, f2)
      /\ f2 !! NOTES_FILE = sample_fs !! NOTES_FILE.
Proof.
  split; [vm_compute; reflexivity|].
  destruct (save_load_roundtrip sample_fs
              (JObj [("next_id", JInt 3);
                     ("notes", JArr (map asdict [milk; dog]))]))
    as (f2 & Hsave & Hfile & _); [vm_compute; reflexivity|].
  exists f2. split; [exact Hsave|]. rewrite Hfile. symmetry.
  apply lookup_singleton_eq.
Defined.

(** C7 on the sample store. *)
Lemma export_json_roundtrip_witness :
  (list_notes sample_fs).1 = Ok [milk; dog]
  /\ exists (f2 : gmap path string) (text : string) (l : list json),
      export_notes ["notes_export.json"] "json" sample_fs
      = (Ok ["notes_export.json"], f2)
      /\ f2 !! (["notes_export.json"] : path) = Some text
      /\ loads text = Ok (JObj [("notes", JArr l)])
      /\ l = map asdict [milk; dog]
      /\ notes_of_json l = Ok [milk; dog].
Proof.
  split; [vm_compute; reflexivity|].
  apply (export_json_roundtrip ["notes_export.json"] sample_fs [milk; dog]).
  vm_compute; reflexivity.
Defined.

(** C9 on the sample store, for an id that no note has. *)
Lemma main_exit_codes_witness :
  (list_notes sample_fs).1 = Ok [milk; dog]
  /\ Forall (fun n => id n <> 7) [milk; dog]
  /\ main (View 7) sample_fs
     = (Ok (1, "Note " +:+ int_repr 7 +:+ " not found" +:+ String c_nl ""),
        ensured sample_fs)
  /\ main (Delete 7) sample_fs
     = (Ok (0, "Note not found." +:+ String c_nl ""), ensured sample_fs).
Proof.
  split; [vm_compute; reflexivity|].
  split; [repeat constructor; discriminate|].
  refine (proj1 (main_exit_codes 7 sample_fs [milk; dog] _) _);
    [vm_compute; reflexivity | repeat constructor; discriminate].
Defined.

(** C10 on a store in which two notes share the id 1: both go at once,
    and [find_note] sees the first of them. *)
Lemma delete_all_find_first_witness :
  (list_notes duplicate_fs).1 = Ok [milk; dog; oat_milk]
  /\ (exists f2 : gmap path string,
        delete_note 1 duplicate_fs = (Ok true, f2)
        /\ list_notes f2 = (Ok [dog], f2))
  /\ exists r : option Note,
      find_note 1 duplicate_fs = (Ok r, ensured duplicate_fs)
      /\ match r with
         | None => Forall (fun n => id n <> 1) [milk; dog; oat_milk]
         | Some n =>
             exists pre post,
               [milk; dog; oat_milk] = pre ++ n :: post /\ id n = 1
               /\ Forall (fun x => id x <> 1) pre
         end.
Proof.
  split; [vm_compute; reflexivity|].
  destruct (delete_all_find_first 1 duplicate_fs [milk; dog; oat_milk])
    as [(b & f2 & Hd & Hln & _ & _ & Hb) Hfind]; [vm_compute; reflexivity|].
  split; [|exact Hfind].
  assert (E : b = true) by (apply Hb; left; reflexivity).
  subst b. exists f2. split; [exact Hd | exact Hln].
Defined.

Example find_note_duplicate :
  (find_note 1 duplicate_fs).1 = Ok (Some milk).
Proof. vm_compute. reflexivity. Qed.

(** ** Further properties at sample inputs *)

(** X3 on a store file that breaks off after the opening brace. *)
Lemma unreadable_store_stops_everything_witness :
  (load_store (raw_store "{")).1 = Raise JSONDecodeError
  /\ list_notes (raw_store "{")
     = (Raise JSONDecodeError, ensured (raw_store "{"))
  /\ main (View 1) (raw_store "{")
     = (Raise JSONDecodeError, ensured (raw_store "{")).
Proof.
  split; [vm_compute; reflexivity|].
  destruct (unreadable_store_stops_everything ascii_strip ascii_lower
              (raw_store "{") JSONDecodeError)
    with (now := sample_now) (title0 := "") (body0 := "") (query := "")
         (fmt := "md") (tags0 := @None (list string)) (i := 1)
         (out := (["notes.md"] : path))
    as (_ & Hln & _ & _ & _ & _ & Hview & _); [vm_compute; reflexivity|].
  split; [exact Hln | exact Hview].
Defined.

(** X4 on a store file that holds one blank. *)
Lemma blank_store_file_raises_witness :
  raw_store " " !! NOTES_FILE = Some " "
  /\ skip_ws " " = ""
  /\ load_store (raw_store " ") = (Raise JSONDecodeError, raw_store " ").
Proof.
  split; [vm_compute; reflexivity|]. split; [reflexivity|].
  apply (blank_store_file_raises (raw_store " ") " ");
    [vm_compute; reflexivity | reflexivity].
Defined.

(** X5 for the initial store, saved into an empty file system. *)
Lemma save_then_load_witness :
  wf_json initial_store
  /\ exists f1 : gmap path string,
      save_store initial_store ∅ = (Ok tt, f1)
      /\ load_store f1 = (Ok initial_store, f1).
Proof.
  assert (Hwf : wf_json initial_store)
    by (apply (loads_wf (dumps initial_store)); reflexivity).
  split; [exact Hwf|].
  destruct (save_then_load initial_store ∅ Hwf) as (f1 & Hs & Hl & _).
  exists f1. split; [exact Hs | exact Hl].
Defined.

(** X7 on a store file that holds a list. *)
Lemma add_note_errors_witness :
  (load_store (raw_store "[]")).1 = Ok (JArr [])
  /\ add_note ascii_strip sample_now "Buy milk" "" None (raw_store "[]")
     = (Raise AttributeError, ensured (raw_store "[]")).
Proof.
  split; [vm_compute; reflexivity|].
  refine (proj1 (add_note_errors ascii_strip sample_now "Buy milk" "" None
                   (raw_store "[]") (JArr []) _) _);
    [vm_compute; reflexivity | discriminate].
Defined.

(** X8 on a store that holds the note 1 and no counter: the id 1 is
    handed out again. *)
Lemma add_note_default_id_witness :
  (load_store counterless_fs).1 = Ok (JObj counterless)
  /\ dict_get "next_id" counterless = None
  /\ exists (note : Note) (f2 : gmap path string),
      add_note ascii_strip sample_now "Walk dog" "" None counterless_fs
      = (Ok note, f2)
      /\ id note = 1.
Proof.
  split; [vm_compute; reflexivity|]. split; [reflexivity|].
  destruct (add_note_default_id ascii_strip sample_now "Walk dog" "" None
              counterless_fs counterless [asdict milk])
    as (note & f2 & m2 & Hadd & Hid & _);
    [vm_compute; reflexivity | reflexivity | reflexivity |].
  exists note, f2. split; [exact Hadd | exact Hid].
Defined.

(** X9 on the sample store, whose counter was 3. *)
Lemma export_onto_store_resets_counter_witness :
  (list_notes sample_fs).1 = Ok [milk; dog]
  /\ exists (f1 f2 : gmap path string) (note : Note),
      export_notes NOTES_FILE "json" sample_fs = (Ok NOTES_FILE, f1)
      /\ add_note ascii_strip sample_now "Buy oat milk" "" None f1
         = (Ok note, f2)
      /\ id note = 1
      /\ list_notes f2 = (Ok ([milk; dog] ++ [note]), f2).
Proof.
  split; [vm_compute; reflexivity|].
  destruct (export_onto_store_resets_counter ascii_strip sample_now
              "Buy oat milk" "" None sample_fs [milk; dog])
    as (f1 & f2 & note & Hex & _ & Hadd & Hid & Hln);
    [vm_compute; reflexivity|].
  exists f1, f2, note. repeat split; assumption.
Defined.

(** X10 on the sample store. *)
Lemma add_then_find_and_delete_witness :
  (load_store sample_fs).1
  = Ok (JObj [("next_id", JInt 3); ("notes", JArr (map asdict [milk; dog]))])
  /\ notes_of_json (map asdict [milk; dog]) = Ok [milk; dog]
  /\ Forall (fun x => id x <> 3) [milk; dog]
  /\ exists (note : Note) (f2 f3 : gmap path string),
      add_note ascii_strip sample_now "Buy oat milk" "" None sample_fs
      = (Ok note, f2)
      /\ find_note 3 f2 = (Ok (Some note), f2)
      /\ delete_note 3 f2 = (Ok true, f3)
      /\ list_notes f3 = (Ok [milk; dog], f3).
Proof.
  split; [vm_compute; reflexivity|]. split; [vm_compute; reflexivity|].
  split; [repeat constructor; discriminate|].
  destruct (add_then_find_and_delete ascii_strip sample_now "Buy oat milk" ""
              None sample_fs
              [("next_id", JInt 3); ("notes", JArr (map asdict [milk; dog]))]
              3 (map asdict [milk; dog]) [milk; dog])
    as (note & f2 & f3 & m3 & Hadd & Hfind & Hdel & Hln & _);
    [vm_compute; reflexivity | reflexivity | reflexivity
    | vm_compute; reflexivity | repeat constructor; discriminate |].
  exists note, f2, f3. repeat split; assumption.
Defined.

(** X11 on tags of which one is blank. *)
Lemma added_tags_nonempty_witness :
  (add_note ascii_strip sample_now " Buy milk " "2%"
     (Some ["shopping"; " "; "home "]) ∅).1 = Ok milk
  /\ Forall (fun t => t <> "") (tags milk)
  /\ (length (tags milk) <= 3)%nat.
Proof.
  split; [vm_compute; reflexivity|].
  destruct (added_tags_nonempty ascii_strip sample_now " Buy milk " "2%"
              (Some ["shopping"; " "; "home "]) ∅ milk)
    as (Hne & _ & Hlen); [vm_compute; reflexivity|].
  split; [exact Hne | exact Hlen].
Defined.

(** X12 on a store file that holds the empty dictionary. *)
Lemma store_without_notes_is_empty_witness :
  (load_store (raw_store "{}")).1 = Ok (JObj [])
  /\ dict_get "notes" [] = None
  /\ list_notes (raw_store "{}") = (Ok [], ensured (raw_store "{}"))
  /\ delete_note 1 (raw_store "{}") = (Ok false, ensured (raw_store "{}")).
Proof.
  split; [vm_compute; reflexivity|]. split; [reflexivity|].
  destruct (store_without_notes_is_empty ascii_strip ascii_lower
              (raw_store "{}") [])
    with (i := 1) (query := "") (now := sample_now) (title0 := "")
         (body0 := "") (tags0 := @None (list string))
    as (Hln & _ & Hdel & _);
    [vm_compute; reflexivity | reflexivity |].
  split; [exact Hln | exact Hdel].
Defined.

(** X13 on the record of [dog] with its first two keys exchanged. *)
Lemma note_of_json_any_key_order_witness :
  NoDup (map fst dog_fields)
  /\ dog_fields ≡ₚ dog_fields_swapped
  /\ note_of_json (JObj dog_fields_swapped) = Ok dog.
Proof.
  assert (Hnd : NoDup (map fst dog_fields))
    by (apply (bool_decide_unpack _); vm_compute; exact I).
  assert (Hp : dog_fields ≡ₚ dog_fields_swapped) by apply perm_swap.
  split; [exact Hnd|]. split; [exact Hp|].
  rewrite (note_of_json_any_key_order dog_fields dog_fields_swapped Hnd Hp).
  reflexivity.
Defined.

(** X15 on a store whose second record has the key [id] only. *)
Lemma malformed_record_raises_type_error_witness :
  (load_store torn_fs).1 = Ok (JObj torn)
  /\ notes_of_json [asdict milk] = Ok [milk]
  /\ list_notes torn_fs = (Raise TypeError, ensured torn_fs)
  /\ find_note 1 torn_fs = (Raise TypeError, ensured torn_fs).
Proof.
  split; [vm_compute; reflexivity|]. split; [vm_compute; reflexivity|].
  destruct (malformed_record_raises_type_error ascii_lower torn_fs torn
              [asdict milk] [milk] (JObj [("id", JInt 2)]) [asdict dog])
    with (i := 1) (query := "") (fmt := "md") (out := (["notes.md"] : path))
    as (Hln & Hfind & _);
    [vm_compute; reflexivity | reflexivity | vm_compute; reflexivity
    | right; exists [("id", JInt 2)]; split;
      [reflexivity | left; discriminate] |].
  split; [exact Hln | exact Hfind].
Defined.

(** X17 on the sample store. *)
Lemma delete_note_twice_witness :
  (list_notes sample_fs).1 = Ok [milk; dog]
  /\ exists (b : bool) (f2 : gmap path string),
      delete_note 1 sample_fs = (Ok b, f2)
      /\ delete_note 1 f2 = (Ok false, f2).
Proof.
  split; [vm_compute; reflexivity|].
  destruct (delete_note_twice 1 sample_fs [milk; dog])
    as (b & f2 & Hd & Hd2 & _); [vm_compute; reflexivity|].
  exists b, f2. split; [exact Hd | exact Hd2].
Defined.

(** X18 on a store whose list of notes holds the number 7. *)
Lemma delete_note_needs_only_dicts_witness :
  (load_store littered_fs).1 = Ok (JObj littered)
  /\ dict_get "notes" littered = Some (JArr [asdict milk; JInt 7])
  /\ delete_note 1 littered_fs = (Raise AttributeError, ensured littered_fs).
Proof.
  split; [vm_compute; reflexivity|]. split; [reflexivity|].
  refine (proj2 (delete_note_needs_only_dicts 1 littered_fs littered
                   [asdict milk; JInt 7] _ _) _);
    [vm_compute; reflexivity | reflexivity |].
  intros H. inversion H as [|? ? _ H2]. inversion H2 as [|? ? [m Hm] _].
  discriminate.
Defined.

(** X19 on the sample store: [IL] occurs in [Milk], whatever the case. *)
Lemma search_longer_query_finds_less_witness :
  (list_notes sample_fs).1 = Ok [milk; dog]
  /\ contains (ascii_lower "IL") (ascii_lower "Milk")
  /\ exists r1 r2 : list Note,
      search_notes ascii_lower "IL" sample_fs = (Ok r1, ensured sample_fs)
      /\ search_notes ascii_lower "Milk" sample_fs
         = (Ok r2, ensured sample_fs)
      /\ sublist r2 r1.
Proof.
  assert (Hc : contains (ascii_lower "IL") (ascii_lower "Milk"))
    by (exists "m", "k"; reflexivity).
  split; [vm_compute; reflexivity|]. split; [exact Hc|].
  destruct (search_longer_query_finds_less ascii_lower "IL" "Milk" sample_fs
              [milk; dog])
    as (r1 & r2 & H1 & H2 & Hsub & _); [vm_compute; reflexivity | exact Hc |].
  exists r1, r2. repeat split; assumption.
Defined.


(** X21 on the sample store. *)
Lemma export_md_onto_store_breaks_it_witness :
  (list_notes sample_fs).1 = Ok [milk; dog]
  /\ exists f2 : gmap path string,
      export_notes NOTES_FILE "md" sample_fs = (Ok NOTES_FILE, f2)
      /\ list_notes f2 = (Raise JSONDecodeError, f2).
Proof.
  split; [vm_compute; reflexivity|].
  destruct (export_md_onto_store_breaks_it ascii_strip ascii_lower sample_fs
              [milk; dog])
    as (f2 & Hex & _ & _ & Hln & _); [vm_compute; reflexivity|].
  exists f2. split; [exact Hex | exact Hln].
Defined.

(** X22 on the sample store. *)
Lemma export_md_after_add_witness :
  (load_store sample_fs).1
  = Ok (JObj [("next_id", JInt 3); ("notes", JArr (map asdict [milk; dog]))])
  /\ notes_of_json (map asdict [milk; dog]) = Ok [milk; dog]
  /\ exists (note : Note) (f2 f4 : gmap path string),
      add_note ascii_strip sample_now "Buy oat milk" "" None sample_fs
      = (Ok note, f2)
      /\ export_notes ["notes.md"] "md" f2 = (Ok ["notes.md"], f4)
      /\ f4 !! (["notes.md"] : path)
         = Some (md_document [milk; dog] +:+ md_section note).
Proof.
  split; [vm_compute; reflexivity|]. split; [vm_compute; reflexivity|].
  destruct (export_md_after_add ascii_strip sample_now "Buy oat milk" "" None
              ["notes.md"] sample_fs
              [("next_id", JInt 3); ("notes", JArr (map asdict [milk; dog]))]
              3 (map asdict [milk; dog]) [milk; dog])
    as (note & f2 & f3 & f4 & Hadd & _ & _ & Hex & Hfile & _);
    [vm_compute; reflexivity | reflexivity | reflexivity
    | vm_compute; reflexivity |].
  exists note, f2, f4. repeat split; assumption.
Defined.

(** X23 on the empty file system. *)
Lemma fresh_home_first_run_witness :
  (∅ : gmap path string) !! NOTES_FILE = None
  /\ list_notes ∅ = (Ok [], <[NOTES_FILE := dumps initial_store]> ∅)
  /\ main (View 1) ∅
     = (Ok (1, print ("Note " +:+ int_repr 1 +:+ " not found")),
        <[NOTES_FILE := dumps initial_store]> ∅).
Proof.
  split; [reflexivity|].
  destruct (fresh_home_first_run ascii_strip ascii_lower ∅)
    with (i := 1) (query := "") (now := sample_now) (title0 := "")
         (body0 := "") (tags0 := @None (list string))
    as (Hln & _ & _ & _ & Hview & _); [reflexivity|].
  split; [exact Hln | exact Hview].
Defined.

(** X24 on the sample store and a tag that only [milk] carries. *)
Lemma main_list_spec_witness :
  (list_notes sample_fs).1 = Ok [milk; dog]
  /\ main_list (Some "home") sample_fs
     = (Ok (0, if decide (shown (Some "home") [milk; dog] = [])
               then print "No notes yet."
               else list_lines (shown (Some "home") [milk; dog])),
        ensured sample_fs).
Proof.
  split; [vm_compute; reflexivity|].
  refine (proj1 (main_list_spec (Some "home") sample_fs [milk; dog] _)).
  vm_compute; reflexivity.
Defined.

(** X26 on the sample store and two tags with blanks around the comma. *)
Lemma main_add_spec_witness :
  (load_store sample_fs).1
  = Ok (JObj [("next_id", JInt 3); ("notes", JArr (map asdict [milk; dog]))])
  /\ exists f2 : gmap path string,
      main_add ascii_strip sample_now "Buy oat milk" "" (Some "shopping , ,home")
        sample_fs
      = (Ok (0, "Added note id=" +:+ int_repr 3 +:+ " title=" +:+
                ascii_strip "Buy oat milk" +:+ String c_nl ""), f2).
Proof.
  split; [vm_compute; reflexivity|].
  destruct (main_add_spec ascii_strip sample_now "Buy oat milk" ""
              (Some "shopping , ,home") sample_fs
              [("next_id", JInt 3); ("notes", JArr (map asdict [milk; dog]))]
              3 (map asdict [milk; dog]))
    as (note & f2 & _ & Hmain & _);
    [vm_compute; reflexivity | reflexivity | reflexivity |].
  exists f2. exact Hmain.
Defined.

(** The comma-separated tags of the last example, as they are stored. *)
Example main_add_tags :
  strip_tags ascii_strip (tag_pieces (Some "shopping , ,home"))
  = ["shopping"; "home"].
Proof. vm_compute. reflexivity. Qed.

Example list_lines_sample :
  list_lines (shown (Some "home") [milk; dog])
  = "[1] Buy milk (shopping, home)" +:+ String c_nl "".
Proof. vm_compute. reflexivity. Qed.

(** A tag filter that no note passes reports an empty store. *)
Example main_list_no_such_tag :
  (main_list (Some "shop") sample_fs).1
  = Ok (0, print "No notes yet.").
Proof. vm_compute. reflexivity. Qed.
